(** * Code Fixer Academy: lesson progression, scoring and rankings

    A shallow embedding of the decision logic of the debugging-practice
    front end: the [Challenge] page (simulated run, solution check, hint
    reveal, progress and profile updates) and the [Leaderboard] page
    (ranking and personal statistics), together with the tables of the
    backing store as the schema migration declares them.

    JavaScript strings are sequences of UTF-16 code units, JavaScript
    numbers that hold counters are integers ([Z]), nullable columns are
    [option]s, and a table is the list of its rows. *)

From Stdlib Require Import ZArith NArith List Bool String Ascii Lia.
From Stdlib Require Import Sorted Permutation.
Import ListNotations.

Set Implicit Arguments.

(* ================================================================= *)
(** ** JavaScript strings and arrays *)

Module JS.

(** A UTF-16 code unit. *)
Definition char16 := N.

Definition jsstring := list char16.

(** An ASCII literal of the source as a JavaScript string. *)
Definition lit (s : string) : jsstring :=
  map N_of_ascii (list_ascii_of_string s).

(** The line feed, written ['\n'] in the source. *)
Definition LF : char16 := 10%N.

(** [WhiteSpace] and [LineTerminator] of ECMAScript, the code units that
    [String.prototype.trim] strips: TAB, LF, VT, FF, CR, SP, NBSP,
    U+1680, U+2000..U+200A, LS, PS, U+202F, U+205F, U+3000 and the BOM. *)
Definition isWhiteSpace (c : char16) : bool :=
  ((9 <=? c) && (c <=? 13) || (c =? 32) || (c =? 160) || (c =? 5760)
   || (8192 <=? c) && (c <=? 8202) || (c =? 8232) || (c =? 8233)
   || (c =? 8239) || (c =? 8287) || (c =? 12288) || (c =? 65279))%N.

Fixpoint trimStart (s : jsstring) : jsstring :=
  match s with
  | [] => []
  | c :: t => if isWhiteSpace c then trimStart t else s
  end.

Definition trimEnd (s : jsstring) : jsstring := rev (trimStart (rev s)).

(** [s.trim()] *)
Definition trim (s : jsstring) : jsstring := trimEnd (trimStart s).

(** A string of white space only. *)
Definition white (s : jsstring) : Prop := forallb isWhiteSpace s = true.

(** A string with no white space at either end. *)
Definition trimmed (t : jsstring) : Prop :=
  (forall c r, t = c :: r -> isWhiteSpace c = false) /\
  (forall r c, t = r ++ [c] -> isWhiteSpace c = false).

(** [a === b] on strings: the same sequence of code units. *)
Fixpoint streq (a b : jsstring) : bool :=
  match a, b with
  | [], [] => true
  | x :: a', y :: b' => (x =? y)%N && streq a' b'
  | _, _ => false
  end.

Fixpoint startsWith (s p : jsstring) : bool :=
  match p, s with
  | [], _ => true
  | y :: p', x :: s' => (x =? y)%N && startsWith s' p'
  | _ :: _, [] => false
  end.

(** [s.includes(p)] *)
Fixpoint includes (s p : jsstring) : bool :=
  startsWith s p ||
  match s with
  | [] => false
  | _ :: s' => includes s' p
  end.

(** [a[i] = v] on a JavaScript array of booleans.  Writing past the end
    extends the array; the slots in between are holes, which read as
    [undefined] and are falsy, here [false]. *)
Fixpoint array_set (i : nat) (v : bool) (a : list bool) : list bool :=
  match i, a with
  | O, [] => [v]
  | O, _ :: t => v :: t
  | S i', [] => false :: array_set i' v []
  | S i', x :: t => x :: array_set i' v t
  end.

(** [a[i]], with [undefined] read as [false]. *)
Definition array_get (i : nat) (a : list bool) : bool := nth i a false.

(** [x || 0] on a nullable number. *)
Definition or0 (x : option Z) : Z :=
  match x with
  | Some v => v
  | None => 0%Z
  end.

End JS.

Import JS.

(* ================================================================= *)
(** ** The tables of the store

    One module per table of the schema, each with the [Row] type of the
    generated bindings.  A timestamp column is an instant in milliseconds;
    a UUID is a string. *)

Definition uuid := jsstring.
Definition timestamptz := Z.

Module profiles.
Record Row := mkRow {
  avatar_url : option jsstring;
  best_streak : option Z;
  created_at : timestamptz;
  current_streak : option Z;
  id : uuid;
  total_lessons_completed : option Z;
  total_points : option Z;
  updated_at : timestamptz;
  user_id : uuid;
  username : option jsstring
}.
End profiles.

Module user_progress.
Record Row := mkRow {
  attempts : option Z;
  completed_at : timestamptz;
  hints_used : option Z;
  id : uuid;
  lesson_id : uuid;
  time_taken : option Z;
  user_id : uuid
}.
End user_progress.

Module user_badges.
Record Row := mkRow {
  badge_id : uuid;
  earned_at : timestamptz;
  id : uuid;
  user_id : uuid
}.
End user_badges.

Module badges.
Inductive badge_type :=
| first_debug
| consecutive_solves
| language_master
| speed_demon
| accuracy_ace.

Record Row := mkRow {
  type_of : badge_type;          (* column [badge_type] *)
  created_at : timestamptz;
  description : jsstring;
  icon : option jsstring;
  id : uuid;
  name : jsstring;
  requirement_value : option Z
}.
End badges.

(** What a query answers: the rows asked for, or an error.  The client
    never throws; a failed statement comes back in [error]. *)
Inductive PostgrestError :=
| unique_violation      (* 23505: a UNIQUE constraint rejected the row *)
| not_a_single_row      (* [.single()] matched no row, or several *)
| numeric_value_out_of_range.  (* 22003: a number outside its column's type *)

Record Response (A : Type) := mkResponse {
  data : option A;
  error : option PostgrestError
}.

(** The values the store fills in by itself when a row is written:
    [gen_random_uuid()] and [now()]. *)
Record Defaults := mkDefaults {
  gen_random_uuid : uuid;
  now : timestamptz
}.

Record Store := mkStore {
  tbl_profiles : list profiles.Row;
  tbl_user_progress : list user_progress.Row
}.

Module Query.

(** [.eq('user_id', u)] on [profiles]. *)
Definition profiles_eq_user_id (u : uuid) (t : list profiles.Row) :=
  filter (fun r => streq (profiles.user_id r) u) t.

(** [.single()]: exactly one row, or no data and an error. *)
Definition single (A : Type) (rows : list A) : Response A :=
  match rows with
  | [r] => mkResponse (Some r) None
  | _ => mkResponse None (Some not_a_single_row)
  end.

(** Two progress rows clash on [UNIQUE(user_id, lesson_id)]. *)
Definition same_pair (u l : uuid) (r : user_progress.Row) : bool :=
  streq (user_progress.user_id r) u && streq (user_progress.lesson_id r) l.

(** [.from('user_progress').insert({user_id, lesson_id, hints_used,
    attempts})]: the row is appended with the column defaults for [id],
    [completed_at] and [time_taken], unless a row for the same user and
    lesson is there, in which case the table is left as it is and the
    answer carries the violation. *)
Definition insert_user_progress (d : Defaults) (u l : uuid)
    (hints_used attempts : Z) (t : list user_progress.Row)
  : list user_progress.Row * Response unit :=
  if existsb (same_pair u l) t
  then (t, mkResponse None (Some unique_violation))
  else (t ++ [user_progress.mkRow (Some attempts) (now d) (Some hints_used)
                (gen_random_uuid d) l None u],
        mkResponse None None).

(** The values of an INTEGER column: four bytes, signed. *)
Definition int4 (v : Z) : bool :=
  (-2147483648 <=? v)%Z && (v <=? 2147483647)%Z.

(** What an updated row of [profiles] becomes: the two counters are set and
    the trigger [update_profiles_updated_at] stamps the row. *)
Definition with_totals (d : Defaults) (completed pts : Z) (r : profiles.Row)
  : profiles.Row :=
  profiles.mkRow (profiles.avatar_url r) (profiles.best_streak r)
    (profiles.created_at r) (profiles.current_streak r)
    (profiles.id r) (Some completed) (Some pts) (now d)
    (profiles.user_id r) (profiles.username r).

(** Both new counters fit their columns. *)
Definition totals_fit (completed pts : Z) : bool := int4 completed && int4 pts.

(** [.from('profiles').update({total_lessons_completed, total_points})
    .eq('user_id', u)].  Both columns are INTEGER: a number outside that
    type fails the statement with 22003, and the table stays as it was. *)
Definition update_profile_totals (d : Defaults) (u : uuid)
    (completed pts : Z) (t : list profiles.Row)
  : list profiles.Row * Response unit :=
  if totals_fit completed pts then
    (map (fun r =>
            if streq (profiles.user_id r) u then with_totals d completed pts r
            else r) t,
     mkResponse None None)
  else (t, mkResponse None (Some numeric_value_out_of_range)).

End Query.

(* ================================================================= *)
(** ** The Challenge page *)

Module Challenge.

(** [interface Lesson].  The [hints] column is nullable in the store, and
    the page guards every use with [currentLesson.hints && ...]. *)
Record Lesson := mkLesson {
  id : uuid;
  title : jsstring;
  language : jsstring;
  difficulty : jsstring;
  description : jsstring;
  starter_code : jsstring;
  expected_output : jsstring;
  hints : option (list jsstring);
  points : Z
}.

(** The [useState] cells of the component that the handlers below read or
    write. *)
Record State := mkState {
  lessons : list Lesson;
  currentLesson : option Lesson;
  code : jsstring;
  output : jsstring;
  showHints : list bool;
  isRunning : bool;
  attempts : Z;
  isFirstChallenge : bool
}.

Definition setOutput (o : jsstring) (st : State) : State :=
  mkState (lessons st) (currentLesson st) (code st) o (showHints st)
          (isRunning st) (attempts st) (isFirstChallenge st).

Definition setCode (c : jsstring) (st : State) : State :=
  mkState (lessons st) (currentLesson st) c (output st) (showHints st)
          (isRunning st) (attempts st) (isFirstChallenge st).

Definition setShowHints (h : list bool) (st : State) : State :=
  mkState (lessons st) (currentLesson st) (code st) (output st) h
          (isRunning st) (attempts st) (isFirstChallenge st).

Definition setIsRunning (b : bool) (st : State) : State :=
  mkState (lessons st) (currentLesson st) (code st) (output st) (showHints st)
          b (attempts st) (isFirstChallenge st).

Definition setAttempts (n : Z) (st : State) : State :=
  mkState (lessons st) (currentLesson st) (code st) (output st) (showHints st)
          (isRunning st) n (isFirstChallenge st).

(** What a handler does besides setting state. *)
Inductive Effect :=
| triggerConfetti
| toastCorrect (pts : Z)            (* 'Correct Solution!', 'You earned pts points!' *)
| callSaveProgress (attemptCount : Z)
| scheduleNextLesson                 (* the 1500 ms timer that moves on *)
| toastHintUnlocked                  (* 'Hint Unlocked!' *)
| toastNotQuite (attempt : Z).       (* 'Not quite right', 'Attempt n. Keep trying!' *)

(** The two lessons the simulation tells apart. *)
Definition python : jsstring := lit "python".
Definition off_by_one_title : jsstring := lit "Off-by-One Error in Loop".
Definition executed_prefix : jsstring :=
  lit "Code executed successfully!" ++ [LF].
Definition one_to_six : jsstring :=
  lit "1" ++ [LF] ++ lit "2" ++ [LF] ++ lit "3" ++ [LF] ++ lit "4" ++ [LF]
  ++ lit "5" ++ [LF] ++ lit "6".

(** The click on 'Run Code': [setIsRunning(true)], and the timer is set. *)
Definition runCode_click (st : State) : State := setIsRunning true st.

(** The callback of the 1500 ms timer of [runCode].  It was made in the
    render in which 'Run Code' was clicked and reads [code] and
    [currentLesson] of that render, [seen]; what it sets lands in the state
    the page has when the timer fires, [st]. *)
Definition runCode_timer (seen st : State) : State :=
  setIsRunning false
    match currentLesson seen with
    | None => st
    | Some l =>
      let trimmedCode := trim (code seen) in
      let expectedOutput := trim (expected_output l) in
      if streq (language l) python && streq (title l) off_by_one_title then
        if includes trimmedCode (lit "range(1, 6)") then
          setOutput expectedOutput st
        else if includes trimmedCode (lit "range(1, 7)") then
          setOutput one_to_six st
        else
          setOutput (lit "Error: Invalid code or syntax error") st
      else
        setOutput (executed_prefix ++ expectedOutput) st
    end.

(** [runCode] from the click to the end of its timer, when nothing else
    happens to the page in between. *)
Definition runCode (st : State) : State := runCode_timer st (runCode_click st).

(** The guard [currentLesson.hints && currentLesson.hints.length > 0]. *)
Definition has_hints (l : Lesson) : bool :=
  match hints l with
  | Some (_ :: _) => true
  | _ => false
  end.

(** [checkSolution]: the next state and the effects, in order. *)
Definition checkSolution (st : State) : State * list Effect :=
  match currentLesson st with
  | None => (st, [])
  | Some l =>
    let actualOutput := trim (output st) in
    let expectedOutput := trim (expected_output l) in
    let newAttempts := (attempts st + 1)%Z in
    let st1 := setAttempts newAttempts st in
    if streq actualOutput expectedOutput then
      (st1,
       (if isFirstChallenge st then [triggerConfetti] else [])
       ++ [toastCorrect (points l); callSaveProgress newAttempts;
           scheduleNextLesson])
    else if (newAttempts =? 2)%Z && has_hints l then
      (setShowHints (array_set 0 true (showHints st)) st1, [toastHintUnlocked])
    else
      (st1, [toastNotQuite newAttempts])
  end.

(** The effect on [currentLesson]: a lesson that becomes current starts
    with its starter code, no output, no hint shown and no attempt. *)
Definition openLesson (l : Lesson) (st : State) : State :=
  mkState (lessons st) (Some l) (starter_code l) [] [] (isRunning st) 0
          (isFirstChallenge st).

(** [showHint(index)] *)
Definition showHint (index : nat) (st : State) : State :=
  setShowHints (array_set index true (showHints st)) st.

(** [resetCode] *)
Definition resetCode (st : State) : State :=
  match currentLesson st with
  | None => st
  | Some l =>
    setShowHints [] (setAttempts 0 (setOutput [] (setCode (starter_code l) st)))
  end.

(** The verdict of a check, read off what the handler did: a pass is the
    branch that congratulates and calls [saveProgress]. *)
Inductive Verdict := Pass | Fail.

Definition is_save (e : Effect) : bool :=
  match e with
  | callSaveProgress _ => true
  | _ => false
  end.

Definition verdict (r : State * list Effect) : Verdict :=
  if existsb is_save (snd r) then Pass else Fail.

Definition is_hint_unlocked (e : Effect) : bool :=
  match e with
  | toastHintUnlocked => true
  | _ => false
  end.

(** The check revealed a hint by itself. *)
Definition auto_revealed (r : State * list Effect) : bool :=
  existsb is_hint_unlocked (snd r).

(** The indices of the revealed hints. *)
Definition revealed (st : State) (i : nat) : bool := array_get i (showHints st).

(** [showHints.filter(Boolean).length] *)
Definition hintsUsed (st : State) : Z :=
  Z.of_nat (List.length (filter (fun b => b) (showHints st))).

(** What [saveProgress] hands back to its caller and writes to the console.
    The promise of an [async] function settles one way or the other. *)
Inductive Settled :=
| Fulfilled
| Rejected (e : PostgrestError).

Record Saved := mkSaved {
  store : Store;
  settled : Settled;
  console_error : list PostgrestError;
  insert_response : option (Response unit);
  update_response : option (Response unit)
}.

(** The update of [saveProgress], by a call that read the profile [p]: the
    new counters are computed in the page from what was read. *)
Definition write_totals (d : Defaults) (u : uuid) (l : Lesson)
    (p : profiles.Row) (t : list profiles.Row)
  : list profiles.Row * Response unit :=
  Query.update_profile_totals d u
    (or0 (profiles.total_lessons_completed p) + 1)
    (or0 (profiles.total_points p) + points l) t.

(** [saveProgress(attemptCount)], with the [user] of the session and the
    state of the render that called it, when no other statement reaches the
    store between its three awaits.  No call of the client throws, so the
    [catch] is never entered: the answers of the insert and of the update
    are dropped, and a profile that is not found skips the update. *)
Definition saveProgress (user : option uuid) (st : State) (attemptCount : Z)
    (d : Defaults) (db : Store) : Saved :=
  match user, currentLesson st with
  | Some u, Some l =>
    let '(progress, ins) :=
      Query.insert_user_progress d u (id l) (hintsUsed st) attemptCount
        (tbl_user_progress db) in
    let profile :=
      data (Query.single (Query.profiles_eq_user_id u (tbl_profiles db))) in
    match profile with
    | Some p =>
      let '(profiles', upd) := write_totals d u l p (tbl_profiles db) in
      mkSaved (mkStore profiles' progress) Fulfilled [] (Some ins) (Some upd)
    | None =>
      mkSaved (mkStore (tbl_profiles db) progress) Fulfilled [] (Some ins) None
    end
  | _, _ => mkSaved db Fulfilled [] None None
  end.

(** The same call in two steps, for calls that overlap: the awaits give
    other statements room between the select and the update.
    [saveProgress_read] is the insert and the select; it leaves the store
    with the new progress row and hands on the profile it read. *)
Definition saveProgress_read (u : uuid) (st : State) (l : Lesson)
    (attemptCount : Z) (d : Defaults) (db : Store)
  : Store * option profiles.Row :=
  (mkStore (tbl_profiles db)
     (fst (Query.insert_user_progress d u (id l) (hintsUsed st) attemptCount
             (tbl_user_progress db))),
   data (Query.single (Query.profiles_eq_user_id u (tbl_profiles db)))).

(** [saveProgress_write] is the update, on the store as it is by then. *)
Definition saveProgress_write (u : uuid) (l : Lesson)
    (profile : option profiles.Row) (d : Defaults) (db : Store) : Store :=
  match profile with
  | Some p =>
    mkStore (fst (write_totals d u l p (tbl_profiles db))) (tbl_user_progress db)
  | None => db
  end.

(** Follows the spec's words, for comparison with [saveProgress]: the
    streak after a completion that falls, or does not fall, on the day of
    the last activity or the day after it. *)
Definition spec_streak (within_window : bool) (current best : Z) : Z * Z :=
  let current' := if within_window then (current + 1)%Z else 1%Z in
  (current', Z.max best current').

(** The streak columns of a profile, as the pages read them. *)
Definition streaks (p : profiles.Row) : Z * Z :=
  (or0 (profiles.current_streak p), or0 (profiles.best_streak p)).

End Challenge.

(* ================================================================= *)
(** ** The Leaderboard page *)

Module Leaderboard.

(** [interface LeaderboardUser]: the selected columns and the rank. *)
Record LeaderboardUser := mkLeaderboardUser {
  user_id : uuid;
  username : option jsstring;
  total_points : option Z;
  total_lessons_completed : option Z;
  current_streak : option Z;
  rank : Z
}.

(** [ORDER BY total_points DESC] compares one column.  The store ranks NULL
    above every number in a descending order. *)
Definition points_ge (a b : option Z) : bool :=
  match a, b with
  | None, _ => true
  | Some _, None => false
  | Some x, Some y => (y <=? x)%Z
  end.

Fixpoint insert_desc (r : profiles.Row) (sorted : list profiles.Row)
  : list profiles.Row :=
  match sorted with
  | [] => [r]
  | h :: t =>
    if points_ge (profiles.total_points r) (profiles.total_points h)
    then r :: h :: t
    else h :: insert_desc r t
  end.

(** [.order('total_points', { ascending: false })], on the rows the query
    can see.  The query has this one sort key, and the store promises no
    order among rows of equal points; the insertion here keeps them as the
    list has them, which is one of the orders the store may answer with.
    What depends on the order among equal points is stated over every
    answer, [Policy.leaderboard_rows]. *)
Definition order_total_points_desc (t : list profiles.Row) : list profiles.Row :=
  fold_right insert_desc [] t.

(** [.limit(n)] *)
Definition limit (A : Type) (n : nat) (rows : list A) : list A := firstn n rows.

(** [data.map((profile, index) => ({ ...profile, rank: index + 1 }))] *)
Fixpoint rank_from (index : Z) (data : list profiles.Row) : list LeaderboardUser :=
  match data with
  | [] => []
  | profile :: rest =>
    mkLeaderboardUser (profiles.user_id profile) (profiles.username profile)
      (profiles.total_points profile) (profiles.total_lessons_completed profile)
      (profiles.current_streak profile) (index + 1)
    :: rank_from (index + 1) rest
  end.

(** [fetchLeaderboard]: the value handed to [setLeaderboard], from the
    rows of [profiles] that the query can see, [t]: those that row-level
    security lets the caller read, [Policy.select_profiles]. *)
Definition fetchLeaderboard (t : list profiles.Row) : list LeaderboardUser :=
  let data := limit 50 (order_total_points_desc t) in
  rank_from 0 data.




(** One entry has at least the points of another, in the order of the query. *)
Definition ge_points (a b : LeaderboardUser) : Prop :=
  points_ge (total_points a) (total_points b) = true.

Definition row_ge_points (a b : profiles.Row) : Prop :=
  points_ge (profiles.total_points a) (profiles.total_points b) = true.

Section UserStats.

(** [new Date(ts).toLocaleDateString()]: the calendar day of an instant, as
    the locale writes it. *)
Variable toLocaleDateString : timestamptz -> jsstring.

(** [new Date(s).getTime()] for a date string [s]: the time value that the
    engine's parser reads out of the string, or NaN, here [None], for a
    string it does not parse.  The parser is the engine's own; nothing
    makes it read a string the way the locale of [toLocaleDateString]
    wrote it. *)
Variable getTime : jsstring -> option Z.

(** A [Record<string, number>], as the list of its entries in insertion
    order.  The keys here are date strings, never array indices, so
    [Object.entries] lists them in that order. *)
Definition Counts := list (jsstring * Z).

(** [m[k] || 0] *)
Fixpoint lookup0 (k : jsstring) (m : Counts) : Z :=
  match m with
  | [] => 0
  | (k', v) :: m' => if streq k' k then v else lookup0 k m'
  end.

(** [m[k] = v] *)
Fixpoint assign (k : jsstring) (v : Z) (m : Counts) : Counts :=
  match m with
  | [] => [(k, v)]
  | (k', v') :: m' => if streq k' k then (k', v) :: m' else (k', v') :: assign k v m'
  end.

(** One turn of the [forEach], on [dateMap]. *)
Definition count_day (dateMap : Counts) (progress : user_progress.Row) : Counts :=
  let date := toLocaleDateString (user_progress.completed_at progress) in
  assign date (lookup0 date dateMap + 1) dateMap.

Definition dateMap_of (progressData : list user_progress.Row) : Counts :=
  fold_left count_day progressData [].

(** [(a, b) => new Date(a.date).getTime() - new Date(b.date).getTime()];
    a difference with NaN is NaN. *)
Definition compare_dates (a b : jsstring * Z) : option Z :=
  match getTime (fst a), getTime (fst b) with
  | Some x, Some y => Some (x - y)%Z
  | _, _ => None
  end.

(** How [Array.prototype.sort] reads the answer of its comparator: NaN
    counts as +0. *)
Definition sort_compare (a b : jsstring * Z) : Z :=
  match compare_dates a b with
  | Some v => v
  | None => 0%Z
  end.

Fixpoint insert_sorted (x : jsstring * Z) (sorted : list (jsstring * Z)) :=
  match sorted with
  | [] => [x]
  | h :: t =>
    if (sort_compare x h <=? 0)%Z then x :: h :: t else h :: insert_sorted x t
  end.

(** [Array.prototype.sort] with that comparator.  The sort is stable, so
    when every date string parses the result is this one: ascending by
    time value, equal ones in their order.  When a string does not parse,
    the comparator is not consistent and the language leaves the order to
    the engine; the insertion here is then one of the orders. *)
Definition sort_by_date (l : list (jsstring * Z)) := fold_right insert_sorted [] l.

(** [a.slice(-n)] *)
Definition slice_last (A : Type) (n : nat) (a : list A) : list A :=
  skipn (List.length a - n) a.

(** [progressOverTime] of [fetchUserStats]: entries [(date, lessons)]. *)
Definition progressOverTime (progressData : list user_progress.Row)
  : list (jsstring * Z) :=
  slice_last 7 (sort_by_date (dateMap_of progressData)).

(** The completions of a history that fall on a given day. *)
Definition completions_on (date : jsstring) (progressData : list user_progress.Row) : Z :=
  Z.of_nat (List.length
    (filter (fun p => streq (toLocaleDateString (user_progress.completed_at p)) date)
            progressData)).

End UserStats.

End Leaderboard.

(* ================================================================= *)
(** ** Row-level security and the leaderboard query *)

Module Policy.

(** [profiles] has row-level security enabled and one policy for SELECT,
    'Users can view their own profile', [USING (auth.uid() = user_id)]:
    of the table a query sees the rows of the caller.  [caller] is
    [auth.uid()], [None] for a request without a session. *)
Definition select_profiles (caller : option uuid) (t : list profiles.Row)
  : list profiles.Row :=
  match caller with
  | Some uid => filter (fun r => streq (profiles.user_id r) uid) t
  | None => []
  end.

(** What the store may answer to
    [.order('total_points', { ascending: false }).limit(limit_)]: the rows
    the policy lets through, in descending order of points, in any order
    among rows of equal points, cut to the first [limit_]. *)
Definition leaderboard_rows (limit_ : nat) (caller : option uuid)
    (t : list profiles.Row) (data : list profiles.Row) : Prop :=
  exists sorted,
    Permutation sorted (select_profiles caller t)
    /\ StronglySorted Leaderboard.row_ge_points sorted
    /\ data = Leaderboard.limit limit_ sorted.

(** An answer to the query with that limit, mapped to its ranks. *)
Definition shows_with (limit_ : nat) (caller : option uuid)
    (t : list profiles.Row) (leaderboard : list Leaderboard.LeaderboardUser)
  : Prop :=
  exists data,
    leaderboard_rows limit_ caller t data
    /\ leaderboard = Leaderboard.rank_from 0 data.

(** What the page may show to a caller: [fetchLeaderboard] asks with
    [.limit(50)]. *)
Definition shows (caller : option uuid) (t : list profiles.Row)
    (leaderboard : list Leaderboard.LeaderboardUser) : Prop :=
  shows_with 50 caller t leaderboard.

End Policy.

(* ================================================================= *)
(** ** Badges *)

Module Badges.

(** Modelled from the spec: a completion of the history with the track
    (language) of its lesson, as the evaluator reads it. *)
Record Completion := mkCompletion {
  progress : user_progress.Row;
  track : jsstring
}.

(** Modelled from the spec: what the evaluator reads, the profile, the
    history, and how many lessons each track holds. *)
Record Statistics := mkStatistics {
  profile : profiles.Row;
  history : list Completion;
  track_size : jsstring -> Z
}.

Fixpoint dedup (l : list uuid) : list uuid :=
  match l with
  | [] => []
  | x :: t => if existsb (streq x) t then dedup t else x :: dedup t
  end.

Definition distinct_completed (s : Statistics) (lang : jsstring) : Z :=
  Z.of_nat (List.length (dedup
    (map (fun c => user_progress.lesson_id (progress c))
       (filter (fun c => streq (track c) lang) (history s))))).

(** The enum [programming_language] of the schema. *)
Definition programming_language : list jsstring :=
  [lit "python"; lit "javascript"; lit "java"; lit "cpp"; lit "go"; lit "rust"].

(** Modelled from the spec: the type-specific predicates of the badge
    evaluator, which the repository does not contain.  A badge without a
    threshold is not earned through a threshold predicate. *)
Definition satisfied (b : badges.Row) (s : Statistics) : bool :=
  match badges.type_of b, badges.requirement_value b with
  | badges.first_debug, _ =>
    (1 <=? or0 (profiles.total_lessons_completed (profile s)))%Z
  | badges.consecutive_solves, Some v =>
    (v <=? or0 (profiles.current_streak (profile s)))%Z
  | badges.language_master, _ =>
    existsb (fun lang => (track_size s lang <=? distinct_completed s lang)%Z)
            programming_language
  | badges.speed_demon, Some v =>
    existsb (fun c => match user_progress.time_taken (progress c) with
                      | Some t => (t <=? v)%Z
                      | None => false
                      end) (history s)
  | badges.accuracy_ace, Some v =>
    (v <=? Z.of_nat (List.length
             (filter (fun c => (or0 (user_progress.hints_used (progress c)) =? 0)%Z)
                     (history s))))%Z
  | _, None => false
  end.

(** The pair that [UNIQUE(user_id, badge_id)] of [user_badges] speaks of. *)
Definition is_pair (u b : uuid) (r : user_badges.Row) : bool :=
  streq (user_badges.user_id r) u && streq (user_badges.badge_id r) b.

Definition owns (u b : uuid) (t : list user_badges.Row) : bool :=
  existsb (is_pair u b) t.

Definition count_pair (u b : uuid) (t : list user_badges.Row) : nat :=
  List.length (filter (is_pair u b) t).

(** An insert into [user_badges], which the policy 'System can insert user
    badges' allows and [UNIQUE(user_id, badge_id)] guards: the row is
    appended with the defaults for [id] and [earned_at], unless the pair has
    a row, in which case the table is left as it is and the answer carries
    the violation. *)
Definition insert_user_badges (d : Defaults) (u b : uuid)
    (t : list user_badges.Row) : list user_badges.Row * Response unit :=
  if owns u b t
  then (t, mkResponse None (Some unique_violation))
  else (t ++ [user_badges.mkRow b (now d) (gen_random_uuid d) u],
        mkResponse None None).

(** Modelled from the spec: [grantBadge(user, badge)] of the badge store,
    which the repository does not contain: the insert into [user_badges],
    for which a duplicate grant is a no-op and not an error. *)
Definition grantBadge (d : Defaults) (u b : uuid) (t : list user_badges.Row)
  : list user_badges.Row :=
  fst (insert_user_badges d u b t).

(** Modelled from the spec: the evaluator's turn for one badge of the
    catalogue, which the repository does not contain.  A badge the user
    owns is skipped; one whose predicate holds is granted and counted as
    newly earned. *)
Definition evaluate_one (d : Defaults) (u : uuid) (s : Statistics)
    (acc : list badges.Row * list user_badges.Row) (b : badges.Row) :=
  let '(earned, t) := acc in
  if owns u (badges.id b) t then (earned, t)
  else if satisfied b s then (earned ++ [b], grantBadge d u (badges.id b) t)
  else (earned, t).

(** Modelled from the spec: [evaluateBadges] of the badge evaluator, which
    the repository does not contain: every badge of the catalogue in turn;
    the result is the badges newly earned and the table afterwards. *)
Definition evaluateBadges (d : Defaults) (u : uuid) (s : Statistics)
    (catalogue : list badges.Row) (t : list user_badges.Row)
  : list badges.Row * list user_badges.Row :=
  fold_left (evaluate_one d u s) catalogue ([], t).

(** Modelled from the spec: the evaluation run again and again on
    unchanged statistics, once per element of [ds]. *)
Fixpoint evaluate_repeatedly (ds : list Defaults) (u : uuid) (s : Statistics)
    (catalogue : list badges.Row) (t : list user_badges.Row)
  : list user_badges.Row :=
  match ds with
  | [] => t
  | d :: ds' =>
    evaluate_repeatedly ds' u s catalogue (snd (evaluateBadges d u s catalogue t))
  end.

(** The constraint [UNIQUE(user_id, badge_id)] on a table. *)
Definition unique_pairs (t : list user_badges.Row) : Prop :=
  forall u b, (count_pair u b t <= 1)%nat.

End Badges.

(* ================================================================= *)
(** ** Rows of the migration, and sample rows for worked cases *)

Module Seed.

Import Challenge.
Local Open Scope Z_scope.

Definition lines (l : list jsstring) : jsstring :=
  match l with
  | [] => []
  | x :: t => x ++ flat_map (fun y => LF :: y) t
  end.

(** 'Off-by-One Error in Loop' *)
Definition off_by_one : Lesson :=
  mkLesson (lit "lesson-1") off_by_one_title python (lit "easy")
    (lit "Fix the loop so it prints numbers 1 through 5, not 1 through 6.")
    (lines [lit "for i in range(1, 7):"; lit "    print(i)"])
    (lines [lit "1"; lit "2"; lit "3"; lit "4"; lit "5"])
    (Some [lit "Check the upper bound of Python's range function.";
           lit "Remember that the stop value in range() is exclusive."])
    10.

(** 'Variable Scope Issue' *)
Definition variable_scope : Lesson :=
  mkLesson (lit "lesson-2") (lit "Variable Scope Issue") python (lit "medium")
    (lit "Fix the function so it correctly returns the doubled value.")
    (lines [lit "def double_number(x):"; lit "    result = x * 2";
            lit "def get_result():"; lit "    return result"; [];
            lit "print(get_result())"])
    (lit "20")
    (Some [lit "Look at where variables are defined.";
           lit "Functions have their own scope.";
           lit "The result variable is not accessible outside the function."])
    15.

(** 'Memory Leak' *)
Definition memory_leak : Lesson :=
  mkLesson (lit "lesson-6") (lit "Memory Leak") (lit "cpp") (lit "hard")
    (lit "Fix the memory management issue.")
    (lines [lit "#include <iostream>"; lit "using namespace std;"; [];
            lit "int main() {"; lit "    int* ptr = new int(42);";
            lit "    cout << *ptr << endl;"; lit "    return 0;"; lit "}"])
    (lit "42")
    (Some [lit "Allocated memory should be freed.";
           lit "Use delete to free memory."])
    25.

(** 'Array Index Error' *)
Definition array_index_error : Lesson :=
  mkLesson (lit "lesson-5") (lit "Array Index Error") (lit "java") (lit "easy")
    (lit "Fix the array access to prevent index out of bounds.")
    (lines [lit "public class Main {";
            lit "    public static void main(String[] args) {";
            lit "        int[] numbers = {1, 2, 3, 4, 5};";
            lit "        for (int i = 0; i <= numbers.length; i++) {";
            lit "            System.out.println(numbers[i]);";
            lit "        }"; lit "    }"; lit "}"])
    (lines [lit "1"; lit "2"; lit "3"; lit "4"; lit "5"])
    (Some [lit "Check the loop condition.";
           lit "Array indices start at 0 and end at length-1."])
    10.

(** A lesson whose expected output ends with a line feed. *)
Definition trailing_newline : Lesson :=
  mkLesson (lit "lesson-7") (lit "Trailing Newline") (lit "go") (lit "easy")
    (lit "Print 42.") (lit "fmt.Print(41)") (lit "42" ++ [LF]) None 10.

(** The state a lesson is opened in. *)
Definition opened (l : Lesson) : State :=
  openLesson l (mkState [off_by_one; variable_scope] None [] [] [] false 0 false).

(** 'Streak Master' and 'First Debug' *)
Definition streak_master : badges.Row :=
  badges.mkRow badges.consecutive_solves 0 (lit "Solve 10 challenges in a row")
    None (lit "badge-2") (lit "Streak Master") (Some 10).

Definition first_debug : badges.Row :=
  badges.mkRow badges.first_debug 0 (lit "Complete your first debugging challenge")
    None (lit "badge-1") (lit "First Debug") (Some 1).

Definition alice : uuid := lit "user-alice".
Definition bob : uuid := lit "user-bob".

(** A profile as the sign-up trigger creates it, then with its counters set. *)
Definition profile_of (u : uuid) (created : timestamptz)
    (completed pts streak best : Z) : profiles.Row :=
  profiles.mkRow None (Some best) created (Some streak) (lit "p-" ++ u)
    (Some completed) (Some pts) created u None.

Definition today : Defaults := mkDefaults (lit "fresh-uuid") 1000.

(** Alice with a streak of 9, and no completion recorded. *)
Definition store_streak9 : Store :=
  mkStore [profile_of alice 10 4 60 9 9; profile_of bob 20 1 10 1 1] [].

(** Alice has completed 'Variable Scope Issue' before, in 3 attempts with 1 hint. *)
Definition store_completed : Store :=
  mkStore [profile_of alice 10 4 60 2 5]
    [user_progress.mkRow (Some 3) 500 (Some 1) (lit "progress-1")
       (id variable_scope) None alice].

(** Two profiles of 100 points; Alice signed up first, and the table holds
    Bob's row first. *)
Definition tied_profiles : list profiles.Row :=
  [profile_of bob 20 8 100 1 1; profile_of alice 10 7 100 1 1].

(** Alice's statistics for the badge evaluator: four completions on the
    profile, a streak of 9, and tracks of two lessons. *)
Definition alice_statistics : Badges.Statistics :=
  Badges.mkStatistics (profile_of alice 10 4 60 9 9) [] (fun _ => 2).

(** Bob has a profile, Alice has none. *)
Definition store_no_profile : Store :=
  mkStore [profile_of bob 20 1 10 1 1] [].

(** Alice holds 2147483640 points, 7 short of the largest INTEGER. *)
Definition store_at_limit : Store :=
  mkStore [profile_of alice 10 4 2147483640 9 9] [].

(** Bob leads with 100 points, Alice has 10. *)
Definition bob_leads : list profiles.Row :=
  [profile_of bob 20 8 100 1 1; profile_of alice 10 1 10 1 1].

End Seed.

(* ================================================================= *)
(** ** The Challenge page: sessions, the catalogue and moving on *)

Module lessons.
Record Row := mkRow {
  created_at : timestamptz;
  description : jsstring;
  difficulty : jsstring;
  expected_output : jsstring;
  hints : option (list jsstring);
  id : uuid;
  language : jsstring;
  order_index : Z;
  points : option Z;
  starter_code : jsstring;
  title : jsstring
}.
End lessons.

Module Session.

Import Challenge.

Local Open Scope Z_scope.

Definition setIsFirstChallenge (b : bool) (st : State) : State :=
  mkState (lessons st) (currentLesson st) (code st) (output st) (showHints st)
          (isRunning st) (attempts st) b.

Definition setLessons (ls : list Lesson) (st : State) : State :=
  mkState ls (currentLesson st) (code st) (output st) (showHints st)
          (isRunning st) (attempts st) (isFirstChallenge st).

(** [.eq('user_id', u)] on [user_progress]. *)
Definition progress_eq_user_id (u : uuid) (t : list user_progress.Row) :=
  filter (fun r => streq (user_progress.user_id r) u) t.


(** A row of [lessons] as the page reads it through [interface Lesson].  A
    null [points] adds nothing where the page adds it to a total. *)
Definition as_lesson (r : lessons.Row) : Lesson :=
  mkLesson (lessons.id r) (lessons.title r) (lessons.language r)
    (lessons.difficulty r) (lessons.description r) (lessons.starter_code r)
    (lessons.expected_output r) (lessons.hints r) (or0 (lessons.points r)).

Fixpoint insert_by_order (r : lessons.Row) (sorted : list lessons.Row)
  : list lessons.Row :=
  match sorted with
  | [] => [r]
  | h :: t =>
    if lessons.order_index r <=? lessons.order_index h then r :: h :: t
    else h :: insert_by_order r t
  end.

(** [.from('lessons').select('*').eq('language', selectedLanguage)
    .order('order_index')] *)
Definition lessons_of_language (selectedLanguage : jsstring)
    (t : list lessons.Row) : list lessons.Row :=
  fold_right insert_by_order []
    (filter (fun r => streq (lessons.language r) selectedLanguage) t).

(** [fetchLessons] when the query answers: the lessons of the language are
    set, and the first one becomes current only if no lesson is current. *)
Definition fetchLessons (selectedLanguage : jsstring) (t : list lessons.Row)
    (st : State) : State :=
  let data := map as_lesson (lessons_of_language selectedLanguage t) in
  let st1 := setLessons data st in
  match data, currentLesson st with
  | first :: _, None => openLesson first st1
  | _, _ => st1
  end.

(** [a.findIndex(p)], -1 when no element satisfies [p]. *)
Fixpoint findIndex_from (A : Type) (i : Z) (p : A -> bool) (a : list A) : Z :=
  match a with
  | [] => -1
  | x :: t => if p x then i else findIndex_from (i + 1) p t
  end.

Definition findIndex (A : Type) (p : A -> bool) (a : list A) : Z :=
  findIndex_from 0 p a.

(** What the timer of a passed check does. *)
Inductive Moved :=
| moved_to (l : Lesson)
| toastAllCompleted.       (* 'All challenges completed!' *)

(** The callback of the 1500 ms timer of a passed check.  It reads
    [lessons] and [currentLesson] of the render that ran the check, here
    [seen], and hands [lessons[currentIndex + 1]] to [setCurrentLesson].
    The effect on [currentLesson] opens the lesson afresh when the state
    changes, that is, unless the object handed over is the very object the
    state holds by then.  The values of the model do not tell one object
    from another of the same content (two fetches give two), so whether it
    is that object is an argument, [already_current]. *)
Definition moveOn (already_current : bool) (seen st : State)
  : State * option Moved :=
  match currentLesson seen with
  | None => (st, None)
  | Some current =>
    let currentIndex :=
      findIndex (fun l => streq (id l) (id current)) (lessons seen) in
    if currentIndex <? Z.of_nat (List.length (lessons seen)) - 1 then
      match nth_error (lessons seen) (Z.to_nat (currentIndex + 1)) with
      | Some next =>
        (if already_current then st else openLesson next st,
         Some (moved_to next))
      | None => (st, None)
      end
    else (st, Some toastAllCompleted)
  end.

(** What the user does on the page between two lessons. *)
Inductive Action :=
| Edit (c : jsstring)      (* the editor's [onChange] *)
| Run                      (* 'Run Code', after its timer *)
| Check                    (* 'Check Solution' *)
| Hint (index : nat)       (* 'Show Hint' *)
| Reset.                   (* 'Reset' *)

Definition step (a : Action) (st : State) : State * list Effect :=
  match a with
  | Edit c => (setCode c st, [])
  | Run => (runCode st, [])
  | Check => checkSolution st
  | Hint index => (showHint index st, [])
  | Reset => (resetCode st, [])
  end.

(** A sequence of actions: the last state and all effects, in order. *)
Fixpoint run (acts : list Action) (st : State) : State * list Effect :=
  match acts with
  | [] => (st, [])
  | a :: rest =>
    let '(st1, e1) := step a st in
    let '(st2, e2) := run rest st1 in
    (st2, e1 ++ e2)
  end.

(** The attempt counter that a sequence of actions leaves, from [n]. *)
Fixpoint attempts_after (n : Z) (acts : list Action) : Z :=
  match acts with
  | [] => n
  | Check :: rest => attempts_after (n + 1) rest
  | Reset :: rest => attempts_after 0 rest
  | _ :: rest => attempts_after n rest
  end.

(** The attempt counts with which [saveProgress] was called. *)
Fixpoint saved_counts (es : list Effect) : list Z :=
  match es with
  | [] => []
  | callSaveProgress n :: rest => n :: saved_counts rest
  | _ :: rest => saved_counts rest
  end.

(** The number of slots that show a hint. *)
Definition shown (a : list bool) : Z :=
  Z.of_nat (List.length (filter (fun b => b) a)).

End Session.

(* ================================================================= *)
(** ** Scoring over several completions, and signing up *)

Module Scoring.

Import Challenge.

Local Open Scope Z_scope.


(** [UNIQUE(user_id, lesson_id)] on [user_progress]. *)
Definition unique_progress (t : list user_progress.Row) : Prop :=
  forall u l, (List.length (filter (Query.same_pair u l) t) <= 1)%nat.

(** [UNIQUE] on [profiles.user_id]. *)
Definition unique_users (t : list profiles.Row) : Prop :=
  forall u, (List.length (Query.profiles_eq_user_id u t) <= 1)%nat.

(** Some row holds the user name [name]. *)
Definition username_taken (name : jsstring) (t : list profiles.Row) : bool :=
  existsb (fun r => match profiles.username r with
                    | Some n => streq n name
                    | None => false
                    end) t.

(** The trigger function [handle_new_user], run for a new row of
    [auth.users] with id [new_id] and the user name of its metadata, null
    when it has none: [INSERT INTO public.profiles (user_id, username)],
    the other columns taking their defaults.  The insert is refused, [None],
    when [user_id] or a non-null [username] is taken. *)
Definition handle_new_user (d : Defaults) (new_id : uuid)
    (username : option jsstring) (t : list profiles.Row)
  : option (list profiles.Row) :=
  if existsb (fun r => streq (profiles.user_id r) new_id) t then None
  else if match username with
          | Some name => username_taken name t
          | None => false
          end then None
  else Some (t ++ [profiles.mkRow None (Some 0) (now d) (Some 0)
                     (gen_random_uuid d) (Some 0) (Some 0) (now d)
                     new_id username]).

End Scoring.

(* ================================================================= *)
(** ** The Leaderboard page: rank icons and the tallies of the statistics *)

Module Stats.

Import Leaderboard.

Local Open Scope Z_scope.

(** What [getRankIcon] renders. *)
Inductive RankIcon :=
| Trophy
| Medal
| Award
| Number (rank : Z).       (* '#rank' *)

(** [getRankIcon] *)
Definition getRankIcon (rank : Z) : RankIcon :=
  if rank =? 1 then Trophy
  else if rank =? 2 then Medal
  else if rank =? 3 then Award
  else Number rank.

(** [m[k] = (m[k] || 0) + 1] on a table of counts.  The keys are names of
    languages and difficulties and date strings, none of them a property
    that every object has. *)
Definition bump (k : jsstring) (m : Counts) : Counts :=
  assign k (lookup0 k m + 1) m.

(** The sum of the counts of a table. *)
Fixpoint total (m : list (jsstring * Z)) : Z :=
  match m with
  | [] => 0
  | (_, v) :: m' => v + total m'
  end.

(** A row of [user_progress] with its embedded [lessons (language,
    difficulty)], null when no lesson is joined. *)
Record Progress := mkProgress {
  row : user_progress.Row;
  lessons : option (jsstring * jsstring)
}.

(** The embedding follows [lesson_id] to the row of [lessons] with that id. *)
Definition join_lessons (catalogue : list lessons.Row) (r : user_progress.Row)
  : Progress :=
  mkProgress r
    (option_map (fun l => (lessons.language l, lessons.difficulty l))
       (find (fun l => streq (lessons.id l) (user_progress.lesson_id r)) catalogue)).

(** The five accumulators of the [forEach] of [fetchUserStats]. *)
Record Tallies := mkTallies {
  languageCounts : Counts;
  difficultyCounts : Counts;
  dateMap : Counts;
  totalAttempts : Z;
  totalHints : Z
}.

Section Tally.

Variable toLocaleDateString : timestamptz -> jsstring.

(** One turn of the [forEach]. *)
Definition tally_one (acc : Tallies) (progress : Progress) : Tallies :=
  let date := toLocaleDateString (user_progress.completed_at (row progress)) in
  mkTallies
    (match lessons progress with
     | Some (language, _) => bump language (languageCounts acc)
     | None => languageCounts acc
     end)
    (match lessons progress with
     | Some (_, difficulty) => bump difficulty (difficultyCounts acc)
     | None => difficultyCounts acc
     end)
    (bump date (dateMap acc))
    (totalAttempts acc + or0 (user_progress.attempts (row progress)))
    (totalHints acc + or0 (user_progress.hints_used (row progress))).

Definition tallies (progressData : list Progress) : Tallies :=
  fold_left tally_one progressData (mkTallies [] [] [] 0 0).

End Tally.

(** The languages and the difficulties of the rows that have a lesson. *)
Definition languages_of (progressData : list Progress) : list jsstring :=
  flat_map (fun p => match lessons p with
                     | Some (language, _) => [language]
                     | None => []
                     end) progressData.

Definition difficulties_of (progressData : list Progress) : list jsstring :=
  flat_map (fun p => match lessons p with
                     | Some (_, difficulty) => [difficulty]
                     | None => []
                     end) progressData.

(** How often a key occurs in a list of keys. *)
Definition occurrences (k : jsstring) (keys : list jsstring) : Z :=
  Z.of_nat (List.length (filter (fun k' => streq k' k) keys)).

(** A table of counts is the tally of a list of keys: every key of the
    list once, with the number of its occurrences, which is at least 1, and
    no other key. *)
Definition tally_of (m : Counts) (keys : list jsstring) : Prop :=
  NoDup (map fst m)
  /\ (forall k n, In (k, n) m -> n = occurrences k keys /\ 1 <= n)
  /\ (forall k, In k (map fst m) <-> In k keys)
  /\ total m = Z.of_nat (List.length keys).

(** The keys of a list without repetition, each where it occurs first. *)
Fixpoint first_occurrences (keys : list jsstring) : list jsstring :=
  match keys with
  | [] => []
  | k :: rest => k :: filter (fun k' => negb (streq k k')) (first_occurrences rest)
  end.

(** [a + (x || 0)] over the rows, as [totalAttempts] and [totalHints] do. *)
Definition sum_or0 (f : user_progress.Row -> option Z) (progressData : list Progress)
  : Z :=
  fold_right (fun p s => or0 (f (row p)) + s) 0 progressData.

End Stats.

(* ================================================================= *)
(** ** The Profile page: progress per language and the user name *)

Module ProfilePage.

Import Leaderboard.

Local Open Scope Z_scope.

(** [interface LanguageProgress] *)
Record LanguageProgress := mkLanguageProgress {
  language : jsstring;
  completed : Z;
  total : Z
}.

(** [languageTotals]: the lessons counted per language. *)
Definition languageTotals (allLessons : list lessons.Row) : Counts :=
  fold_left (fun m lesson => Stats.bump (lessons.language lesson) m) allLessons [].

(** [progress.lessons?.language], undefined without a lesson. *)
Definition lang_of (progress : Stats.Progress) : option jsstring :=
  option_map fst (Stats.lessons progress).

(** One turn of the second [forEach]: [if (lang)] skips a missing and an
    empty language. *)
Definition count_completed (m : Counts) (progress : Stats.Progress) : Counts :=
  match lang_of progress with
  | Some (c :: lang) => Stats.bump (c :: lang) m
  | _ => m
  end.

(** [languageCompleted]: the completed lessons counted per language. *)
Definition languageCompleted (completedLessons : list Stats.Progress) : Counts :=
  fold_left count_completed completedLessons [].

(** The rows of one user with their lessons, as the second query of
    [fetchLanguageProgress] answers. *)
Definition completed_by (catalogue : list lessons.Row) (u : uuid)
    (t : list user_progress.Row) : list Stats.Progress :=
  map (Stats.join_lessons catalogue) (Session.progress_eq_user_id u t).

(** The entries of [fetchLanguageProgress] before their labels are made:
    one per key of [languageTotals], with [languageCompleted[lang] || 0]
    and [languageTotals[lang]]. *)
Definition progress_per_language (allLessons : list lessons.Row)
    (completedLessons : list Stats.Progress) : list LanguageProgress :=
  map (fun lang =>
         mkLanguageProgress lang
           (lookup0 lang (languageCompleted completedLessons))
           (lookup0 lang (languageTotals allLessons)))
      (map fst (languageTotals allLessons)).

Section Labels.

(** [String.prototype.toUpperCase] *)
Variable toUpperCase : jsstring -> jsstring.

(** [lang.charAt(0).toUpperCase() + lang.slice(1)] *)
Definition capitalize (lang : jsstring) : jsstring :=
  toUpperCase (firstn 1 lang) ++ skipn 1 lang.

(** [fetchLanguageProgress] when both queries answer: the value handed to
    [setLanguageProgress]. *)
Definition fetchLanguageProgress (allLessons : list lessons.Row)
    (completedLessons : list Stats.Progress) : list LanguageProgress :=
  map (fun e => mkLanguageProgress (capitalize (language e)) (completed e) (total e))
      (progress_per_language allLessons completedLessons).

End Labels.

(** The number of lessons of a language in the catalogue. *)
Definition lessons_in (lang : jsstring) (catalogue : list lessons.Row) : Z :=
  Z.of_nat (List.length
    (filter (fun l => streq (lessons.language l) lang) catalogue)).

(** The rows of a user whose lesson is of a language. *)
Definition completed_in (catalogue : list lessons.Row) (lang : jsstring)
    (u : uuid) (t : list user_progress.Row) : list user_progress.Row :=
  filter (fun r => match lang_of (Stats.join_lessons catalogue r) with
                   | Some k => streq k lang
                   | None => false
                   end)
         (Session.progress_eq_user_id u t).

(** The languages that the second [forEach] counts. *)
Definition completed_keys (completedLessons : list Stats.Progress) : list jsstring :=
  flat_map (fun p => match lang_of p with
                     | Some (c :: lang) => [c :: lang]
                     | _ => []
                     end) completedLessons.

(** What [saveProfile] shows. *)
Inductive Toast :=
| toastUpdated       (* 'Profile updated!' *)
| toastFailed.       (* 'Failed to update profile.' *)

Record SavedProfile := mkSavedProfile {
  profiles_after : list profiles.Row;
  toast : Toast;
  editing_after : bool
}.

(** Another user holds the user name [name]. *)
Definition taken_by_other (u : uuid) (name : jsstring) (t : list profiles.Row)
  : bool :=
  existsb (fun r => negb (streq (profiles.user_id r) u)
                    && match profiles.username r with
                       | Some n => streq n name
                       | None => false
                       end) t.

(** [.from('profiles').update({ username }).eq('user_id', u)] under
    [username TEXT UNIQUE]: refused when a row of the user would take a
    name that another row holds; otherwise every row of the user gets the
    name and the trigger's time stamp. *)
Definition update_username (d : Defaults) (u : uuid) (name : jsstring)
    (t : list profiles.Row) : list profiles.Row * Response unit :=
  if existsb (fun r => streq (profiles.user_id r) u) t && taken_by_other u name t
  then (t, mkResponse None (Some unique_violation))
  else (map (fun r =>
               if streq (profiles.user_id r) u
               then profiles.mkRow (profiles.avatar_url r) (profiles.best_streak r)
                      (profiles.created_at r) (profiles.current_streak r)
                      (profiles.id r) (profiles.total_lessons_completed r)
                      (profiles.total_points r) (now d) (profiles.user_id r)
                      (Some name)
               else r) t,
        mkResponse None None).

(** [saveProfile], for the signed-in user [u], the [username] typed and the
    [editing] flag: an error of the update is thrown and caught, with the
    failure toast; otherwise the success toast is shown and editing ends. *)
Definition saveProfile (user : option uuid) (username : jsstring) (editing : bool)
    (d : Defaults) (t : list profiles.Row) : option SavedProfile :=
  match user with
  | None => None
  | Some u =>
    let '(t', response) := update_username d u username t in
    match error response with
    | Some _ => Some (mkSavedProfile t' toastFailed editing)
    | None => Some (mkSavedProfile t' toastUpdated false)
    end
  end.

(** [UNIQUE] on [profiles.username]; null is not a name. *)
Definition unique_usernames (t : list profiles.Row) : Prop :=
  forall name,
    (List.length
       (filter (fun r => match profiles.username r with
                         | Some n => streq n name
                         | None => false
                         end) t) <= 1)%nat.

End ProfilePage.

(* ================================================================= *)
(** ** Sample rows of the catalogue *)

Module Cases.

Local Open Scope Z_scope.

Definition row_of (l : Challenge.Lesson) (order : Z) : lessons.Row :=
  lessons.mkRow 0 (Challenge.description l) (Challenge.difficulty l)
    (Challenge.expected_output l) (Challenge.hints l) (Challenge.id l)
    (Challenge.language l) order (Some (Challenge.points l))
    (Challenge.starter_code l) (Challenge.title l).

(** The lessons of the migration that [Seed] holds, in the order of their
    [order_index]. *)
Definition catalogue : list lessons.Row :=
  [row_of Seed.memory_leak 6; row_of Seed.variable_scope 2;
   row_of Seed.off_by_one 1].

(** The same with the Java lesson of the migration. *)
Definition catalogue_with_java : list lessons.Row :=
  row_of Seed.array_index_error 5 :: catalogue.

(** The loop of 'Off-by-One Error in Loop', corrected. *)
Definition corrected_loop : jsstring :=
  Seed.lines [lit "for i in range(1, 6):"; lit "    print(i)"].

(** The Python lesson is open with the loop corrected and has been run;
    the language is switched to Java, which changes the list and leaves
    the lesson; the check has passed and set its timer. *)
Definition python_passed : Challenge.State :=
  fst (Challenge.checkSolution
         (Session.fetchLessons (lit "java") catalogue_with_java
            (Challenge.runCode
               (Challenge.setCode corrected_loop (Seed.opened Seed.off_by_one))))).

(** A run that outlives its lesson.  On that page 'Run Code' is clicked
    once more; the timer of the check, set first, opens the first Java
    lesson; then the timer of the run fires. *)
Definition run_outlives_lesson : Challenge.State :=
  let at_check :=
    Session.fetchLessons (lit "java") catalogue_with_java
      (Challenge.runCode
         (Challenge.setCode corrected_loop (Seed.opened Seed.off_by_one))) in
  let clicked := Challenge.runCode_click python_passed in
  let moved := fst (Session.moveOn false at_check clicked) in
  Challenge.runCode_timer python_passed moved.

(** A stand-in for the locale: the date string of an instant is the number
    of its day, as one code unit, and parses back to the start of that day. *)
Definition day_string (ts : timestamptz) : jsstring := [Z.to_N (ts / 86400000)].

Definition day_start (s : jsstring) : option Z :=
  match s with
  | [c] => Some (Z.of_N c * 86400000)
  | _ => None
  end.

(** The calendar, for date strings as browsers write and read them.
    [days_from_civil] is the number of days from 1 January 1970 to a day of
    the Gregorian calendar, and [civil_from_days] the day of a number. *)
Definition days_from_civil (y m d : Z) : Z :=
  let y' := if m <=? 2 then y - 1 else y in
  let era := y' / 400 in
  let yoe := y' - era * 400 in
  let mp := (m + 9) mod 12 in
  let doy := (153 * mp + 2) / 5 + d - 1 in
  let doe := yoe * 365 + yoe / 4 - yoe / 100 + doy in
  era * 146097 + doe - 719468.

Definition civil_from_days (z : Z) : Z * Z * Z :=
  let z' := z + 719468 in
  let era := z' / 146097 in
  let doe := z' - era * 146097 in
  let yoe := (doe - doe / 1460 + doe / 36524 - doe / 146096) / 365 in
  let doy := doe - (365 * yoe + yoe / 4 - yoe / 100) in
  let mp := (5 * doy + 2) / 153 in
  let d := doy - (153 * mp + 2) / 5 + 1 in
  let m := if mp <? 10 then mp + 3 else mp - 9 in
  let y := yoe + era * 400 in
  (if m <=? 2 then y + 1 else y, m, d).

Definition digit (n : Z) : char16 := Z.to_N (48 + n mod 10).
Definition two_digits (n : Z) : jsstring := [digit (n / 10); digit n].
Definition four_digits (n : Z) : jsstring :=
  [digit (n / 1000); digit (n / 100); digit (n / 10); digit n].
Definition one_or_two_digits (n : Z) : jsstring :=
  if n <? 10 then [digit n] else two_digits n.
Definition slash : char16 := 47%N.

(** Noon, universal time, of a day. *)
Definition noon (y m d : Z) : timestamptz :=
  days_from_civil y m d * 86400000 + 43200000.

(** The start of the universal-time day of an instant. *)
Definition midnight (ts : timestamptz) : Z := ts / 86400000 * 86400000.

(** A stand-in for [toLocaleDateString] in a browser set to British
    English, in the time zone of universal time: day, month, year. *)
Definition en_GB_date (ts : timestamptz) : jsstring :=
  let '(y, m, d) := civil_from_days (ts / 86400000) in
  two_digits d ++ [slash] ++ two_digits m ++ [slash] ++ four_digits y.

(** The same in a browser set to American English: month, day, year, the
    month and the day without a leading zero. *)
Definition en_US_date (ts : timestamptz) : jsstring :=
  let '(y, m, d) := civil_from_days (ts / 86400000) in
  one_or_two_digits m ++ [slash] ++ one_or_two_digits d ++ [slash]
  ++ four_digits y.

Fixpoint read_number (acc : Z) (s : jsstring) : option Z :=
  match s with
  | [] => Some acc
  | c :: rest =>
    if (48 <=? c)%N && (c <=? 57)%N
    then read_number (acc * 10 + (Z.of_N c - 48)) rest
    else None
  end.

Fixpoint split_at_slash (field s : jsstring) : list jsstring :=
  match s with
  | [] => [rev field]
  | c :: rest =>
    if (c =? slash)%N then rev field :: split_at_slash [] rest
    else split_at_slash (c :: field) rest
  end.

(** A stand-in for [new Date(s).getTime()] as far as such date strings go:
    three numbers with slashes between them are read as month, day, year,
    at the start of that day, and as NaN where the first number is no month
    or the second no day of a month.  Strings of another shape do not
    occur here; they are given NaN as well. *)
Definition engine_parse (s : jsstring) : option Z :=
  match split_at_slash [] s with
  | [(_ :: _) as a; (_ :: _) as b; (_ :: _) as c] =>
    match read_number 0 a, read_number 0 b, read_number 0 c with
    | Some m, Some d, Some y =>
      if (1 <=? m) && (m <=? 12) && (1 <=? d) && (d <=? 31)
      then Some (days_from_civil y m d * 86400000)
      else None
    | _, _, _ => None
    end
  | _ => None
  end.

(** Two completions: on 2 February 2026 and on 1 March 2026. *)
Definition february_and_march : list user_progress.Row :=
  [user_progress.mkRow (Some 1) (noon 2026 2 2) (Some 0) (lit "progress-1")
     (Challenge.id Seed.off_by_one) None Seed.alice;
   user_progress.mkRow (Some 2) (noon 2026 3 1) (Some 0) (lit "progress-2")
     (Challenge.id Seed.variable_scope) None Seed.alice].

(** Three completions on two days. *)
Definition history : list user_progress.Row :=
  [user_progress.mkRow (Some 1) 90000000 (Some 0) (lit "progress-1")
     (Challenge.id Seed.off_by_one) None Seed.alice;
   user_progress.mkRow (Some 3) 100000 (Some 1) (lit "progress-2")
     (Challenge.id Seed.variable_scope) None Seed.alice;
   user_progress.mkRow (Some 2) 95000000 (Some 2) (lit "progress-3")
     (Challenge.id Seed.memory_leak) None Seed.alice].

End Cases.

(* ================================================================= *)
(** * Properties *)

(** ** Strings *)

Section StringFacts.

Lemma streq_refl (a : jsstring) : streq a a = true.
Proof.
  induction a as [|x a IH]; simpl; [reflexivity|].
  now rewrite N.eqb_refl.
Qed.

Lemma streq_eq (a b : jsstring) : streq a b = true <-> a = b.
Proof.
  split.
  - revert b; induction a as [|x a IH]; destruct b as [|y b]; simpl;
      try discriminate; [reflexivity|].
    intros H. apply andb_true_iff in H as [Hxy Hab].
    apply N.eqb_eq in Hxy. f_equal; auto.
  - intros ->. apply streq_refl.
Qed.

Lemma streq_neq (a b : jsstring) : streq a b = false <-> a <> b.
Proof.
  rewrite <- streq_eq. destruct (streq a b); split; congruence.
Qed.

Lemma streq_sym (a b : jsstring) : streq a b = streq b a.
Proof.
  destruct (streq a b) eqn:E.
  - apply streq_eq in E. subst. symmetry. apply streq_refl.
  - symmetry. apply streq_neq. apply streq_neq in E. congruence.
Qed.

(** What [trimStart] removes is white space, and what is left does not
    start with any. *)
Lemma trimStart_split (s : jsstring) :
  exists pre, s = pre ++ trimStart s /\ forallb isWhiteSpace pre = true.
Proof.
  induction s as [|c s [pre [E W]]]; simpl.
  - exists []. auto.
  - destruct (isWhiteSpace c) eqn:Hc.
    + exists (c :: pre). simpl. rewrite Hc, W. split; [congruence|reflexivity].
    + exists []. auto.
Qed.

Lemma trimStart_head (s t : jsstring) (c : char16) :
  trimStart s = c :: t -> isWhiteSpace c = false.
Proof.
  induction s as [|x s IH]; simpl; [discriminate|].
  destruct (isWhiteSpace x) eqn:Hx; [exact IH|].
  intros H. injection H as -> _. exact Hx.
Qed.

Lemma trimStart_white (pre s : jsstring) :
  forallb isWhiteSpace pre = true -> trimStart (pre ++ s) = trimStart s.
Proof.
  induction pre as [|x pre IH]; simpl; [reflexivity|].
  intros H. apply andb_true_iff in H as [Hx Hp]. rewrite Hx. auto.
Qed.

Lemma trimStart_snoc (s : jsstring) (c : char16) :
  isWhiteSpace c = false -> trimStart (s ++ [c]) = trimStart s ++ [c].
Proof.
  intros Hc. induction s as [|x s IH]; simpl.
  - now rewrite Hc.
  - destruct (isWhiteSpace x); [exact IH|reflexivity].
Qed.

Lemma trimEnd_cons (c : char16) (s : jsstring) :
  isWhiteSpace c = false -> trimEnd (c :: s) = c :: trimEnd s.
Proof.
  intros Hc. unfold trimEnd. simpl.
  rewrite trimStart_snoc by exact Hc. rewrite rev_app_distr. reflexivity.
Qed.

Lemma trimEnd_snoc (s : jsstring) (c : char16) :
  isWhiteSpace c = false -> trimEnd (s ++ [c]) = s ++ [c].
Proof.
  intros Hc. unfold trimEnd. rewrite rev_app_distr. simpl. rewrite Hc.
  simpl. now rewrite rev_involutive.
Qed.

Lemma trimEnd_last (s t : jsstring) (c : char16) :
  trimEnd s = t ++ [c] -> isWhiteSpace c = false.
Proof.
  unfold trimEnd. intros H.
  apply (f_equal (@rev char16)) in H.
  rewrite rev_involutive, rev_app_distr in H. simpl in H.
  eapply trimStart_head; exact H.
Qed.

Lemma trimEnd_split (s : jsstring) :
  exists post, s = trimEnd s ++ post /\ forallb isWhiteSpace post = true.
Proof.
  destruct (trimStart_split (rev s)) as [pre [E W]].
  exists (rev pre). split.
  - unfold trimEnd. rewrite <- rev_app_distr, <- E. now rewrite rev_involutive.
  - rewrite forallb_forall in *. intros x Hx. apply W. now apply in_rev.
Qed.

Lemma trimEnd_white (s post : jsstring) :
  forallb isWhiteSpace post = true -> trimEnd (s ++ post) = trimEnd s.
Proof.
  intros W. unfold trimEnd. rewrite rev_app_distr. f_equal.
  apply trimStart_white.
  rewrite forallb_forall in *. intros x Hx. apply W. now apply in_rev.
Qed.

Lemma trim_trimmed (s : jsstring) : trimmed (trim s).
Proof.
  unfold trim. split.
  - intros c r H. destruct (trimStart s) as [|x u] eqn:E.
    + discriminate H.
    + assert (Hx : isWhiteSpace x = false) by (eapply trimStart_head; exact E).
      rewrite trimEnd_cons in H by exact Hx. injection H as <- _. exact Hx.
  - intros r c H. eapply trimEnd_last; exact H.
Qed.

Lemma trimmed_fixed (t : jsstring) : trimmed t -> trim t = t.
Proof.
  intros [Hh Hl]. unfold trim.
  assert (E : trimStart t = t).
  { destruct t as [|c r]; [reflexivity|]. simpl. now rewrite (Hh c r eq_refl). }
  rewrite E.
  destruct t as [|x u] using rev_ind; [reflexivity|].
  apply trimEnd_snoc. exact (Hl u x eq_refl).
Qed.

Lemma trimStart_all_white (s : jsstring) : white s -> trimStart s = [].
Proof.
  intros W. rewrite <- (app_nil_r s). now rewrite trimStart_white.
Qed.

(** [trim] gives the one trimmed string that the argument holds between two
    runs of white space. *)
Lemma trim_spec (s t : jsstring) :
  trim s = t
  <-> trimmed t /\ exists pre post, s = pre ++ t ++ post /\ white pre /\ white post.
Proof.
  split.
  - intros <-. split; [apply trim_trimmed|].
    destruct (trimStart_split s) as [pre [E W]].
    destruct (trimEnd_split (trimStart s)) as [post [E' W']].
    exists pre, post. unfold trim. now rewrite <- E', <- E.
  - intros [Ht (pre & post & -> & Wpre & Wpost)].
    unfold trim. rewrite trimStart_white by exact Wpre.
    destruct t as [|c r].
    + simpl. now rewrite trimStart_all_white.
    + assert (Hc : isWhiteSpace c = false) by (apply (proj1 Ht c r eq_refl)).
      simpl. rewrite Hc. change (c :: r ++ post) with ((c :: r) ++ post).
      rewrite trimEnd_white by exact Wpost.
      rewrite <- (trimmed_fixed Ht) at 2. unfold trim. simpl. now rewrite Hc.
Qed.

End StringFacts.

(** ** Checking a solution *)

Section CheckSolution.

Import Challenge.

(** Goes through the three branches of [checkSolution] for the lesson
    given by [H]. *)
Ltac by_branches H :=
  unfold checkSolution; rewrite H;
  destruct (streq _ _); simpl;
  [ first [reflexivity | destruct (isFirstChallenge _); reflexivity]
  | first [reflexivity | destruct (_ && _); reflexivity] ].

Lemma save_called_iff (st : State) (l : Lesson) :
  currentLesson st = Some l ->
  existsb is_save (snd (checkSolution st))
  = streq (trim (output st)) (trim (expected_output l)).
Proof. intros H. by_branches H. Qed.

Lemma verdict_pass (st : State) (l : Lesson) :
  currentLesson st = Some l ->
  verdict (checkSolution st) = Pass
  <-> trim (output st) = trim (expected_output l).
Proof.
  intros H. unfold verdict. rewrite (save_called_iff st H).
  rewrite <- streq_eq. destruct (streq _ _); split; congruence.
Qed.

Lemma verdict_fail (st : State) (l : Lesson) :
  currentLesson st = Some l ->
  verdict (checkSolution st) = Fail
  <-> trim (output st) <> trim (expected_output l).
Proof.
  intros H. unfold verdict. rewrite (save_called_iff st H).
  rewrite <- streq_neq. destruct (streq _ _); split; congruence.
Qed.

Lemma hint_toast_iff (st : State) (l : Lesson) :
  currentLesson st = Some l ->
  auto_revealed (checkSolution st)
  = negb (streq (trim (output st)) (trim (expected_output l)))
    && ((attempts st + 1 =? 2)%Z && has_hints l).
Proof. intros H. unfold auto_revealed. by_branches H. Qed.

Lemma array_get_set_same (a : list bool) : array_get 0 (array_set 0 true a) = true.
Proof. destruct a; reflexivity. Qed.

Lemma array_get_set_other (a : list bool) (i : nat) :
  i <> 0%nat -> array_get i (array_set 0 true a) = array_get i a.
Proof.
  intros Hi. destruct i as [|i]; [congruence|].
  destruct a; simpl; [now destruct i|reflexivity].
Qed.

(** C1.  With a lesson open, the check passes exactly when the output and
    the lesson's expected output are equal once both are trimmed, that is,
    when they hold the same trimmed string between leading and trailing
    white space; an empty output passes exactly when the expected output
    trims to the empty string. *)
Theorem checkSolution_verdict (st : State) (l : Lesson) :
  currentLesson st = Some l ->
  (verdict (checkSolution st) = Pass
   <-> trim (output st) = trim (expected_output l))
  /\ (verdict (checkSolution st) = Pass
      <-> exists core pre post pre' post',
            trimmed core
            /\ white pre /\ white post /\ white pre' /\ white post'
            /\ output st = pre ++ core ++ post
            /\ expected_output l = pre' ++ core ++ post')
  /\ (output st = [] ->
      (verdict (checkSolution st) = Pass <-> trim (expected_output l) = [])).
Proof.
  intros H. split; [exact (verdict_pass st H)|]. split.
  - rewrite (verdict_pass st H). split.
    + intros E.
      destruct (proj1 (trim_spec (output st) _) eq_refl)
        as [Ht (pre & post & Eo & Wpre & Wpost)].
      destruct (proj1 (trim_spec (expected_output l) _) eq_refl)
        as [_ (pre' & post' & Ee & Wpre' & Wpost')].
      exists (trim (output st)), pre, post, pre', post'.
      split; [exact Ht|]. do 4 (split; [assumption|]).
      split; [exact Eo|]. rewrite E. exact Ee.
    + intros (core & pre & post & pre' & post' & Ht & W1 & W2 & W3 & W4 & Eo & Ee).
      transitivity core; [|symmetry]; apply trim_spec; split; eauto.
  - intros E. rewrite (verdict_pass st H), E.
    change (trim []) with (@nil char16). split; congruence.
Qed.

Lemma checkSolution_verdict_witness :
  Challenge.currentLesson
    (Challenge.setOutput (lit " 20 ") (Seed.opened Seed.variable_scope))
  = Some Seed.variable_scope
  /\ Challenge.verdict
       (Challenge.checkSolution
          (Challenge.setOutput (lit " 20 ") (Seed.opened Seed.variable_scope)))
     = Challenge.Pass.
Proof.
  split; [reflexivity|].
  refine (proj2 (proj1 (@checkSolution_verdict
                          (Challenge.setOutput (lit " 20 ")
                             (Seed.opened Seed.variable_scope))
                          Seed.variable_scope eq_refl)) _).
  reflexivity.
Defined.

(** C5.  A check reveals hint 0 by itself exactly when it fails, the
    counter after the increment is 2 and the lesson has a hint.  Then slot
    0 is set and every other slot keeps its value; in every other case,
    among them every failure that is not the second attempt, the revealed
    hints are as before.  The counter goes up by one either way. *)
Theorem auto_hint_on_second_failure (st : State) (l : Lesson) :
  currentLesson st = Some l ->
  (auto_revealed (checkSolution st) = true
   <-> verdict (checkSolution st) = Fail
       /\ attempts (fst (checkSolution st)) = 2%Z
       /\ has_hints l = true)
  /\ (auto_revealed (checkSolution st) = true ->
      showHints (fst (checkSolution st)) = array_set 0 true (showHints st)
      /\ revealed (fst (checkSolution st)) 0 = true
      /\ forall i, i <> 0%nat ->
                   revealed (fst (checkSolution st)) i = revealed st i)
  /\ (auto_revealed (checkSolution st) = false ->
      showHints (fst (checkSolution st)) = showHints st)
  /\ (verdict (checkSolution st) = Fail ->
      attempts (fst (checkSolution st)) <> 2%Z ->
      auto_revealed (checkSolution st) = false
      /\ showHints (fst (checkSolution st)) = showHints st)
  /\ attempts (fst (checkSolution st)) = (attempts st + 1)%Z.
Proof.
  intros H.
  assert (Hatt : attempts (fst (checkSolution st)) = (attempts st + 1)%Z).
  { by_branches H. }
  assert (Hshow : showHints (fst (checkSolution st))
                  = if auto_revealed (checkSolution st)
                    then array_set 0 true (showHints st) else showHints st).
  { unfold auto_revealed. by_branches H. }
  assert (Hiff : auto_revealed (checkSolution st) = true
                 <-> verdict (checkSolution st) = Fail
                     /\ attempts (fst (checkSolution st)) = 2%Z
                     /\ has_hints l = true).
  { rewrite Hatt, (hint_toast_iff st H), (verdict_fail st H), <- streq_neq.
    rewrite !andb_true_iff, negb_true_iff, Z.eqb_eq. tauto. }
  split; [exact Hiff|].
  split.
  { intros E. unfold revealed. rewrite Hshow, E. split; [reflexivity|]. split.
    - apply array_get_set_same.
    - intros i Hi. now apply array_get_set_other. }
  split.
  { intros E. now rewrite Hshow, E. }
  split; [|exact Hatt].
  intros Hf Hn.
  destruct (auto_revealed (checkSolution st)) eqn:E.
  - destruct Hiff as [Hi _]. destruct (Hi eq_refl) as (_ & Htwo & _).
    contradiction.
  - split; [reflexivity|exact Hshow].
Qed.

End CheckSolution.

Lemma auto_hint_on_second_failure_witness :
  Challenge.currentLesson
    (Challenge.setAttempts 1
       (Challenge.setOutput Challenge.one_to_six (Seed.opened Seed.off_by_one)))
  = Some Seed.off_by_one
  /\ Challenge.revealed
       (fst (Challenge.checkSolution
               (Challenge.setAttempts 1
                  (Challenge.setOutput Challenge.one_to_six
                     (Seed.opened Seed.off_by_one))))) 0 = true.
Proof.
  split; [reflexivity|].
  destruct (@auto_hint_on_second_failure
              (Challenge.setAttempts 1
                 (Challenge.setOutput Challenge.one_to_six
                    (Seed.opened Seed.off_by_one)))
              Seed.off_by_one eq_refl) as (Hiff & Hreveal & _).
  apply Hreveal. apply Hiff.
  repeat split; vm_compute; reflexivity.
Defined.

(** ** The simulated run *)

Section SimulatedRun.

Import Challenge.

Lemma executed_prefix_head : exists r, executed_prefix = 67%N :: r.
Proof. eexists. reflexivity. Qed.

(** The output of the generic simulation is already trimmed, so trimming
    leaves the prefix in front of the expected output. *)
Lemma trim_executed (s : jsstring) :
  trim s <> [] -> trim (executed_prefix ++ trim s) = executed_prefix ++ trim s.
Proof.
  intros Hne. apply trimmed_fixed.
  destruct executed_prefix_head as [p Hp].
  destruct (trim_trimmed s) as [_ Hlast].
  split.
  - intros c r E. rewrite Hp in E. injection E as <- _. reflexivity.
  - intros r c E.
    destruct (trim s) as [|x u] using rev_ind; [congruence|].
    rewrite app_assoc in E. apply app_inj_tail in E as [_ ->].
    exact (Hlast u c eq_refl).
Qed.

Lemma executed_never_expected (s : jsstring) :
  trim s <> [] -> trim (executed_prefix ++ trim s) <> trim s.
Proof.
  intros Hne. rewrite (@trim_executed s Hne). intros E.
  apply (f_equal (@List.length char16)) in E.
  rewrite length_app in E.
  destruct executed_prefix_head as [p Hp]. rewrite Hp in E. simpl in E. lia.
Qed.

Lemma runCode_timer_generic (seen st : State) (l : Lesson) :
  currentLesson seen = Some l ->
  language l <> python \/ title l <> off_by_one_title ->
  runCode_timer seen st
  = setIsRunning false (setOutput (executed_prefix ++ trim (expected_output l)) st).
Proof.
  intros H Hg. unfold runCode_timer. rewrite H.
  replace (streq (language l) python && streq (title l) off_by_one_title)
    with false; [reflexivity|].
  symmetry. apply andb_false_iff.
  destruct Hg as [Hg|Hg]; [left|right]; now apply streq_neq.
Qed.

(** C10, as amended.  For a lesson that is not the Python lesson 'Off-by-One
    Error in Loop', a simulated run started on it sets the output, of
    whatever state its timer finds, to 'Code executed successfully!' and a
    line feed followed by the trimmed expected output, whatever the code
    is.  A check of that output passes exactly when, trimmed, it is the
    trimmed expected output of the lesson that is current by then; when the
    lesson the run started on is still the current one and its trimmed
    expected output is not empty, the check fails. *)
Theorem simulated_run_fails_own_lesson (seen st : State) (l : Lesson) :
  currentLesson seen = Some l ->
  language l <> python \/ title l <> off_by_one_title ->
  output (runCode_timer seen st) = executed_prefix ++ trim (expected_output l)
  /\ (forall c, output (runCode_timer (setCode c seen) st)
                = output (runCode_timer seen st))
  /\ (forall l', currentLesson st = Some l' ->
        (verdict (checkSolution (runCode_timer seen st)) = Pass
         <-> trim (executed_prefix ++ trim (expected_output l))
             = trim (expected_output l')))
  /\ (trim (expected_output l) <> [] ->
      currentLesson st = Some l ->
      verdict (checkSolution (runCode_timer seen st)) = Fail)
  /\ (trim (expected_output l) <> [] ->
      verdict (checkSolution (runCode seen)) = Fail).
Proof.
  intros H Hg.
  assert (Hout : forall st0, output (runCode_timer seen st0)
                             = executed_prefix ++ trim (expected_output l)).
  { intros st0. now rewrite (@runCode_timer_generic seen st0 l H Hg). }
  assert (Hcur : forall st0, currentLesson (runCode_timer seen st0)
                             = currentLesson st0).
  { intros st0. now rewrite (@runCode_timer_generic seen st0 l H Hg). }
  assert (Hown : forall st0, trim (expected_output l) <> [] ->
                   currentLesson st0 = Some l ->
                   verdict (checkSolution (runCode_timer seen st0)) = Fail).
  { intros st0 Hne Hl.
    assert (Hl' : currentLesson (runCode_timer seen st0) = Some l)
      by now rewrite Hcur.
    apply (verdict_fail _ Hl'). rewrite Hout.
    now apply executed_never_expected. }
  split; [apply Hout|]. split; [|split; [|split]].
  - intros c. rewrite Hout.
    now rewrite (@runCode_timer_generic (setCode c seen) st l H Hg).
  - intros l' Hl'.
    assert (Hl2 : currentLesson (runCode_timer seen st) = Some l')
      by now rewrite Hcur.
    rewrite (verdict_pass _ Hl2), Hout. reflexivity.
  - apply Hown.
  - intros Hne. unfold runCode. apply (Hown _ Hne). exact H.
Qed.

Lemma simulated_run_fails_own_lesson_witness :
  Challenge.verdict
    (Challenge.checkSolution
       (Challenge.runCode_timer (Seed.opened Seed.memory_leak)
          (Challenge.setCode (lit "delete ptr;")
             (Challenge.runCode_click (Seed.opened Seed.memory_leak)))))
  = Challenge.Fail.
Proof.
  assert (Hg : Challenge.language Seed.memory_leak <> Challenge.python
               \/ Challenge.title Seed.memory_leak <> Challenge.off_by_one_title)
    by (left; vm_compute; discriminate).
  destruct (@simulated_run_fails_own_lesson (Seed.opened Seed.memory_leak)
              (Challenge.setCode (lit "delete ptr;")
                 (Challenge.runCode_click (Seed.opened Seed.memory_leak)))
              Seed.memory_leak eq_refl Hg) as (_ & _ & _ & Hown & _).
  apply Hown; [vm_compute; discriminate|reflexivity].
Defined.

(** C10, as stated, fails, twice.  The run appends the trimmed expected
    output, not the expected output: for an expected output of '42' and a
    line feed the output ends in '42'.  And a lesson of the generic branch
    can be passed through the simulated run: a run started on the Python
    lesson with the loop corrected, whose timer fires after a passed check
    has opened the Java lesson 'Array Index Error', leaves the five lines
    that the Java lesson expects, and the check passes. *)
Lemma simulated_run_passes_other_lesson :
  (Challenge.language Seed.trailing_newline <> Challenge.python
   /\ Challenge.output (Challenge.runCode (Seed.opened Seed.trailing_newline))
      <> Challenge.executed_prefix
         ++ Challenge.expected_output Seed.trailing_newline)
  /\ (Challenge.verdict
        (Challenge.checkSolution
           (Session.fetchLessons (lit "java") Cases.catalogue_with_java
              (Challenge.runCode
                 (Challenge.setCode Cases.corrected_loop
                    (Seed.opened Seed.off_by_one)))))
      = Challenge.Pass
      /\ Challenge.currentLesson Cases.run_outlives_lesson
         = Some Seed.array_index_error
      /\ Challenge.language Seed.array_index_error <> Challenge.python
      /\ JS.trim (Challenge.expected_output Seed.array_index_error) <> []
      /\ Challenge.output Cases.run_outlives_lesson
         = Seed.lines [lit "1"; lit "2"; lit "3"; lit "4"; lit "5"]
      /\ Challenge.isRunning Cases.run_outlives_lesson = false
      /\ Challenge.verdict (Challenge.checkSolution Cases.run_outlives_lesson)
         = Challenge.Pass).
Proof.
  split; [split; vm_compute; discriminate|].
  split; [reflexivity|]. split; [reflexivity|].
  split; [vm_compute; discriminate|]. split; [vm_compute; discriminate|].
  repeat split.
Qed.

(** The first lesson with [range(1, 6)] in the code: the run gives the
    expected output and the check passes at the first attempt. *)
Example fixed_loop_passes :
  checkSolution
    (runCode (setCode (Seed.lines [lit "for i in range(1, 6):"; lit "    print(i)"])
                (Seed.opened Seed.off_by_one)))
  = (setAttempts 1
       (setOutput (Seed.lines [lit "1"; lit "2"; lit "3"; lit "4"; lit "5"])
          (setCode (Seed.lines [lit "for i in range(1, 6):"; lit "    print(i)"])
             (Seed.opened Seed.off_by_one))),
     [toastCorrect 10; callSaveProgress 1; scheduleNextLesson]).
Proof. reflexivity. Qed.

(** The starter code left as it is: two failed checks, and the second one
    reveals the first hint. *)
Example starter_code_fails_twice :
  snd (checkSolution (runCode (Seed.opened Seed.off_by_one)))
  = [toastNotQuite 1]
  /\ checkSolution (fst (checkSolution (runCode (Seed.opened Seed.off_by_one))))
     = (setShowHints [true]
          (setAttempts 2 (setOutput one_to_six (Seed.opened Seed.off_by_one))),
        [toastHintUnlocked]).
Proof. split; reflexivity. Qed.

End SimulatedRun.

(** ** Saving progress and scoring *)

Section SaveProgress.

Import Challenge.

Local Open Scope Z_scope.

Lemma with_totals_user (d : Defaults) (c pts : Z) (r : profiles.Row) :
  profiles.user_id (Query.with_totals d c pts r) = profiles.user_id r.
Proof. reflexivity. Qed.

(** An update whose numbers fit rewrites the rows of the user and no
    other. *)
Lemma update_accepted (d : Defaults) (u : uuid) (c pts : Z) (t : list profiles.Row) :
  Query.totals_fit c pts = true ->
  Query.update_profile_totals d u c pts t
  = (map (fun r => if streq (profiles.user_id r) u
                   then Query.with_totals d c pts r else r) t,
     mkResponse None None).
Proof.
  unfold Query.update_profile_totals. intros H. now rewrite H.
Qed.

(** An update with a number outside INTEGER is refused as a whole. *)
Lemma update_refused (d : Defaults) (u : uuid) (c pts : Z) (t : list profiles.Row) :
  Query.totals_fit c pts = false ->
  Query.update_profile_totals d u c pts t
  = (t, mkResponse None (Some numeric_value_out_of_range)).
Proof.
  unfold Query.update_profile_totals. intros H. now rewrite H.
Qed.

Lemma update_eq_user (d : Defaults) (u : uuid) (c pts : Z) (t : list profiles.Row) :
  Query.totals_fit c pts = true ->
  Query.profiles_eq_user_id u (fst (Query.update_profile_totals d u c pts t))
  = map (Query.with_totals d c pts) (Query.profiles_eq_user_id u t).
Proof.
  intros H. rewrite (@update_accepted d u c pts t H). cbn [fst].
  unfold Query.profiles_eq_user_id.
  induction t as [|r t IH]; simpl; [reflexivity|].
  destruct (streq (profiles.user_id r) u) eqn:E; simpl.
  - rewrite E. simpl. now rewrite IH.
  - now rewrite E, IH.
Qed.

Lemma update_other_user (d : Defaults) (u : uuid) (c pts : Z)
    (t : list profiles.Row) (r : profiles.Row) :
  In r t -> profiles.user_id r <> u ->
  In r (fst (Query.update_profile_totals d u c pts t)).
Proof.
  intros Hin Hne.
  destruct (Query.totals_fit c pts) eqn:F.
  - rewrite (@update_accepted d u c pts t F). cbn [fst]. apply in_map_iff.
    exists r. split; [|exact Hin].
    apply streq_neq in Hne. now rewrite Hne.
  - now rewrite (@update_refused d u c pts t F).
Qed.

(** The update leaves the two streak columns of every row it rewrites. *)
Lemma update_keeps_streaks (d : Defaults) (u : uuid) (c pts : Z)
    (t : list profiles.Row) (p : profiles.Row) :
  Query.profiles_eq_user_id u t = [p] ->
  exists p',
    Query.profiles_eq_user_id u (fst (Query.update_profile_totals d u c pts t)) = [p']
    /\ profiles.current_streak p' = profiles.current_streak p
    /\ profiles.best_streak p' = profiles.best_streak p.
Proof.
  intros Hp. destruct (Query.totals_fit c pts) eqn:F.
  - rewrite (@update_eq_user d u c pts t F), Hp. simpl. eexists. repeat split.
  - rewrite (@update_refused d u c pts t F). cbn [fst]. exists p. now rewrite Hp.
Qed.

Lemma saveProgress_found (u : uuid) (st : State) (l : Lesson) (n : Z)
    (d : Defaults) (db : Store) (p : profiles.Row) :
  currentLesson st = Some l ->
  Query.profiles_eq_user_id u (tbl_profiles db) = [p] ->
  saveProgress (Some u) st n d db
  = mkSaved
      (mkStore
         (fst (write_totals d u l p (tbl_profiles db)))
         (fst (Query.insert_user_progress d u (id l) (hintsUsed st) n
                 (tbl_user_progress db))))
      Fulfilled []
      (Some (snd (Query.insert_user_progress d u (id l) (hintsUsed st) n
                    (tbl_user_progress db))))
      (Some (snd (write_totals d u l p (tbl_profiles db)))).
Proof.
  intros Hl Hp. unfold saveProgress. rewrite Hl, Hp.
  destruct (Query.insert_user_progress _ _ _ _ _ _).
  cbn [Query.single data]. destruct (write_totals _ _ _ _ _). reflexivity.
Qed.



(** The call is its two steps, one after the other on the same store. *)
Lemma saveProgress_in_two_steps (u : uuid) (st : State) (l : Lesson) (n : Z)
    (d : Defaults) (db : Store) :
  currentLesson st = Some l ->
  store (saveProgress (Some u) st n d db)
  = saveProgress_write u l (snd (saveProgress_read u st l n d db)) d
      (fst (saveProgress_read u st l n d db)).
Proof.
  intros Hl. unfold saveProgress, saveProgress_read, saveProgress_write.
  rewrite Hl. cbn [fst snd].
  destruct (Query.insert_user_progress _ _ _ _ _ _) as [progress ins].
  cbn [fst].
  destruct (data (Query.single (Query.profiles_eq_user_id u (tbl_profiles db))))
    as [p|]; cbn [tbl_profiles tbl_user_progress]; [|reflexivity].
  destruct (write_totals d u l p (tbl_profiles db)). reflexivity.
Qed.


(** C2, as amended.  When the user's profile is found and the new totals
    fit the INTEGER columns, saving a completion of a lesson worth
    [points l] sets [total_points] to the value the call read, null read as
    0, plus [points l], and [total_lessons_completed] to the value read plus
    1.  When a new total does not fit, the store refuses the update with
    22003 and the profiles stay as they were.  The attempts and the hints
    do not enter: any other session state and attempt count on the same
    lesson leave the same profiles.  Rows of other users stay.  The call is
    a read followed by a write: on whatever the profile holds by the time
    of the write, the write puts the totals computed from the value read. *)
Theorem saveProgress_awards_points (u : uuid) (st : State) (l : Lesson) (n : Z)
    (d : Defaults) (db : Store) (p : profiles.Row) :
  currentLesson st = Some l ->
  Query.profiles_eq_user_id u (tbl_profiles db) = [p] ->
  (Query.totals_fit (or0 (profiles.total_lessons_completed p) + 1)
     (or0 (profiles.total_points p) + points l) = true ->
   exists p',
      Query.profiles_eq_user_id u (tbl_profiles (store (saveProgress (Some u) st n d db)))
      = [p']
      /\ profiles.total_points p' = Some (or0 (profiles.total_points p) + points l)
      /\ profiles.total_lessons_completed p'
         = Some (or0 (profiles.total_lessons_completed p) + 1))
  /\ (Query.totals_fit (or0 (profiles.total_lessons_completed p) + 1)
        (or0 (profiles.total_points p) + points l) = false ->
      tbl_profiles (store (saveProgress (Some u) st n d db)) = tbl_profiles db
      /\ update_response (saveProgress (Some u) st n d db)
         = Some (mkResponse None (Some numeric_value_out_of_range))
      /\ settled (saveProgress (Some u) st n d db) = Fulfilled
      /\ console_error (saveProgress (Some u) st n d db) = [])
  /\ (forall st' n', currentLesson st' = Some l ->
        tbl_profiles (store (saveProgress (Some u) st' n' d db))
        = tbl_profiles (store (saveProgress (Some u) st n d db)))
  /\ (forall r, In r (tbl_profiles db) -> profiles.user_id r <> u ->
        In r (tbl_profiles (store (saveProgress (Some u) st n d db))))
  /\ store (saveProgress (Some u) st n d db)
     = saveProgress_write u l (snd (saveProgress_read u st l n d db)) d
         (fst (saveProgress_read u st l n d db))
  /\ snd (saveProgress_read u st l n d db) = Some p
  /\ (forall later now_ p_now,
        Query.profiles_eq_user_id u (tbl_profiles now_) = [p_now] ->
        Query.totals_fit (or0 (profiles.total_lessons_completed p) + 1)
          (or0 (profiles.total_points p) + points l) = true ->
        Query.profiles_eq_user_id u
          (tbl_profiles (saveProgress_write u l (Some p) later now_))
        = [Query.with_totals later
             (or0 (profiles.total_lessons_completed p) + 1)
             (or0 (profiles.total_points p) + points l) p_now]).
Proof.
  intros Hl Hp. split; [|split; [|split; [|split; [|split; [|split]]]]].
  - intros F. rewrite (saveProgress_found u st n d db Hl Hp). simpl.
    eexists. unfold write_totals. rewrite (@update_eq_user d u _ _ _ F), Hp. simpl.
    repeat split.
  - intros F. rewrite (saveProgress_found u st n d db Hl Hp). simpl.
    unfold write_totals. rewrite (@update_refused d u _ _ _ F). repeat split.
  - intros st' n' Hl'.
    rewrite (saveProgress_found u st' n' d db Hl' Hp).
    now rewrite (saveProgress_found u st n d db Hl Hp).
  - intros r Hin Hne. rewrite (saveProgress_found u st n d db Hl Hp). simpl.
    now apply update_other_user.
  - now apply saveProgress_in_two_steps.
  - unfold saveProgress_read. cbn [snd]. now rewrite Hp.
  - intros later now_ p_now Hnow F. unfold saveProgress_write, write_totals.
    cbn [tbl_profiles]. rewrite (@update_eq_user later u _ _ _ F), Hnow. reflexivity.
Qed.

Lemma saveProgress_awards_points_witness :
  exists p',
    Query.profiles_eq_user_id Seed.alice
      (tbl_profiles (store (saveProgress (Some Seed.alice)
                              (Seed.opened Seed.variable_scope) 1 Seed.today
                              Seed.store_streak9)))
    = [p']
    /\ profiles.total_points p' = Some 75
    /\ profiles.total_lessons_completed p' = Some 5.
Proof.
  exact (proj1 (@saveProgress_awards_points Seed.alice
                  (Seed.opened Seed.variable_scope) Seed.variable_scope 1
                  Seed.today Seed.store_streak9
                  (Seed.profile_of Seed.alice 10 4 60 9 9) eq_refl eq_refl)
               eq_refl).
Defined.

(** C2, as stated, fails, in three ways.  Alice holds 2147483640 points
    and completes 'Variable Scope Issue', worth 15: the sum is no INTEGER,
    the update is refused and the profile keeps 2147483640 points and 4
    lessons, where the claim has 2147483655 and 5.  When a second
    completion by Alice, of 'Off-by-One Error in Loop', worth 10, reads the
    profile before the first has written it, both write from the 60 points
    they read: the profile ends with 70 points and 5 lessons, not with 85
    and 6.  And when Alice has no profile, no counter changes anywhere. *)
Lemma scoring_refused_or_overwritten :
  (map (fun r => (profiles.total_points r, profiles.total_lessons_completed r))
     (tbl_profiles
        (store (saveProgress (Some Seed.alice) (Seed.opened Seed.variable_scope) 1
                  Seed.today Seed.store_at_limit)))
   = [(Some 2147483640, Some 4)]
   /\ update_response
        (saveProgress (Some Seed.alice) (Seed.opened Seed.variable_scope) 1
           Seed.today Seed.store_at_limit)
      = Some (mkResponse None (Some numeric_value_out_of_range)))
  /\ (let first := saveProgress_read Seed.alice (Seed.opened Seed.variable_scope)
                     Seed.variable_scope 1 Seed.today Seed.store_streak9 in
      let second := saveProgress_read Seed.alice (Seed.opened Seed.off_by_one)
                      Seed.off_by_one 1 Seed.today (fst first) in
      let written := saveProgress_write Seed.alice Seed.variable_scope
                       (snd first) Seed.today (fst second) in
      map (fun r => (profiles.user_id r, profiles.total_points r,
                     profiles.total_lessons_completed r))
        (tbl_profiles
           (saveProgress_write Seed.alice Seed.off_by_one (snd second)
              Seed.today written))
      = [(Seed.alice, Some 70, Some 5); (Seed.bob, Some 10, Some 1)])
  /\ tbl_profiles
       (store (saveProgress (Some Seed.alice) (Seed.opened Seed.variable_scope) 1
                 Seed.today Seed.store_no_profile))
     = tbl_profiles Seed.store_no_profile.
Proof. split; [split|split]; reflexivity. Qed.

(** C3, as amended.  When the user's profile is found, saving a completion
    leaves [current_streak] and [best_streak] of the profile as they were. *)
Theorem saveProgress_keeps_streaks (u : uuid) (st : State) (l : Lesson) (n : Z)
    (d : Defaults) (db : Store) (p : profiles.Row) :
  currentLesson st = Some l ->
  Query.profiles_eq_user_id u (tbl_profiles db) = [p] ->
  exists p',
    Query.profiles_eq_user_id u (tbl_profiles (store (saveProgress (Some u) st n d db)))
    = [p']
    /\ profiles.current_streak p' = profiles.current_streak p
    /\ profiles.best_streak p' = profiles.best_streak p.
Proof.
  intros Hl Hp. rewrite (saveProgress_found u st n d db Hl Hp).
  cbn [store tbl_profiles]. unfold write_totals.
  now apply update_keeps_streaks.
Qed.

Lemma saveProgress_keeps_streaks_witness :
  exists p',
    Query.profiles_eq_user_id Seed.alice
      (tbl_profiles (store (saveProgress (Some Seed.alice)
                              (Seed.opened Seed.variable_scope) 1 Seed.today
                              Seed.store_streak9)))
    = [p']
    /\ profiles.current_streak p' = Some 9
    /\ profiles.best_streak p' = Some 9.
Proof.
  exact (@saveProgress_keeps_streaks Seed.alice (Seed.opened Seed.variable_scope)
           Seed.variable_scope 1 Seed.today Seed.store_streak9
           (Seed.profile_of Seed.alice 10 4 60 9 9) eq_refl eq_refl).
Defined.

(** C3, as stated, fails: with a streak of 9 and a best of 9 the spec asks
    for 10 and 10 inside the window and for 1 and 9 outside it; the profile
    after the completion still reads 9 and 9. *)
Lemma streak_not_updated :
  ~ exists within_window,
      map streaks
        (Query.profiles_eq_user_id Seed.alice
           (tbl_profiles (store (saveProgress (Some Seed.alice)
                                   (Seed.opened Seed.variable_scope) 1 Seed.today
                                   Seed.store_streak9))))
      = [spec_streak within_window 9 9].
Proof.
  intros [w H]. destruct w; vm_compute in H; discriminate H.
Qed.




(** An insert for a pair that has a row is refused and changes nothing. *)
Lemma insert_refused (d : Defaults) (u l : uuid) (h n : Z)
    (t : list user_progress.Row) :
  existsb (Query.same_pair u l) t = true ->
  Query.insert_user_progress d u l h n t
  = (t, mkResponse None (Some unique_violation)).
Proof. intros H. unfold Query.insert_user_progress. now rewrite H. Qed.

(** C4 at a second completion.  Alice completed 'Variable Scope Issue' in 3
    attempts with 1 hint and completes it again at the first attempt: the
    insert is answered with a unique violation, the table keeps the earlier
    row and only that, and the profile is scored again. *)
Lemma second_completion_rejected :
  insert_response
    (saveProgress (Some Seed.alice) (Seed.opened Seed.variable_scope) 1
       Seed.today Seed.store_completed)
  = Some (mkResponse None (Some unique_violation))
  /\ tbl_user_progress
       (store (saveProgress (Some Seed.alice) (Seed.opened Seed.variable_scope) 1
                 Seed.today Seed.store_completed))
     = tbl_user_progress Seed.store_completed
  /\ map user_progress.attempts
       (tbl_user_progress
          (store (saveProgress (Some Seed.alice) (Seed.opened Seed.variable_scope) 1
                    Seed.today Seed.store_completed)))
     = [Some 3]
  /\ map profiles.total_points
       (tbl_profiles
          (store (saveProgress (Some Seed.alice) (Seed.opened Seed.variable_scope) 1
                    Seed.today Seed.store_completed)))
     = [Some 75].
Proof. repeat split. Qed.

End SaveProgress.

(** ** The leaderboard *)

Section Ranking.

Import Leaderboard.

Lemma points_ge_total (a b : option Z) : points_ge a b = false -> points_ge b a = true.
Proof.
  destruct a as [x|], b as [y|]; simpl; try congruence.
  intros H. apply Z.leb_gt in H. apply Z.leb_le. lia.
Qed.

Lemma points_ge_trans (a b c : option Z) :
  points_ge a b = true -> points_ge b c = true -> points_ge a c = true.
Proof.
  destruct a as [x|], b as [y|], c as [z|]; simpl; try congruence.
  rewrite !Z.leb_le. lia.
Qed.

Lemma insert_desc_perm (r : profiles.Row) (l : list profiles.Row) :
  Permutation (insert_desc r l) (r :: l).
Proof.
  induction l as [|h t IH]; simpl; [reflexivity|].
  destruct (points_ge _ _); [reflexivity|].
  rewrite IH. apply perm_swap.
Qed.

Lemma insert_desc_sorted (r : profiles.Row) (l : list profiles.Row) :
  StronglySorted row_ge_points l -> StronglySorted row_ge_points (insert_desc r l).
Proof.
  induction 1 as [|h t Ht IH Hh]; simpl.
  - constructor; constructor.
  - destruct (points_ge (profiles.total_points r) (profiles.total_points h)) eqn:E.
    + constructor; [constructor; assumption|].
      constructor; [exact E|].
      eapply Forall_impl; [|exact Hh].
      intros x Hx. unfold row_ge_points in *. eapply points_ge_trans; eassumption.
    + constructor; [exact IH|].
      eapply Permutation_Forall; [symmetry; apply insert_desc_perm|].
      constructor; [|exact Hh]. now apply points_ge_total.
Qed.

Lemma order_perm (t : list profiles.Row) :
  Permutation (order_total_points_desc t) t.
Proof.
  induction t as [|r t IH]; simpl; [reflexivity|].
  rewrite insert_desc_perm. now constructor.
Qed.

Lemma order_sorted (t : list profiles.Row) :
  StronglySorted row_ge_points (order_total_points_desc t).
Proof.
  induction t as [|r t IH]; simpl; [constructor|].
  now apply insert_desc_sorted.
Qed.

(** A sorted list splits, at any point, into a sorted front and a rest
    that the front dominates. *)
Lemma sorted_app (A : Type) (R : A -> A -> Prop) (l1 l2 : list A) :
  StronglySorted R (l1 ++ l2) ->
  StronglySorted R l1 /\ StronglySorted R l2
  /\ forall a b, In a l1 -> In b l2 -> R a b.
Proof.
  induction l1 as [|x l1 IH]; simpl; intros H.
  - repeat split; [constructor|exact H|intros a b []].
  - apply StronglySorted_inv in H as [Hs Hx].
    destruct (IH Hs) as (H1 & H2 & H12).
    apply Forall_app in Hx as [Hx1 Hx2].
    repeat split; [constructor; assumption|exact H2|].
    intros a b [<-|Ha] Hb; [|now apply H12].
    rewrite Forall_forall in Hx2. now apply Hx2.
Qed.

Lemma rank_from_length (i : Z) (data : list profiles.Row) :
  List.length (rank_from i data) = List.length data.
Proof. revert i; induction data as [|p data IH]; intros i; simpl; [|rewrite IH]; reflexivity. Qed.

Lemma rank_from_nth (data : list profiles.Row) (i : Z) (k : nat) (e : LeaderboardUser) :
  nth_error (rank_from i data) k = Some e ->
  rank e = (i + Z.of_nat k + 1)%Z
  /\ exists p, nth_error data k = Some p
               /\ user_id e = profiles.user_id p
               /\ total_points e = profiles.total_points p.
Proof.
  revert i k; induction data as [|p data IH]; intros i k; simpl.
  - destruct k; discriminate.
  - destruct k as [|k]; simpl.
    + intros H. injection H as <-. simpl. split; [lia|].
      exists p. repeat split.
    + intros H. destruct (IH _ _ H) as [Hr Hp]. split; [lia|exact Hp].
Qed.

Lemma rank_from_dominated (e : LeaderboardUser) (p : profiles.Row) (j : Z)
    (data : list profiles.Row) :
  total_points e = profiles.total_points p ->
  Forall (row_ge_points p) data -> Forall (ge_points e) (rank_from j data).
Proof.
  intros He H. revert j. induction H as [|q data Hq _ IH]; intros j; simpl.
  - constructor.
  - constructor; [|apply IH].
    unfold ge_points, row_ge_points in *. simpl. now rewrite He.
Qed.

Lemma rank_from_sorted (i : Z) (data : list profiles.Row) :
  StronglySorted row_ge_points data -> StronglySorted ge_points (rank_from i data).
Proof.
  intros H. revert i. induction H as [|p data Hs IH Hp]; intros i; simpl.
  - constructor.
  - constructor; [apply IH|].
    now apply rank_from_dominated with (p := p).
Qed.

(** The ranking of the rows the query can see: descending order of
    [total_points]; every entry's rank is its position counted from 1; at
    most 50 entries; and no row left out has more points than a row
    listed. *)
Lemma ranking_of_rows (t : list profiles.Row) :
  StronglySorted ge_points (fetchLeaderboard t)
  /\ (forall k e, nth_error (fetchLeaderboard t) k = Some e ->
                  rank e = (Z.of_nat k + 1)%Z)
  /\ List.length (fetchLeaderboard t) = Nat.min 50 (List.length t)
  /\ exists data rest,
       fetchLeaderboard t = rank_from 0 data
       /\ Permutation (data ++ rest) t
       /\ forall a b, In a data -> In b rest -> row_ge_points a b.
Proof.
  unfold fetchLeaderboard, limit.
  pose proof (order_sorted t) as Hs.
  rewrite <- (firstn_skipn 50 (order_total_points_desc t)) in Hs.
  apply sorted_app in Hs as (H1 & _ & H12).
  split; [now apply rank_from_sorted|].
  split.
  { intros k e H. apply rank_from_nth in H as [Hr _]. lia. }
  split.
  { rewrite rank_from_length, length_firstn.
    now rewrite (Permutation_length (order_perm t)). }
  exists (firstn 50 (order_total_points_desc t)),
         (skipn 50 (order_total_points_desc t)).
  split; [reflexivity|]. split; [|exact H12].
  rewrite firstn_skipn. apply order_perm.
Qed.

(** With [UNIQUE] on [user_id], the policy lets one row through at most. *)
Lemma select_profiles_short (caller : option uuid) (t : list profiles.Row) :
  Scoring.unique_users t ->
  (List.length (Policy.select_profiles caller t) <= 1)%nat.
Proof.
  intros Hu. destruct caller as [uid|]; simpl; [apply (Hu uid)|lia].
Qed.

Lemma short_list_one_order (sorted rows : list profiles.Row) :
  (List.length rows <= 1)%nat -> Permutation sorted rows -> sorted = rows.
Proof.
  intros Hlen Hperm. destruct rows as [|r [|r' rows]]; simpl in Hlen; [| |lia].
  - now apply Permutation_nil, Permutation_sym.
  - now apply Permutation_length_1_inv, Permutation_sym.
Qed.


(** Every leaderboard that an answer gives is the ranking of the rows the
    policy lets through, as they are, cut to the limit. *)
Lemma shown_rows_with (limit_ : nat) (caller : option uuid)
    (t : list profiles.Row) (lb : list LeaderboardUser) :
  Scoring.unique_users t -> Policy.shows_with limit_ caller t lb ->
  lb = rank_from 0 (limit limit_ (Policy.select_profiles caller t)).
Proof.
  intros Hu (data & (sorted & Hperm & _ & ->) & ->).
  pose proof (@select_profiles_short caller t Hu) as Hlen.
  now rewrite (@short_list_one_order _ _ Hlen Hperm).
Qed.

Lemma shown_rows (caller : option uuid) (t : list profiles.Row)
    (lb : list LeaderboardUser) :
  Scoring.unique_users t -> Policy.shows caller t lb ->
  lb = rank_from 0 (Policy.select_profiles caller t).
Proof.
  intros Hu Hlb. rewrite (@shown_rows_with 50 caller t lb Hu Hlb).
  pose proof (@select_profiles_short caller t Hu) as Hlen.
  unfold limit. rewrite firstn_all2 by lia. reflexivity.
Qed.

(** The stable order of [fetchLeaderboard] is one of the answers. *)
Lemma fetchLeaderboard_shown (caller : option uuid) (t : list profiles.Row) :
  Policy.shows caller t (fetchLeaderboard (Policy.select_profiles caller t)).
Proof.
  exists (limit 50 (order_total_points_desc (Policy.select_profiles caller t))).
  split; [|reflexivity].
  exists (order_total_points_desc (Policy.select_profiles caller t)).
  split; [apply order_perm|]. split; [apply order_sorted|reflexivity].
Qed.


Lemma two_users_unique : Scoring.unique_users Seed.bob_leads.
Proof.
  intros u. unfold Query.profiles_eq_user_id, Seed.bob_leads.
  cbn [filter profiles.user_id Seed.profile_of].
  destruct (streq Seed.bob u) eqn:Eb, (streq Seed.alice u) eqn:Ea;
    cbn [List.length]; try lia.
  apply streq_eq in Eb, Ea. rewrite <- Eb in Ea.
  vm_compute in Ea. discriminate Ea.
Qed.



End Ranking.

(** ** Activity per day *)

Section Activity.

Import Leaderboard.

Variable toLocaleDateString : timestamptz -> jsstring.
Variable getTime : jsstring -> option Z.

Local Open Scope Z_scope.

Local Abbreviation day p := (toLocaleDateString (user_progress.completed_at p)).
Local Abbreviation on_day := (completions_on toLocaleDateString).
Local Abbreviation time_value s :=
  (match getTime s with Some v => v | None => 0 end).
Local Abbreviation parses s := (getTime s <> None).
Local Abbreviation earlier :=
  (fun a b : jsstring * Z => time_value (fst a) <= time_value (fst b)).

Lemma lookup0_assign (k k' : jsstring) (v : Z) (m : Counts) :
  lookup0 k' (assign k v m) = if streq k k' then v else lookup0 k' m.
Proof.
  induction m as [|[k0 v0] m IH]; simpl.
  - reflexivity.
  - destruct (streq k0 k) eqn:E0; simpl.
    + apply streq_eq in E0. subst k0. destruct (streq k k'); reflexivity.
    + rewrite IH. destruct (streq k0 k') eqn:E1; [|reflexivity].
      apply streq_eq in E1. subst k0. now rewrite streq_sym, E0.
Qed.

Lemma assign_keys (k : jsstring) (v : Z) (m : Counts) :
  map fst (assign k v m)
  = if existsb (fun k0 => streq k0 k) (map fst m) then map fst m
    else map fst m ++ [k].
Proof.
  induction m as [|[k0 v0] m IH]; simpl; [reflexivity|].
  destruct (streq k0 k); simpl; [reflexivity|].
  rewrite IH. destruct (existsb _ _); reflexivity.
Qed.

Lemma existsb_streq (k : jsstring) (l : list jsstring) :
  existsb (fun k0 => streq k0 k) l = true <-> In k l.
Proof.
  rewrite existsb_exists. split.
  - intros [x [Hx E]]. apply streq_eq in E. now subst.
  - intros H. exists k. split; [exact H|apply streq_refl].
Qed.

Lemma assign_keys_in (k k' : jsstring) (v : Z) (m : Counts) :
  In k' (map fst (assign k v m)) <-> k' = k \/ In k' (map fst m).
Proof.
  rewrite assign_keys.
  destruct (existsb _ _) eqn:E.
  - apply existsb_streq in E. split; [auto|]. intros [->|H]; assumption.
  - rewrite in_app_iff. simpl. intuition.
Qed.

Lemma assign_keys_nodup (k : jsstring) (v : Z) (m : Counts) :
  NoDup (map fst m) -> NoDup (map fst (assign k v m)).
Proof.
  intros H. rewrite assign_keys.
  destruct (existsb _ _) eqn:E; [exact H|].
  apply NoDup_app; [exact H|repeat constructor; intros []|].
  intros x Hx [<-|[]].
  apply existsb_streq in Hx. congruence.
Qed.

Lemma lookup0_in (m : Counts) (k : jsstring) (v : Z) :
  NoDup (map fst m) -> In (k, v) m -> lookup0 k m = v.
Proof.
  induction m as [|[k0 v0] m IH]; simpl; [intros _ []|].
  intros Hn [E|Hin].
  - injection E as -> ->. now rewrite streq_refl.
  - apply NoDup_cons_iff in Hn as [Hk Hn].
    destruct (streq k0 k) eqn:E.
    + apply streq_eq in E. subst k0. exfalso. apply Hk.
      apply in_map_iff. now exists (k, v).
    + now apply IH.
Qed.

Lemma on_day_cons (k : jsstring) (p : user_progress.Row) (data : list user_progress.Row) :
  on_day k (p :: data) = (if streq (day p) k then 1 else 0) + on_day k data.
Proof.
  unfold completions_on. simpl. destruct (streq _ _); simpl List.length; lia.
Qed.

Lemma on_day_nonneg (k : jsstring) (data : list user_progress.Row) : 0 <= on_day k data.
Proof. unfold completions_on. lia. Qed.

Lemma on_day_pos (k : jsstring) (data : list user_progress.Row) :
  (exists p, In p data /\ day p = k) -> 1 <= on_day k data.
Proof.
  induction data as [|q data IH]; intros [p [Hin E]]; [destruct Hin|].
  rewrite on_day_cons. pose proof (on_day_nonneg k data).
  destruct Hin as [->|Hin].
  - rewrite E, streq_refl. lia.
  - assert (1 <= on_day k data) by (apply IH; now exists p).
    destruct (streq _ _); lia.
Qed.

(** The loop over the history, from any table of counts. *)
Lemma count_days (data : list user_progress.Row) (acc : Counts) :
  NoDup (map fst acc) ->
  NoDup (map fst (fold_left (count_day toLocaleDateString) data acc))
  /\ (forall k, lookup0 k (fold_left (count_day toLocaleDateString) data acc)
                = lookup0 k acc + on_day k data)
  /\ (forall k, In k (map fst (fold_left (count_day toLocaleDateString) data acc))
                <-> In k (map fst acc) \/ exists p, In p data /\ day p = k).
Proof.
  revert acc. induction data as [|p data IH]; intros acc Hn; simpl.
  - split; [exact Hn|]. split.
    + intros k. unfold completions_on. simpl. lia.
    + intros k. split; [auto|]. intros [H|[p [[] _]]]. exact H.
  - destruct (IH (count_day toLocaleDateString acc p)) as (H1 & H2 & H3).
    { now apply assign_keys_nodup. }
    split; [exact H1|]. split.
    + intros k. rewrite H2, on_day_cons. unfold count_day.
      rewrite lookup0_assign. destruct (streq (day p) k) eqn:E; [|lia].
      apply streq_eq in E. subst k. lia.
    + intros k. rewrite H3. unfold count_day. rewrite assign_keys_in.
      split.
      * intros [[->|H]|[q [Hq E]]]; eauto.
      * intros [H|[q [[->|Hq] E]]]; eauto.
Qed.

Lemma dateMap_entries (data : list user_progress.Row) :
  NoDup (map fst (dateMap_of toLocaleDateString data))
  /\ (forall k v, In (k, v) (dateMap_of toLocaleDateString data) ->
                  v = on_day k data /\ 1 <= v)
  /\ (forall k, In k (map fst (dateMap_of toLocaleDateString data))
                <-> exists p, In p data /\ day p = k).
Proof.
  destruct (@count_days data []) as (H1 & H2 & H3); [constructor|].
  fold (dateMap_of toLocaleDateString data) in *.
  assert (Hk : forall k, In k (map fst (dateMap_of toLocaleDateString data))
                         <-> exists p, In p data /\ day p = k).
  { intros k. rewrite H3. simpl. tauto. }
  split; [exact H1|]. split; [|exact Hk].
  intros k v Hin.
  assert (E : v = on_day k data).
  { rewrite <- (@lookup0_in _ k v H1 Hin), H2. reflexivity. }
  split; [exact E|]. rewrite E. apply on_day_pos. apply Hk.
  apply in_map_iff. now exists (k, v).
Qed.

Lemma insert_sorted_perm (x : jsstring * Z) (l : list (jsstring * Z)) :
  Permutation (insert_sorted getTime x l) (x :: l).
Proof.
  induction l as [|h t IH]; simpl; [reflexivity|].
  destruct (_ <=? _); [reflexivity|].
  rewrite IH. apply perm_swap.
Qed.

Lemma sort_compare_parsed (a b : jsstring * Z) :
  parses (fst a) -> parses (fst b) ->
  sort_compare getTime a b = time_value (fst a) - time_value (fst b).
Proof.
  unfold sort_compare, compare_dates.
  destruct (getTime (fst a)), (getTime (fst b)); congruence.
Qed.

Lemma insert_sorted_sorted (x : jsstring * Z) (l : list (jsstring * Z)) :
  parses (fst x) -> Forall (fun e => parses (fst e)) l ->
  StronglySorted earlier l -> StronglySorted earlier (insert_sorted getTime x l).
Proof.
  intros Hx Hl Hs. induction Hs as [|h t Ht IH Hh]; simpl.
  - constructor; constructor.
  - apply Forall_cons_iff in Hl as [Hph Hpt].
    rewrite (sort_compare_parsed x h Hx Hph).
    destruct (_ <=? _) eqn:E.
    + apply Z.leb_le in E.
      constructor; [constructor; assumption|].
      constructor; [lia|].
      eapply Forall_impl; [|exact Hh]. simpl. intros; lia.
    + apply Z.leb_gt in E.
      constructor; [exact (IH Hpt)|].
      eapply Permutation_Forall; [symmetry; apply insert_sorted_perm|].
      constructor; [lia|exact Hh].
Qed.

Lemma sort_by_date_perm (l : list (jsstring * Z)) :
  Permutation (sort_by_date getTime l) l.
Proof.
  induction l as [|x l IH]; simpl; [reflexivity|].
  rewrite insert_sorted_perm. now constructor.
Qed.

Lemma sort_by_date_sorted (l : list (jsstring * Z)) :
  Forall (fun e => parses (fst e)) l ->
  StronglySorted earlier (sort_by_date getTime l).
Proof.
  induction l as [|x l IH]; simpl; intros Hl; [constructor|].
  apply Forall_cons_iff in Hl as [Hx Hl].
  apply insert_sorted_sorted; [exact Hx| |exact (IH Hl)].
  eapply Permutation_Forall; [symmetry; apply sort_by_date_perm|exact Hl].
Qed.

Lemma slice_last_split (A : Type) (n : nat) (a : list A) :
  exists older, a = older ++ slice_last n a
                /\ List.length (slice_last n a) = Nat.min n (List.length a).
Proof.
  unfold slice_last. exists (firstn (List.length a - n) a). split.
  - symmetry. apply firstn_skipn.
  - rewrite length_skipn. lia.
Qed.

(** Where the engine reads every date string of the history as the start
    of the day of the completions on it, [midnight], the series is the
    activity of the last days in order: one entry per day, no day twice,
    each with the number of completions on it; completions on an earlier
    entry have the earlier day; there are 7 entries, or as many as the
    history has distinct days when those are fewer; and every day of the
    history that is left out is no later than each day kept. *)
Lemma chart_where_dates_parse (midnight : timestamptz -> Z)
    (data : list user_progress.Row) :
  (forall p, In p data ->
     getTime (toLocaleDateString (user_progress.completed_at p))
     = Some (midnight (user_progress.completed_at p))) ->
  NoDup (map fst (progressOverTime toLocaleDateString getTime data))
  /\ (forall date lessons,
        In (date, lessons) (progressOverTime toLocaleDateString getTime data) ->
        lessons = completions_on toLocaleDateString date data
        /\ 1 <= lessons
        /\ exists p, In p data
                     /\ toLocaleDateString (user_progress.completed_at p) = date)
  /\ (forall i j a b p q,
        (i < j)%nat ->
        nth_error (progressOverTime toLocaleDateString getTime data) i = Some a ->
        nth_error (progressOverTime toLocaleDateString getTime data) j = Some b ->
        In p data -> toLocaleDateString (user_progress.completed_at p) = fst a ->
        In q data -> toLocaleDateString (user_progress.completed_at q) = fst b ->
        midnight (user_progress.completed_at p)
        <= midnight (user_progress.completed_at q))
  /\ (forall days,
        NoDup days ->
        (forall date, In date days
                      <-> exists p, In p data
                            /\ toLocaleDateString (user_progress.completed_at p) = date) ->
        List.length (progressOverTime toLocaleDateString getTime data)
        = Nat.min 7 (List.length days))
  /\ (forall p q e,
        In p data -> In q data ->
        In e (progressOverTime toLocaleDateString getTime data) ->
        toLocaleDateString (user_progress.completed_at q) = fst e ->
        In (toLocaleDateString (user_progress.completed_at p))
           (map fst (progressOverTime toLocaleDateString getTime data))
        \/ midnight (user_progress.completed_at p)
           <= midnight (user_progress.completed_at q)).
Proof.
  intros Hround. unfold progressOverTime.
  destruct (dateMap_entries data) as (Hnd & Hcount & Hkeys).
  assert (Htime : forall p, In p data ->
            time_value (day p) = midnight (user_progress.completed_at p)).
  { intros p Hp. now rewrite (Hround p Hp). }
  assert (Hparse : Forall (fun e => parses (fst e))
                     (dateMap_of toLocaleDateString data)).
  { apply Forall_forall. intros [k v] Hkv. simpl.
    assert (Hk : In k (map fst (dateMap_of toLocaleDateString data)))
      by (apply in_map_iff; now exists (k, v)).
    apply Hkeys in Hk as [p [Hp <-]]. rewrite (Hround p Hp). discriminate. }
  pose proof (sort_by_date_perm (dateMap_of toLocaleDateString data)) as Hperm.
  pose proof (sort_by_date_sorted Hparse) as Hsorted.
  destruct (slice_last_split 7
              (sort_by_date getTime (dateMap_of toLocaleDateString data)))
    as [older [Hsplit Hlen]].
  remember (slice_last 7 (sort_by_date getTime (dateMap_of toLocaleDateString data)))
    as kept eqn:Hkept.
  clear Hkept. rewrite Hsplit in Hperm, Hsorted, Hlen. clear Hsplit.
  apply sorted_app in Hsorted as (_ & Hs & Hdom).
  assert (Hin : forall x, In x kept -> In x (dateMap_of toLocaleDateString data)).
  { intros x Hx. apply (Permutation_in _ Hperm). apply in_or_app. now right. }
  split.
  { apply (Permutation_map fst) in Hperm. symmetry in Hperm.
    apply (Permutation_NoDup Hperm) in Hnd.
    rewrite map_app in Hnd. now apply NoDup_app_remove_l in Hnd. }
  split.
  { intros date lessons H. apply Hin in H.
    destruct (Hcount _ _ H) as [E Hpos]. repeat split; [exact E|exact Hpos|].
    apply Hkeys. apply in_map_iff. now exists (date, lessons). }
  split.
  { intros i j a b p q Hij Ha Hb Hp Ea Hq Eb.
    rewrite <- (Htime p Hp), <- (Htime q Hq), Ea, Eb.
    revert i j Hij Ha Hb. clear -Hs.
    induction Hs as [|h t Ht IH Hh]; intros i j Hij Ha Hb.
    - destruct i; discriminate.
    - destruct j as [|j]; [lia|]. destruct i as [|i]; simpl in Ha, Hb.
      + injection Ha as <-. rewrite Forall_forall in Hh.
        apply (Hh b). eapply nth_error_In; eassumption.
      + apply (IH i j); [lia|assumption|assumption]. }
  split.
  { intros days Hdays Hmem. rewrite Hlen.
    rewrite (Permutation_length Hperm).
    rewrite <- (length_map fst (dateMap_of toLocaleDateString data)).
    f_equal. apply Permutation_length. apply NoDup_Permutation; [exact Hnd|exact Hdays|].
    intros k. rewrite Hkeys, Hmem. reflexivity. }
  intros p q e Hp Hq He Eq.
  assert (Hk : In (toLocaleDateString (user_progress.completed_at p))
                  (map fst (dateMap_of toLocaleDateString data))).
  { apply Hkeys. now exists p. }
  apply in_map_iff in Hk as [[k v] [Ek Hkv]]. simpl in Ek. subst k.
  apply (Permutation_in _ (Permutation_sym Hperm)) in Hkv.
  apply in_app_or in Hkv as [Hold|Hnew].
  - right. rewrite <- (Htime p Hp), <- (Htime q Hq), Eq.
    exact (Hdom _ _ Hold He).
  - left. apply in_map_iff. now exists (toLocaleDateString (user_progress.completed_at p), v).
Qed.

End Activity.

(** C9 in a browser set to British English.  Alice completed a lesson on
    2 February 2026 and one on 1 March 2026.  The page writes the days as
    '02/02/2026' and '01/03/2026' and sorts them by what [new Date] reads
    from these strings, 2 February and 3 January: the series has 1 March
    first and 2 February second, which is not ascending by date.  A day
    after the 12th of its month is read as no date at all. *)
Lemma chart_out_of_order_in_en_GB :
  map (fun p => (Cases.en_GB_date (user_progress.completed_at p),
                 user_progress.completed_at p))
    Cases.february_and_march
  = [(lit "02/02/2026", Cases.noon 2026 2 2);
     (lit "01/03/2026", Cases.noon 2026 3 1)]
  /\ (Cases.noon 2026 2 2 < Cases.noon 2026 3 1)%Z
  /\ Leaderboard.progressOverTime Cases.en_GB_date Cases.engine_parse
       Cases.february_and_march
     = [(lit "01/03/2026", 1%Z); (lit "02/02/2026", 1%Z)]
  /\ map Cases.engine_parse [lit "02/02/2026"; lit "01/03/2026"]
     = [Some (Cases.midnight (Cases.noon 2026 2 2));
        Some (Cases.midnight (Cases.noon 2026 1 3))]
  /\ Cases.engine_parse (Cases.en_GB_date (Cases.noon 2026 2 13)) = None.
Proof. repeat split. Qed.

(** The same history in a browser set to American English, where the
    strings are read back as the days they were written for: the series is
    in order. *)
Example chart_in_order_in_en_US :
  Leaderboard.progressOverTime Cases.en_US_date Cases.engine_parse
    Cases.february_and_march
  = [(lit "2/2/2026", 1%Z); (lit "3/1/2026", 1%Z)]
  /\ forall p, In p Cases.february_and_march ->
       Cases.engine_parse (Cases.en_US_date (user_progress.completed_at p))
       = Some (Cases.midnight (user_progress.completed_at p)).
Proof.
  split; [reflexivity|].
  intros p [<-|[<-|[]]]; reflexivity.
Qed.

(** ** Granting badges *)

Section Granting.

Import Badges.

Lemma count_pair_app (u b : uuid) (t1 t2 : list user_badges.Row) :
  count_pair u b (t1 ++ t2) = (count_pair u b t1 + count_pair u b t2)%nat.
Proof. unfold count_pair. now rewrite filter_app, length_app. Qed.

Lemma not_owned_count (u b : uuid) (t : list user_badges.Row) :
  owns u b t = false -> count_pair u b t = 0%nat.
Proof.
  unfold owns, count_pair. induction t as [|r t IH]; simpl; [reflexivity|].
  destruct (is_pair u b r); simpl; [discriminate|exact IH].
Qed.

Lemma is_pair_eq (u b u' b' : uuid) (d : Defaults) :
  is_pair u' b' (user_badges.mkRow b (now d) (gen_random_uuid d) u) = true ->
  u' = u /\ b' = b.
Proof.
  unfold is_pair. simpl. intros H. apply andb_true_iff in H as [Hu Hb].
  apply streq_eq in Hu, Hb. now subst.
Qed.

Lemma grantBadge_owns (d : Defaults) (u b : uuid) (t : list user_badges.Row) :
  owns u b (grantBadge d u b t) = true.
Proof.
  unfold grantBadge, insert_user_badges. destruct (owns u b t) eqn:E; simpl; [exact E|].
  unfold owns. rewrite existsb_app. simpl. unfold is_pair at 2. simpl.
  rewrite !streq_refl. simpl. now rewrite orb_true_r.
Qed.

Lemma grantBadge_keeps (d : Defaults) (u b u' b' : uuid) (t : list user_badges.Row) :
  owns u' b' t = true -> owns u' b' (grantBadge d u b t) = true.
Proof.
  intros H. unfold grantBadge, insert_user_badges. destruct (owns u b t); simpl; [exact H|].
  unfold owns in *. rewrite existsb_app, H. reflexivity.
Qed.

Lemma grantBadge_unique (d : Defaults) (u b : uuid) (t : list user_badges.Row) :
  unique_pairs t -> unique_pairs (grantBadge d u b t).
Proof.
  intros Hu u' b'. unfold grantBadge, insert_user_badges.
  destruct (owns u b t) eqn:E; simpl; [apply Hu|].
  rewrite count_pair_app. unfold count_pair at 2. simpl.
  destruct (is_pair u' b' _) eqn:P; simpl.
  - apply is_pair_eq in P as [-> ->]. rewrite (not_owned_count _ _ _ E). lia.
  - pose proof (Hu u' b'). lia.
Qed.

(** A second grant of the same badge changes nothing. *)
Lemma grantBadge_again (d d' : Defaults) (u b : uuid) (t : list user_badges.Row) :
  grantBadge d' u b (grantBadge d u b t) = grantBadge d u b t.
Proof.
  unfold grantBadge at 1, insert_user_badges. now rewrite grantBadge_owns.
Qed.

Lemma evaluate_one_unique (d : Defaults) (u : uuid) (s : Statistics)
    (acc : list badges.Row * list user_badges.Row) (b : badges.Row) :
  unique_pairs (snd acc) -> unique_pairs (snd (evaluate_one d u s acc b)).
Proof.
  destruct acc as [earned t]. simpl. intros H.
  destruct (owns u (badges.id b) t); [exact H|].
  destruct (satisfied b s); [|exact H].
  simpl. now apply grantBadge_unique.
Qed.

Lemma evaluate_one_keeps (d : Defaults) (u : uuid) (s : Statistics)
    (acc : list badges.Row * list user_badges.Row) (b : badges.Row) (u' b' : uuid) :
  owns u' b' (snd acc) = true -> owns u' b' (snd (evaluate_one d u s acc b)) = true.
Proof.
  destruct acc as [earned t]. simpl. intros H.
  destruct (owns u (badges.id b) t); [exact H|].
  destruct (satisfied b s); [|exact H].
  simpl. now apply grantBadge_keeps.
Qed.

Lemma fold_unique (d : Defaults) (u : uuid) (s : Statistics)
    (catalogue : list badges.Row) (acc : list badges.Row * list user_badges.Row) :
  unique_pairs (snd acc) ->
  unique_pairs (snd (fold_left (evaluate_one d u s) catalogue acc)).
Proof.
  revert acc. induction catalogue as [|b c IH]; intros acc H; simpl; [exact H|].
  apply IH. now apply evaluate_one_unique.
Qed.

Lemma fold_keeps (d : Defaults) (u : uuid) (s : Statistics)
    (catalogue : list badges.Row) (acc : list badges.Row * list user_badges.Row)
    (u' b' : uuid) :
  owns u' b' (snd acc) = true ->
  owns u' b' (snd (fold_left (evaluate_one d u s) catalogue acc)) = true.
Proof.
  revert acc. induction catalogue as [|b c IH]; intros acc H; simpl; [exact H|].
  apply IH. now apply evaluate_one_keeps.
Qed.

(** After an evaluation every badge of the catalogue is owned or unearned. *)
Lemma fold_settles (d : Defaults) (u : uuid) (s : Statistics)
    (catalogue : list badges.Row) (acc : list badges.Row * list user_badges.Row)
    (b : badges.Row) :
  In b catalogue ->
  owns u (badges.id b) (snd (fold_left (evaluate_one d u s) catalogue acc)) = true
  \/ satisfied b s = false.
Proof.
  revert acc. induction catalogue as [|c cs IH]; intros acc Hin; [destruct Hin|].
  simpl. destruct Hin as [->|Hin]; [|now apply IH].
  destruct (satisfied b s) eqn:Hs; [left|now right].
  apply fold_keeps. destruct acc as [earned t]. simpl.
  destruct (owns u (badges.id b) t) eqn:Ho; [exact Ho|].
  rewrite Hs. simpl. apply grantBadge_owns.
Qed.

Lemma fold_nothing_new (d : Defaults) (u : uuid) (s : Statistics)
    (catalogue : list badges.Row) (acc : list badges.Row * list user_badges.Row) :
  (forall b, In b catalogue ->
             owns u (badges.id b) (snd acc) = true \/ satisfied b s = false) ->
  fold_left (evaluate_one d u s) catalogue acc = acc.
Proof.
  revert acc. induction catalogue as [|b c IH]; intros acc H; simpl; [reflexivity|].
  assert (E : evaluate_one d u s acc b = acc).
  { destruct acc as [earned t]. simpl in *.
    destruct (H b (or_introl eq_refl)) as [Ho|Hs].
    - now rewrite Ho.
    - rewrite Hs. now destruct (owns u (badges.id b) t). }
  rewrite E. apply IH. intros b' Hb'. apply H. now right.
Qed.

Lemma evaluate_repeatedly_unique (ds : list Defaults) (u : uuid) (s : Statistics)
    (catalogue : list badges.Row) (t : list user_badges.Row) :
  unique_pairs t -> unique_pairs (evaluate_repeatedly ds u s catalogue t).
Proof.
  revert t. induction ds as [|d ds IH]; intros t H; simpl; [exact H|].
  apply IH. unfold evaluateBadges. now apply fold_unique.
Qed.

(** C8.  On a table that respects the constraint on (user, badge), any
    number of evaluations on the same statistics leaves at most one row for
    every pair; an evaluation that follows another earns nothing and
    leaves the table as it is; and granting a badge twice gives the table
    that granting it once gives. *)
Theorem badge_grants_idempotent (ds : list Defaults) (u : uuid) (s : Statistics)
    (catalogue : list badges.Row) (t : list user_badges.Row) :
  unique_pairs t ->
  (forall u' b, (count_pair u' b (evaluate_repeatedly ds u s catalogue t) <= 1)%nat)
  /\ (forall d d',
        evaluateBadges d' u s catalogue (snd (evaluateBadges d u s catalogue t))
        = ([], snd (evaluateBadges d u s catalogue t)))
  /\ (forall d d' b, grantBadge d' u b (grantBadge d u b t) = grantBadge d u b t).
Proof.
  intros H. split; [|split].
  - intros u' b. now apply evaluate_repeatedly_unique.
  - intros d d'. unfold evaluateBadges at 1.
    apply fold_nothing_new. intros b Hb. simpl.
    unfold evaluateBadges. now apply fold_settles.
  - intros d d' b. apply grantBadge_again.
Qed.

Lemma badge_grants_idempotent_witness :
  unique_pairs []
  /\ (count_pair Seed.alice (badges.id Seed.first_debug)
        (evaluate_repeatedly [Seed.today; Seed.today; Seed.today] Seed.alice
           Seed.alice_statistics [Seed.first_debug; Seed.streak_master] [])
      <= 1)%nat.
Proof.
  assert (H : unique_pairs []) by (intros u b; unfold count_pair; simpl; lia).
  split; [exact H|].
  apply (@badge_grants_idempotent [Seed.today; Seed.today; Seed.today] Seed.alice
           Seed.alice_statistics [Seed.first_debug; Seed.streak_master] [] H).
Defined.

(** Three evaluations grant 'First Debug' once, and 'Streak Master' not at
    all at a streak of 9. *)
Example three_evaluations :
  map user_badges.badge_id
    (evaluate_repeatedly [Seed.today; Seed.today; Seed.today] Seed.alice
       Seed.alice_statistics [Seed.first_debug; Seed.streak_master] [])
  = [badges.id Seed.first_debug].
Proof. reflexivity. Qed.

End Granting.

(* ================================================================= *)
(** * Further properties of the Challenge page *)

Section OuterWhiteSpace.

Import Challenge.

Lemma white_app (a b : jsstring) : white a -> white b -> white (a ++ b).
Proof.
  unfold white. intros Ha Hb. rewrite forallb_app, Ha, Hb. reflexivity.
Qed.

(** White space around a string does not change what [trim] gives. *)
Lemma trim_outer_white (pre s post : jsstring) :
  white pre -> white post -> trim (pre ++ s ++ post) = trim s.
Proof.
  intros Wpre Wpost.
  destruct (proj1 (trim_spec s (trim s)) eq_refl) as [Ht (p1 & p2 & E & W1 & W2)].
  apply trim_spec. split; [exact Ht|].
  exists (pre ++ p1), (p2 ++ post).
  split; [|split; now apply white_app].
  rewrite E at 1. now rewrite <- !app_assoc.
Qed.

Lemma trim_idempotent (s : jsstring) : trim (trim s) = trim s.
Proof. apply trimmed_fixed, trim_trimmed. Qed.

Lemma verdict_by_trim (st : State) (l : Lesson) :
  currentLesson st = Some l ->
  verdict (checkSolution st)
  = if streq (trim (output st)) (trim (expected_output l)) then Pass else Fail.
Proof.
  intros H. unfold verdict. now rewrite (@save_called_iff st l H).
Qed.

(** X1.  White space added in front of or behind the output, or in front of
    or behind the expected output of the lesson, does not change the
    verdict of the check. *)
Theorem verdict_ignores_outer_white (st st' : State) (l l' : Lesson)
    (pre post pre' post' : jsstring) :
  currentLesson st = Some l ->
  currentLesson st' = Some l' ->
  white pre -> white post -> white pre' -> white post' ->
  output st' = pre ++ output st ++ post ->
  expected_output l' = pre' ++ expected_output l ++ post' ->
  verdict (checkSolution st') = verdict (checkSolution st).
Proof.
  intros H H' W1 W2 W3 W4 Eo Ee.
  rewrite (@verdict_by_trim st l H), (@verdict_by_trim st' l' H').
  rewrite Eo, Ee, !trim_outer_white by assumption. reflexivity.
Qed.

End OuterWhiteSpace.

Lemma verdict_ignores_outer_white_witness :
  Challenge.verdict
    (Challenge.checkSolution
       (Challenge.setOutput ([LF] ++ lit "20" ++ lit "  ")
          (Seed.opened Seed.variable_scope)))
  = Challenge.verdict
      (Challenge.checkSolution
         (Challenge.setOutput (lit "20") (Seed.opened Seed.variable_scope))).
Proof.
  apply (@verdict_ignores_outer_white
           (Challenge.setOutput (lit "20") (Seed.opened Seed.variable_scope))
           (Challenge.setOutput ([LF] ++ lit "20" ++ lit "  ")
              (Seed.opened Seed.variable_scope))
           Seed.variable_scope Seed.variable_scope [LF] (lit "  ") [] []);
    reflexivity.
Defined.

Section PythonSimulation.

Import Challenge.

Lemma runCode_special (st : State) (l : Lesson) :
  currentLesson st = Some l ->
  language l = python -> title l = off_by_one_title ->
  runCode st
  = setIsRunning false
      (if includes (trim (code st)) (lit "range(1, 6)")
       then setOutput (trim (expected_output l)) st
       else if includes (trim (code st)) (lit "range(1, 7)")
            then setOutput one_to_six st
            else setOutput (lit "Error: Invalid code or syntax error") st).
Proof.
  intros H Hl Ht. unfold runCode, runCode_timer.
  rewrite H, Hl, Ht, !streq_refl. cbn [andb].
  destruct (includes (trim (code st)) (lit "range(1, 6)"));
    [|destruct (includes (trim (code st)) (lit "range(1, 7)"))]; reflexivity.
Qed.

(** X2.  For the Python lesson 'Off-by-One Error in Loop', code that holds
    'range(1, 6)' makes the simulated run print the trimmed expected
    output, also when it holds 'range(1, 7)' as well, and the check that
    follows passes. *)
Theorem fixed_range_passes (st : State) (l : Lesson) :
  currentLesson st = Some l ->
  language l = python -> title l = off_by_one_title ->
  includes (trim (code st)) (lit "range(1, 6)") = true ->
  output (runCode st) = trim (expected_output l)
  /\ verdict (checkSolution (runCode st)) = Pass.
Proof.
  intros H Hl Ht Hi.
  rewrite (runCode_special st H Hl Ht), Hi.
  split; [reflexivity|].
  rewrite (@verdict_by_trim _ l) by exact H.
  simpl output. now rewrite trim_idempotent, streq_refl.
Qed.

(** X3.  For the same lesson, code without 'range(1, 6)' gets one of two
    fixed outputs, whatever the lesson expects: the numbers 1 to 6 when
    it holds 'range(1, 7)', the error text otherwise; the check passes
    only if the trimmed expected output is that very text. *)
Theorem unfixed_range_output (st : State) (l : Lesson) :
  currentLesson st = Some l ->
  language l = python -> title l = off_by_one_title ->
  includes (trim (code st)) (lit "range(1, 6)") = false ->
  output (runCode st)
  = (if includes (trim (code st)) (lit "range(1, 7)") then one_to_six
     else lit "Error: Invalid code or syntax error")
  /\ (verdict (checkSolution (runCode st)) = Pass
      <-> trim (expected_output l) = output (runCode st)).
Proof.
  intros H Hl Ht Hi.
  rewrite (runCode_special st H Hl Ht), Hi.
  assert (Hcur : forall o, currentLesson (setIsRunning false (setOutput o st)) = Some l)
    by (intros o; exact H).
  destruct (includes (trim (code st)) (lit "range(1, 7)"));
    (split; [reflexivity|]);
    rewrite (@verdict_by_trim _ l (Hcur _)); simpl output.
  - change (trim one_to_six) with one_to_six.
    destruct (streq _ _) eqn:E.
    + apply streq_eq in E. split; congruence.
    + apply streq_neq in E. split; [discriminate|congruence].
  - change (trim (lit "Error: Invalid code or syntax error"))
      with (lit "Error: Invalid code or syntax error").
    destruct (streq _ _) eqn:E.
    + apply streq_eq in E. split; congruence.
    + apply streq_neq in E. split; [discriminate|congruence].
Qed.

End PythonSimulation.

Lemma fixed_range_passes_witness :
  Challenge.verdict
    (Challenge.checkSolution
       (Challenge.runCode
          (Challenge.setCode (lit "for i in range(1, 6): print(i) # was range(1, 7)")
             (Seed.opened Seed.off_by_one))))
  = Challenge.Pass.
Proof.
  apply (@fixed_range_passes
           (Challenge.setCode (lit "for i in range(1, 6): print(i) # was range(1, 7)")
              (Seed.opened Seed.off_by_one))
           Seed.off_by_one); reflexivity.
Defined.

Lemma unfixed_range_output_witness :
  Challenge.output (Challenge.runCode (Seed.opened Seed.off_by_one))
  = Challenge.one_to_six.
Proof.
  apply (@unfixed_range_output (Seed.opened Seed.off_by_one) Seed.off_by_one);
    reflexivity.
Defined.

Section Hints.

Import Challenge Session.

Local Open Scope Z_scope.

Lemma array_get_set (i j : nat) (a : list bool) :
  array_get j (array_set i true a) = if Nat.eqb j i then true else array_get j a.
Proof.
  unfold array_get. revert j a.
  induction i as [|i IH]; intros j a; destruct a as [|x a], j as [|j]; simpl;
    try reflexivity.
  - now destruct j.
  - rewrite IH. destruct (Nat.eqb j i); [reflexivity|now destruct j].
  - apply IH.
Qed.

Lemma shown_cons (x : bool) (a : list bool) :
  shown (x :: a) = (if x then 1 else 0) + shown a.
Proof. unfold shown. simpl. destruct x; simpl List.length; lia. Qed.

Lemma shown_set (i : nat) (a : list bool) :
  shown (array_set i true a) = shown a + if array_get i a then 0 else 1.
Proof.
  revert a. induction i as [|i IH]; intros a; destruct a as [|x a].
  - reflexivity.
  - unfold array_get. simpl array_set. simpl nth. rewrite !shown_cons.
    destruct x; lia.
  - simpl array_set. rewrite shown_cons, IH. unfold array_get. simpl.
    now destruct i.
  - simpl array_set. rewrite !shown_cons, IH. unfold array_get. simpl. lia.
Qed.

Lemma array_set_twice (i : nat) (a : list bool) :
  array_set i true (array_set i true a) = array_set i true a.
Proof.
  revert a. induction i as [|i IH]; intros a; destruct a as [|x a]; simpl;
    try reflexivity; now rewrite IH.
Qed.

Lemma array_set_swap (i j : nat) (a : list bool) :
  array_set i true (array_set j true a) = array_set j true (array_set i true a).
Proof.
  revert j a. induction i as [|i IH]; intros j a; destruct j as [|j], a as [|x a];
    simpl; try reflexivity; now rewrite IH.
Qed.

Lemma hintsUsed_shown (st : State) : hintsUsed st = shown (showHints st).
Proof. reflexivity. Qed.

(** X4.  Showing hint [index] marks that slot and no other, also past the
    end of the array, where the slots in between stay unrevealed; the
    number of hints used goes up by one if the hint was hidden and stays
    if it was shown already. *)
Theorem showHint_counts_once (index : nat) (st : State) :
  (forall j, revealed (showHint index st) j
             = if Nat.eqb j index then true else revealed st j)
  /\ hintsUsed (showHint index st)
     = hintsUsed st + (if revealed st index then 0 else 1).
Proof.
  split.
  - intros j. unfold revealed, showHint. simpl. apply array_get_set.
  - rewrite !hintsUsed_shown. unfold revealed, showHint. simpl. apply shown_set.
Qed.

(** X5.  Showing a hint twice is showing it once, and two hints can be
    shown in either order with the same state as the result. *)
Theorem showHint_order_free (i j : nat) (st : State) :
  showHint i (showHint i st) = showHint i st
  /\ showHint i (showHint j st) = showHint j (showHint i st).
Proof.
  unfold showHint, setShowHints. simpl. split.
  - now rewrite array_set_twice.
  - now rewrite array_set_swap.
Qed.

Lemma checkSolution_showHints (st : State) (l : Lesson) :
  currentLesson st = Some l ->
  showHints (fst (checkSolution st))
  = if auto_revealed (checkSolution st) then array_set 0 true (showHints st)
    else showHints st.
Proof.
  intros H. unfold auto_revealed, checkSolution. rewrite H.
  destruct (streq _ _); simpl.
  - destruct (isFirstChallenge st); reflexivity.
  - destruct (_ && _); reflexivity.
Qed.

(** X6.  A hint that a check reveals by itself counts as a hint used: after
    such a check at least one hint is used, one more than before unless
    hint 0 was shown already; a check that reveals nothing leaves the
    number as it was. *)
Theorem auto_hint_is_counted (st : State) (l : Lesson) :
  currentLesson st = Some l ->
  hintsUsed (fst (checkSolution st))
  = hintsUsed st
    + (if auto_revealed (checkSolution st)
       then (if revealed st 0 then 0 else 1) else 0)
  /\ (auto_revealed (checkSolution st) = true ->
      1 <= hintsUsed (fst (checkSolution st))).
Proof.
  intros H.
  assert (E : hintsUsed (fst (checkSolution st))
              = hintsUsed st
                + (if auto_revealed (checkSolution st)
                   then (if revealed st 0 then 0 else 1) else 0)).
  { rewrite !hintsUsed_shown, (checkSolution_showHints st H).
    destruct (auto_revealed _); [apply shown_set|lia]. }
  split; [exact E|].
  intros Ha. rewrite E, Ha.
  assert (Hn : 0 <= hintsUsed st) by (unfold hintsUsed; lia).
  destruct (revealed st 0) eqn:R; [|lia].
  assert (1 <= hintsUsed st); [|lia].
  rewrite hintsUsed_shown. unfold revealed, array_get in R.
  destruct (showHints st) as [|x a]; simpl in R; [discriminate|].
  subst x. rewrite shown_cons. unfold shown. lia.
Qed.

End Hints.

Lemma auto_hint_is_counted_witness :
  (1 <= Challenge.hintsUsed
          (fst (Challenge.checkSolution
                  (Challenge.setAttempts 1
                     (Challenge.setOutput Challenge.one_to_six
                        (Seed.opened Seed.off_by_one))))))%Z.
Proof.
  apply (@auto_hint_is_counted
           (Challenge.setAttempts 1
              (Challenge.setOutput Challenge.one_to_six (Seed.opened Seed.off_by_one)))
           Seed.off_by_one eq_refl).
  reflexivity.
Defined.

Section Sessions.

Import Challenge Session.

Local Open Scope Z_scope.

Lemma runCode_keeps (st : State) :
  currentLesson (runCode st) = currentLesson st
  /\ lessons (runCode st) = lessons st
  /\ attempts (runCode st) = attempts st
  /\ showHints (runCode st) = showHints st
  /\ code (runCode st) = code st.
Proof.
  unfold runCode, runCode_timer, runCode_click.
  destruct (currentLesson st) as [l|] eqn:E.
  - destruct (streq (language l) python && streq (title l) off_by_one_title);
      [destruct (includes (trim (code st)) (lit "range(1, 6)"));
       [|destruct (includes (trim (code st)) (lit "range(1, 7)"))]|];
      simpl; rewrite ?E; repeat split.
  - simpl. rewrite E. repeat split.
Qed.

Lemma step_keeps_lesson (a : Action) (st : State) :
  currentLesson (fst (step a st)) = currentLesson st
  /\ lessons (fst (step a st)) = lessons st.
Proof.
  destruct a; simpl; try (split; reflexivity).
  - destruct (runCode_keeps st) as (H1 & H2 & _). now split.
  - unfold checkSolution. destruct (currentLesson st) as [l|] eqn:E; simpl.
    + destruct (streq _ _); [|destruct (_ && _)]; simpl; rewrite ?E; now split.
    + rewrite E. now split.
  - unfold resetCode. destruct (currentLesson st) as [l|] eqn:E; simpl;
      rewrite ?E; now split.
Qed.

Lemma step_attempts (a : Action) (st : State) (l : Lesson) :
  currentLesson st = Some l ->
  attempts (fst (step a st)) = attempts_after (attempts st) [a].
Proof.
  intros H. destruct a; simpl; try reflexivity.
  - apply runCode_keeps.
  - unfold checkSolution. rewrite H.
    destruct (streq _ _); [|destruct (_ && _)]; reflexivity.
  - unfold resetCode. now rewrite H.
Qed.

Lemma step_saved (a : Action) (st : State) :
  saved_counts (snd (step a st)) = []
  \/ saved_counts (snd (step a st)) = [attempts st + 1].
Proof.
  destruct a; simpl; auto.
  unfold checkSolution. destruct (currentLesson st); simpl; auto.
  destruct (streq _ _); simpl.
  - right. destruct (isFirstChallenge st); reflexivity.
  - left. destruct (_ && _); reflexivity.
Qed.

Lemma saved_counts_app (e1 e2 : list Effect) :
  saved_counts (e1 ++ e2) = saved_counts e1 ++ saved_counts e2.
Proof.
  induction e1 as [|e e1 IH]; simpl; [reflexivity|].
  destruct e; simpl; now rewrite IH.
Qed.

Lemma attempts_after_nonneg (acts : list Action) (n : Z) :
  0 <= n -> 0 <= attempts_after n acts.
Proof.
  revert n. induction acts as [|a acts IH]; intros n Hn; simpl; [exact Hn|].
  destruct a; apply IH; lia.
Qed.

(** X7.  While a lesson is open, whatever the user does on the page
    (editing, running, checking, showing hints, resetting), the lesson and
    the list of lessons stay the same; the attempt counter is the number
    of checks since the last reset, on top of its start value before any
    reset; and, starting from a counter that is not negative, every call
    of [saveProgress] carries an attempt count of at least 1. *)
Theorem session_counts_checks (acts : list Action) (st : State) (l : Lesson) :
  currentLesson st = Some l ->
  0 <= attempts st ->
  currentLesson (fst (run acts st)) = Some l
  /\ lessons (fst (run acts st)) = lessons st
  /\ attempts (fst (run acts st)) = attempts_after (attempts st) acts
  /\ Forall (fun n => 1 <= n) (saved_counts (snd (run acts st))).
Proof.
  revert st. induction acts as [|a acts IH]; intros st H Hn; simpl.
  - repeat split; [exact H|constructor].
  - destruct (step a st) as [st1 e1] eqn:Es.
    destruct (run acts st1) as [st2 e2] eqn:Er.
    pose proof (step_keeps_lesson a st) as [Hk1 Hk2].
    pose proof (step_attempts a st H) as Ha.
    pose proof (step_saved a st) as Hs.
    rewrite Es in Hk1, Hk2, Ha, Hs. simpl fst in Hk1, Hk2, Ha. simpl snd in Hs.
    assert (H1 : currentLesson st1 = Some l) by congruence.
    assert (Hn1 : 0 <= attempts st1).
    { rewrite Ha. now apply attempts_after_nonneg. }
    destruct (IH st1 H1 Hn1) as (I1 & I2 & I3 & I4).
    rewrite Er in I1, I2, I3, I4. simpl fst in *. simpl snd in *.
    split; [exact I1|]. split; [congruence|]. split.
    + rewrite I3, Ha. destruct a; reflexivity.
    + rewrite saved_counts_app. apply Forall_app. split; [|exact I4].
      destruct Hs as [-> | ->]; [constructor|].
      constructor; [lia|constructor].
Qed.

End Sessions.

Lemma session_counts_checks_witness :
  Challenge.attempts
    (fst (Session.run
            [Session.Run; Session.Check; Session.Hint 1; Session.Check;
             Session.Reset; Session.Run; Session.Check]
            (Seed.opened Seed.off_by_one)))
  = 1%Z.
Proof.
  destruct (@session_counts_checks
              [Session.Run; Session.Check; Session.Hint 1; Session.Check;
               Session.Reset; Session.Run; Session.Check]
              (Seed.opened Seed.off_by_one) Seed.off_by_one eq_refl)
    as (_ & _ & H & _).
  - vm_compute. discriminate.
  - exact H.
Defined.

Section MovingOn.

Import Challenge Session.

Local Open Scope Z_scope.

Lemma findIndex_from_found (A : Type) (p : A -> bool) (before : list A) (x : A)
    (rest : list A) (i : Z) :
  (forall y, In y before -> p y = false) -> p x = true ->
  findIndex_from i p (before ++ x :: rest) = i + Z.of_nat (List.length before).
Proof.
  revert i. induction before as [|y before IH]; intros i Hb Hx; simpl.
  - rewrite Hx. lia.
  - rewrite (Hb y (or_introl eq_refl)).
    rewrite IH; [lia| |exact Hx]. intros z Hz. apply Hb. now right.
Qed.

Lemma findIndex_from_none (A : Type) (p : A -> bool) (a : list A) (i : Z) :
  (forall y, In y a -> p y = false) -> findIndex_from i p a = -1.
Proof.
  revert i. induction a as [|y a IH]; intros i Ha; simpl; [reflexivity|].
  rewrite (Ha y (or_introl eq_refl)). apply IH. intros z Hz. apply Ha. now right.
Qed.

(** X8.  When the timer of a passed check fires and the lesson that was
    current in its render is in the list, the lesson after its first
    occurrence is handed to [setCurrentLesson]: it is opened afresh, unless
    it is the object already current, in which case the page stays as it
    is; if the lesson was the last of the list, no lesson is opened and
    'All challenges completed!' is shown. *)
Theorem moveOn_follows_list (already_current : bool) (seen st : State)
    (current here : Lesson) (before rest : list Lesson) :
  currentLesson seen = Some current ->
  lessons seen = before ++ here :: rest ->
  id here = id current ->
  (forall l, In l before -> id l <> id current) ->
  moveOn already_current seen st
  = match rest with
    | next :: _ =>
      (if already_current then st else openLesson next st, Some (moved_to next))
    | [] => (st, Some toastAllCompleted)
    end.
Proof.
  intros Hc Hl Hid Hb. unfold moveOn, findIndex. rewrite Hc, Hl.
  rewrite findIndex_from_found.
  - rewrite length_app. simpl List.length.
    destruct rest as [|next rest'].
    + replace (_ <? _) with false; [reflexivity|].
      symmetry. apply Z.ltb_ge. simpl List.length. lia.
    + replace (_ <? _) with true
        by (symmetry; apply Z.ltb_lt; simpl List.length; lia).
      replace (Z.to_nat (0 + Z.of_nat (List.length before) + 1))
        with (List.length before + 1)%nat by lia.
      rewrite nth_error_app2 by lia.
      replace (List.length before + 1 - List.length before)%nat with 1%nat by lia.
      reflexivity.
  - intros y Hy. apply streq_neq. now apply Hb.
  - apply streq_eq. exact Hid.
Qed.

(** X9.  When the lesson that was current in the timer's render is not in
    the list, as after a change of language, the timer hands the first
    lesson of the list to [setCurrentLesson]: it is opened afresh, unless
    it is the object already current, as when a second timer of the same
    render fires; with an empty list 'All challenges completed!' is
    shown. *)
Theorem moveOn_restarts_list (already_current : bool) (seen st : State)
    (current : Lesson) :
  currentLesson seen = Some current ->
  (forall l, In l (lessons seen) -> id l <> id current) ->
  moveOn already_current seen st
  = match lessons seen with
    | first :: _ =>
      (if already_current then st else openLesson first st,
       Some (moved_to first))
    | [] => (st, Some toastAllCompleted)
    end.
Proof.
  intros Hc Hn. unfold moveOn, findIndex. rewrite Hc.
  rewrite findIndex_from_none.
  - destruct (lessons seen) as [|first rest]; [reflexivity|].
    replace (_ <? _) with true; [reflexivity|].
    symmetry. apply Z.ltb_lt. simpl List.length. lia.
  - intros y Hy. apply streq_neq. now apply Hn.
Qed.

End MovingOn.

Lemma moveOn_follows_list_witness :
  Session.moveOn false (Seed.opened Seed.off_by_one)
    (Challenge.setAttempts 1
       (Challenge.setOutput (Challenge.expected_output Seed.off_by_one)
          (Seed.opened Seed.off_by_one)))
  = (Seed.opened Seed.variable_scope, Some (Session.moved_to Seed.variable_scope))
  /\ Session.moveOn true (Seed.opened Seed.off_by_one)
       (Challenge.setCode (lit "print(20)") (Seed.opened Seed.variable_scope))
     = (Challenge.setCode (lit "print(20)") (Seed.opened Seed.variable_scope),
        Some (Session.moved_to Seed.variable_scope)).
Proof.
  split.
  - rewrite (@moveOn_follows_list false (Seed.opened Seed.off_by_one)
               (Challenge.setAttempts 1
                  (Challenge.setOutput (Challenge.expected_output Seed.off_by_one)
                     (Seed.opened Seed.off_by_one)))
               Seed.off_by_one Seed.off_by_one [] [Seed.variable_scope]
               eq_refl eq_refl eq_refl (fun l (H : In l []) => match H with end)).
    reflexivity.
  - rewrite (@moveOn_follows_list true (Seed.opened Seed.off_by_one)
               (Challenge.setCode (lit "print(20)")
                  (Seed.opened Seed.variable_scope))
               Seed.off_by_one Seed.off_by_one [] [Seed.variable_scope]
               eq_refl eq_refl eq_refl (fun l (H : In l []) => match H with end)).
    reflexivity.
Defined.

Lemma moveOn_restarts_list_witness :
  Session.moveOn false (Seed.opened Seed.memory_leak) (Seed.opened Seed.memory_leak)
  = (Challenge.openLesson Seed.off_by_one (Seed.opened Seed.memory_leak),
     Some (Session.moved_to Seed.off_by_one)).
Proof.
  apply (@moveOn_restarts_list false (Seed.opened Seed.memory_leak)
           (Seed.opened Seed.memory_leak) Seed.memory_leak eq_refl).
  intros l [<-|[<-|[]]]; vm_compute; discriminate.
Defined.

Section Catalogue.

Import Challenge Session.

Local Open Scope Z_scope.

Local Abbreviation by_order :=
  (fun a b : lessons.Row => lessons.order_index a <= lessons.order_index b).

Lemma insert_by_order_perm (r : lessons.Row) (l : list lessons.Row) :
  Permutation (insert_by_order r l) (r :: l).
Proof.
  induction l as [|h t IH]; simpl; [reflexivity|].
  destruct (_ <=? _); [reflexivity|].
  rewrite IH. apply perm_swap.
Qed.

Lemma insert_by_order_sorted (r : lessons.Row) (l : list lessons.Row) :
  StronglySorted by_order l -> StronglySorted by_order (insert_by_order r l).
Proof.
  induction 1 as [|h t Ht IH Hh]; simpl.
  - constructor; constructor.
  - destruct (_ <=? _) eqn:E.
    + apply Z.leb_le in E.
      constructor; [constructor; assumption|].
      constructor; [exact E|].
      eapply Forall_impl; [|exact Hh]. simpl. intros; lia.
    + apply Z.leb_gt in E.
      constructor; [exact IH|].
      eapply Permutation_Forall; [symmetry; apply insert_by_order_perm|].
      constructor; [lia|exact Hh].
Qed.

Lemma lessons_of_language_spec (lang : jsstring) (t : list lessons.Row) :
  Permutation (lessons_of_language lang t)
    (filter (fun r => streq (lessons.language r) lang) t)
  /\ StronglySorted by_order (lessons_of_language lang t).
Proof.
  unfold lessons_of_language.
  induction (filter _ t) as [|r rows [IHp IHs]]; simpl.
  - split; constructor.
  - split.
    + rewrite insert_by_order_perm. now constructor.
    + now apply insert_by_order_sorted.
Qed.

(** X10.  Fetching the lessons of a language sets the list to the rows of
    that language, each once, in ascending order of [order_index]; and if
    no lesson is current, the first of them, if any, is opened with its
    starter code, no output, no hint and no attempt. *)
Theorem fetchLessons_lists_language (lang : jsstring) (t : list lessons.Row)
    (st : State) :
  (exists rows,
      lessons (fetchLessons lang t st) = map as_lesson rows
      /\ Permutation rows (filter (fun r => streq (lessons.language r) lang) t)
      /\ StronglySorted
           (fun a b => lessons.order_index a <= lessons.order_index b) rows)
  /\ (forall l, In l (lessons (fetchLessons lang t st)) -> language l = lang)
  /\ (currentLesson st = None ->
      match lessons (fetchLessons lang t st) with
      | first :: _ =>
        fetchLessons lang t st
        = openLesson first (setLessons (lessons (fetchLessons lang t st)) st)
        /\ code (fetchLessons lang t st) = starter_code first
        /\ attempts (fetchLessons lang t st) = 0
      | [] => currentLesson (fetchLessons lang t st) = None
      end).
Proof.
  destruct (lessons_of_language_spec lang t) as [Hp Hs].
  assert (Hl : lessons (fetchLessons lang t st)
               = map as_lesson (lessons_of_language lang t)).
  { unfold fetchLessons.
    destruct (map as_lesson (lessons_of_language lang t)) as [|f r];
      [reflexivity|]. destruct (currentLesson st); reflexivity. }
  split; [exists (lessons_of_language lang t); now repeat split|].
  split.
  - intros l Hin. rewrite Hl in Hin. apply in_map_iff in Hin as [r [<- Hr]].
    apply (Permutation_in _ Hp) in Hr. apply filter_In in Hr as [_ Hr].
    now apply streq_eq in Hr.
  - intros Hnone. rewrite Hl. unfold fetchLessons. rewrite Hnone.
    destruct (map as_lesson (lessons_of_language lang t)) as [|f r];
      simpl; [exact Hnone|]. repeat split.
Qed.


End Catalogue.

Section FirstChallenge.

Import Challenge Session.

(** X12.  A check triggers the confetti exactly when it passes in a state
    whose first-challenge flag is set. *)
Theorem confetti_on_first_pass (st : State) (l : Lesson) :
  currentLesson st = Some l ->
  (In triggerConfetti (snd (checkSolution st))
   <-> verdict (checkSolution st) = Pass /\ isFirstChallenge st = true).
Proof.
  intros H. rewrite (@verdict_by_trim st l H).
  unfold checkSolution. rewrite H.
  destruct (streq _ _); simpl.
  - destruct (isFirstChallenge st); simpl; split; intros; intuition congruence.
  - destruct (_ && _); simpl; split; intros; intuition congruence.
Qed.



End FirstChallenge.

Lemma confetti_on_first_pass_witness :
  In Challenge.triggerConfetti
    (snd (Challenge.checkSolution
            (Session.setIsFirstChallenge true
               (Challenge.setOutput (lit "20") (Seed.opened Seed.variable_scope))))).
Proof.
  apply (@confetti_on_first_pass
           (Session.setIsFirstChallenge true
              (Challenge.setOutput (lit "20") (Seed.opened Seed.variable_scope)))
           Seed.variable_scope eq_refl).
  split; reflexivity.
Defined.


(* ================================================================= *)
(** * Further properties of saving progress *)

Section Constraints.

Import Challenge Scoring.

Local Open Scope Z_scope.

Lemma existsb_false_filter (A : Type) (f : A -> bool) (t : list A) :
  existsb f t = false -> filter f t = [].
Proof.
  induction t as [|x t IH]; simpl; [reflexivity|].
  destruct (f x); simpl; [discriminate|exact IH].
Qed.

Lemma same_pair_new_row (u l u' l' : uuid) (a h : option Z) (c : timestamptz)
    (i : uuid) (tt : option Z) :
  Query.same_pair u' l' (user_progress.mkRow a c h i l tt u) = true ->
  u' = u /\ l' = l.
Proof.
  unfold Query.same_pair. simpl. intros H.
  apply andb_true_iff in H as [Hu Hl]. apply streq_eq in Hu, Hl. now subst.
Qed.

Lemma insert_unique (d : Defaults) (u l : uuid) (h n : Z)
    (t : list user_progress.Row) :
  unique_progress t ->
  unique_progress (fst (Query.insert_user_progress d u l h n t)).
Proof.
  intros Hu u' l'. unfold Query.insert_user_progress.
  destruct (existsb (Query.same_pair u l) t) eqn:E; simpl; [apply Hu|].
  rewrite filter_app, length_app. simpl.
  destruct (Query.same_pair u' l' _) eqn:P; simpl.
  - apply same_pair_new_row in P as [-> ->].
    rewrite (existsb_false_filter _ _ E). simpl. lia.
  - pose proof (Hu u' l'). lia.
Qed.

Lemma insert_appends (d : Defaults) (u l : uuid) (h n : Z)
    (t : list user_progress.Row) :
  exists added,
    fst (Query.insert_user_progress d u l h n t) = t ++ added
    /\ (List.length added <= 1)%nat.
Proof.
  unfold Query.insert_user_progress. destruct (existsb _ t); simpl.
  - exists []. rewrite app_nil_r. split; [reflexivity|simpl; lia].
  - eexists. split; [reflexivity|simpl; lia].
Qed.

Lemma update_keeps_users (d : Defaults) (u : uuid) (c pts : Z)
    (t : list profiles.Row) :
  map profiles.user_id (fst (Query.update_profile_totals d u c pts t))
  = map profiles.user_id t.
Proof.
  unfold Query.update_profile_totals.
  destruct (Query.totals_fit c pts); cbn [fst]; [|reflexivity].
  rewrite map_map. apply map_ext.
  intros r. destruct (streq _ _); reflexivity.
Qed.

Lemma eq_user_by_ids (u : uuid) (t : list profiles.Row) :
  List.length (Query.profiles_eq_user_id u t)
  = List.length (filter (fun x => streq x u) (map profiles.user_id t)).
Proof.
  unfold Query.profiles_eq_user_id. induction t as [|r t IH]; simpl; [reflexivity|].
  destruct (streq _ _); simpl; now rewrite IH.
Qed.

(** The two tables after [saveProgress], in every case. *)
Lemma saveProgress_tables (user : option uuid) (st : State) (n : Z)
    (d : Defaults) (db : Store) :
  (tbl_user_progress (store (saveProgress user st n d db)) = tbl_user_progress db
   \/ exists u l, tbl_user_progress (store (saveProgress user st n d db))
                  = fst (Query.insert_user_progress d u l (hintsUsed st) n
                           (tbl_user_progress db)))
  /\ (tbl_profiles (store (saveProgress user st n d db)) = tbl_profiles db
      \/ exists u c pts, tbl_profiles (store (saveProgress user st n d db))
                         = fst (Query.update_profile_totals d u c pts
                                  (tbl_profiles db))).
Proof.
  unfold saveProgress.
  destruct user as [u|]; [|split; left; reflexivity].
  destruct (currentLesson st) as [l|]; [|split; left; reflexivity].
  destruct (Query.insert_user_progress _ _ _ _ _ _) as [progress ins] eqn:E.
  assert (Hp : progress = fst (Query.insert_user_progress d u (id l) (hintsUsed st) n
                                 (tbl_user_progress db))) by now rewrite E.
  destruct (data _) as [p|].
  - unfold write_totals.
    destruct (Query.update_profile_totals _ _ _ _ _) as [profiles' upd] eqn:U.
    simpl. split; [right; exists u, (id l); exact Hp|].
    right. exists u, (or0 (profiles.total_lessons_completed p) + 1),
                  (or0 (profiles.total_points p) + points l).
    now rewrite U.
  - simpl. split; [right; exists u, (id l); exact Hp|now left].
Qed.

(** X14.  [saveProgress] keeps both uniqueness constraints; it never
    creates, deletes or re-keys a profile; and it never changes or removes
    a progress row: the table afterwards is the table before with at most
    one row added at the end. *)
Theorem saveProgress_keeps_constraints (user : option uuid) (st : State) (n : Z)
    (d : Defaults) (db : Store) :
  unique_progress (tbl_user_progress db) ->
  unique_users (tbl_profiles db) ->
  unique_progress (tbl_user_progress (store (saveProgress user st n d db)))
  /\ unique_users (tbl_profiles (store (saveProgress user st n d db)))
  /\ map profiles.user_id (tbl_profiles (store (saveProgress user st n d db)))
     = map profiles.user_id (tbl_profiles db)
  /\ exists added,
       tbl_user_progress (store (saveProgress user st n d db))
       = tbl_user_progress db ++ added
       /\ (List.length added <= 1)%nat.
Proof.
  intros Hprog Husers.
  destruct (saveProgress_tables user st n d db) as [Hp Hu].
  assert (Hids : map profiles.user_id (tbl_profiles (store (saveProgress user st n d db)))
                 = map profiles.user_id (tbl_profiles db)).
  { destruct Hu as [->|(u & c & pts & ->)]; [reflexivity|apply update_keeps_users]. }
  split; [|split; [|split; [exact Hids|]]].
  - destruct Hp as [->|(u & l & ->)]; [exact Hprog|now apply insert_unique].
  - intros u. rewrite eq_user_by_ids, Hids, <- eq_user_by_ids. apply Husers.
  - destruct Hp as [->|(u & l & ->)]; [|apply insert_appends].
    exists []. rewrite app_nil_r. split; [reflexivity|simpl; lia].
Qed.


End Constraints.

Lemma saveProgress_keeps_constraints_witness :
  exists added,
    tbl_user_progress
      (Challenge.store
         (Challenge.saveProgress (Some Seed.alice) (Seed.opened Seed.variable_scope)
            1 Seed.today Seed.store_completed))
    = tbl_user_progress Seed.store_completed ++ added
    /\ (List.length added <= 1)%nat.
Proof.
  apply (@saveProgress_keeps_constraints (Some Seed.alice)
           (Seed.opened Seed.variable_scope) 1 Seed.today Seed.store_completed).
  - intros u l. etransitivity; [apply filter_length_le|]. simpl. lia.
  - intros u. etransitivity; [apply filter_length_le|]. simpl. lia.
Defined.


Section RepeatedCompletion.

Import Challenge Scoring.

Local Open Scope Z_scope.

Lemma existsb_filter_length (A : Type) (f : A -> bool) (t : list A) :
  existsb f t = true -> (1 <= List.length (filter f t))%nat.
Proof.
  induction t as [|x t IH]; simpl; [discriminate|].
  destruct (f x); simpl; [lia|exact IH].
Qed.

Lemma saveProgress_profile_after (u : uuid) (st : State) (l : Lesson) (n : Z)
    (d : Defaults) (db : Store) (p : profiles.Row) :
  currentLesson st = Some l ->
  Query.profiles_eq_user_id u (tbl_profiles db) = [p] ->
  Query.totals_fit (or0 (profiles.total_lessons_completed p) + 1)
    (or0 (profiles.total_points p) + points l) = true ->
  Query.profiles_eq_user_id u (tbl_profiles (store (saveProgress (Some u) st n d db)))
  = [Query.with_totals d (or0 (profiles.total_lessons_completed p) + 1)
       (or0 (profiles.total_points p) + points l) p].
Proof.
  intros Hl Hp F. rewrite (saveProgress_found u st n d db Hl Hp). simpl.
  unfold write_totals. now rewrite (@update_eq_user d u _ _ _ F), Hp.
Qed.




(** X17.  A profile as the sign-up trigger creates it starts with all four
    counters at 0, and the table stays unique in [user_id]; the first
    completion saved for that user, of a lesson whose points are an INTEGER
    as the column of [lessons] holds it, finds the profile and leaves it
    with the points of the lesson, one completion, and both streaks
    still 0. *)
Theorem first_completion_after_signup (d0 d : Defaults) (u : uuid)
    (name : option jsstring) (t t' : list profiles.Row)
    (progress : list user_progress.Row) (st : State) (l : Lesson) (n : Z) :
  handle_new_user d0 u name t = Some t' ->
  currentLesson st = Some l ->
  Query.int4 (points l) = true ->
  (unique_users t -> unique_users t')
  /\ Query.profiles_eq_user_id u t'
     = [profiles.mkRow None (Some 0) (now d0) (Some 0) (gen_random_uuid d0)
          (Some 0) (Some 0) (now d0) u name]
  /\ exists p',
       Query.profiles_eq_user_id u
         (tbl_profiles (store (saveProgress (Some u) st n d (mkStore t' progress))))
       = [p']
       /\ profiles.total_points p' = Some (points l)
       /\ profiles.total_lessons_completed p' = Some 1
       /\ profiles.current_streak p' = Some 0
       /\ profiles.best_streak p' = Some 0.
Proof.
  intros Hs Hl Hfit. unfold handle_new_user in Hs.
  destruct (existsb (fun r => streq (profiles.user_id r) u) t) eqn:Hex;
    [discriminate|].
  destruct (match name with Some _ => _ | None => _ end); [discriminate|].
  injection Hs as <-.
  assert (Hrow : Query.profiles_eq_user_id u
                   (t ++ [profiles.mkRow None (Some 0) (now d0) (Some 0)
                            (gen_random_uuid d0) (Some 0) (Some 0) (now d0) u name])
                 = [profiles.mkRow None (Some 0) (now d0) (Some 0)
                      (gen_random_uuid d0) (Some 0) (Some 0) (now d0) u name]).
  { unfold Query.profiles_eq_user_id.
    rewrite filter_app, (existsb_false_filter _ _ Hex). simpl.
    now rewrite streq_refl. }
  split; [|split; [exact Hrow|]].
  - intros Hu u'. unfold Query.profiles_eq_user_id.
    rewrite filter_app, length_app. simpl.
    destruct (streq u u') eqn:E; simpl.
    + apply streq_eq in E. subst u'.
      rewrite (existsb_false_filter _ _ Hex). simpl. lia.
    + pose proof (Hu u'). unfold Query.profiles_eq_user_id in *. lia.
  - eexists. split.
    + apply (@saveProgress_profile_after u st l n d (mkStore _ progress) _ Hl Hrow).
      unfold Query.totals_fit.
      cbn [profiles.total_lessons_completed profiles.total_points or0].
      rewrite !Z.add_0_l, Hfit. reflexivity.
    + simpl. repeat split; f_equal; lia.
Qed.

End RepeatedCompletion.


Lemma first_completion_after_signup_witness :
  exists p',
    Query.profiles_eq_user_id Seed.alice
      (tbl_profiles
         (Challenge.store
            (Challenge.saveProgress (Some Seed.alice)
               (Seed.opened Seed.variable_scope) 1 Seed.today
               (mkStore
                  (tbl_profiles Seed.store_no_profile
                   ++ [profiles.mkRow None (Some 0%Z) 1000%Z (Some 0%Z)
                         (lit "fresh-uuid") (Some 0%Z) (Some 0%Z) 1000%Z
                         Seed.alice (Some (lit "alice"))])
                  []))))
    = [p']
    /\ profiles.total_points p' = Some 15%Z
    /\ profiles.total_lessons_completed p' = Some 1%Z
    /\ profiles.current_streak p' = Some 0%Z
    /\ profiles.best_streak p' = Some 0%Z.
Proof.
  apply (@first_completion_after_signup Seed.today Seed.today Seed.alice
           (Some (lit "alice")) (tbl_profiles Seed.store_no_profile) _ []
           (Seed.opened Seed.variable_scope) Seed.variable_scope 1
           eq_refl eq_refl eq_refl).
Defined.

(* ================================================================= *)
(** * Further properties of the Leaderboard page *)

Section RankOrder.

Import Leaderboard Stats.

Local Open Scope Z_scope.

Lemma sorted_nth (A : Type) (R : A -> A -> Prop) (l : list A) (i j : nat) (x y : A) :
  StronglySorted R l -> (i < j)%nat ->
  nth_error l i = Some x -> nth_error l j = Some y -> R x y.
Proof.
  intros Hs. revert i j. induction Hs as [|h t Ht IH Hh]; intros i j Hij Hi Hj.
  - destruct i; discriminate.
  - destruct j as [|j]; [lia|]. destruct i as [|i]; simpl in Hi, Hj.
    + injection Hi as <-. rewrite Forall_forall in Hh. apply Hh.
      eapply nth_error_In; eassumption.
    + apply (IH i j); [lia|assumption|assumption].
Qed.

Lemma firstn_sorted (A : Type) (R : A -> A -> Prop) (n : nat) (l : list A) :
  StronglySorted R l -> StronglySorted R (firstn n l).
Proof.
  intros Hs. rewrite <- (firstn_skipn n l) in Hs.
  now apply sorted_app in Hs.
Qed.

Lemma leaderboard_sorted (t : list profiles.Row) :
  StronglySorted ge_points (fetchLeaderboard t).
Proof.
  unfold fetchLeaderboard, limit. apply rank_from_sorted, firstn_sorted, order_sorted.
Qed.

Lemma points_ge_refl (a : option Z) : points_ge a a = true.
Proof. destruct a; simpl; [apply Z.leb_refl|reflexivity]. Qed.

(** X18.  On the leaderboard an entry with strictly more points than
    another has the smaller rank. *)
Theorem more_points_ranks_higher (t : list profiles.Row) (i j : nat)
    (a b : LeaderboardUser) :
  nth_error (fetchLeaderboard t) i = Some a ->
  nth_error (fetchLeaderboard t) j = Some b ->
  points_ge (total_points b) (total_points a) = false ->
  rank a < rank b.
Proof.
  intros Ha Hb Hlt.
  assert (Hij : (i < j)%nat).
  { destruct (Nat.lt_trichotomy i j) as [H|[H|H]]; [exact H| |].
    - subst j. rewrite Ha in Hb. injection Hb as <-.
      rewrite points_ge_refl in Hlt. discriminate.
    - pose proof (sorted_nth (leaderboard_sorted t) H Hb Ha) as Hge.
      unfold ge_points in Hge. congruence. }
  unfold fetchLeaderboard in Ha, Hb.
  apply rank_from_nth in Ha as [Ra _]. apply rank_from_nth in Hb as [Rb _]. lia.
Qed.

(** X19.  Under the SELECT policy of [profiles] and [UNIQUE] on [user_id],
    whatever leaderboard the page may show to a caller holds the caller's
    own profile at rank 1 and nothing else; it is empty for a caller
    without a profile, and for a request without a session. *)
Theorem leaderboard_lists_caller_only (caller : option uuid)
    (t : list profiles.Row) (lb : list LeaderboardUser) :
  Scoring.unique_users t ->
  Policy.shows caller t lb ->
  (forall e, In e lb -> caller = Some (user_id e) /\ rank e = 1)
  /\ (List.length lb <= 1)%nat
  /\ (forall uid p,
        caller = Some uid -> Query.profiles_eq_user_id uid t = [p] ->
        lb = [mkLeaderboardUser uid (profiles.username p)
                (profiles.total_points p) (profiles.total_lessons_completed p)
                (profiles.current_streak p) 1])
  /\ (forall uid,
        caller = Some uid -> Query.profiles_eq_user_id uid t = [] -> lb = [])
  /\ (caller = None -> lb = []).
Proof.
  intros Hu Hlb. rewrite (@shown_rows caller t lb Hu Hlb).
  pose proof (@select_profiles_short caller t Hu) as Hlen.
  split; [|split; [now rewrite rank_from_length|split; [|split]]].
  - intros e He. destruct caller as [uid|]; [|destruct He].
    unfold Policy.select_profiles in *.
    destruct (filter _ t) as [|r [|r' rest]] eqn:E; simpl in Hlen, He;
      [destruct He| |lia].
    destruct He as [<-|[]]. simpl. split; [|reflexivity].
    assert (Hr : In r (filter (fun r => streq (profiles.user_id r) uid) t))
      by (rewrite E; now left).
    apply filter_In in Hr as [_ Hr]. apply streq_eq in Hr. now rewrite Hr.
  - intros uid p -> Hp. unfold Policy.select_profiles.
    unfold Query.profiles_eq_user_id in Hp. rewrite Hp. simpl.
    assert (Hr : In p (filter (fun r => streq (profiles.user_id r) uid) t))
      by (rewrite Hp; now left).
    apply filter_In in Hr as [_ Hr]. apply streq_eq in Hr. now rewrite Hr.
  - intros uid -> Hp. unfold Policy.select_profiles.
    unfold Query.profiles_eq_user_id in Hp. now rewrite Hp.
  - intros ->. reflexivity.
Qed.

(** X20.  The trophy, the medal and the award go to the first three entries
    of the leaderboard in this order, and every later entry shows its rank
    as a number. *)
Theorem icons_follow_position (t : list profiles.Row) (k : nat)
    (e : LeaderboardUser) :
  nth_error (fetchLeaderboard t) k = Some e ->
  getRankIcon (rank e)
  = match k with
    | 0%nat => Trophy
    | 1%nat => Medal
    | 2%nat => Award
    | _ => Number (Z.of_nat k + 1)
    end.
Proof.
  intros H. unfold fetchLeaderboard in H. apply rank_from_nth in H as [Hr _].
  rewrite Hr. unfold getRankIcon.
  destruct k as [|[|[|k]]]; try reflexivity.
  replace (0 + Z.of_nat (S (S (S k))) + 1 =? 1) with false
    by (symmetry; apply Z.eqb_neq; lia).
  replace (0 + Z.of_nat (S (S (S k))) + 1 =? 2) with false
    by (symmetry; apply Z.eqb_neq; lia).
  replace (0 + Z.of_nat (S (S (S k))) + 1 =? 3) with false
    by (symmetry; apply Z.eqb_neq; lia).
  f_equal.
Qed.

End RankOrder.

Lemma more_points_ranks_higher_witness :
  (Leaderboard.rank
     (Leaderboard.mkLeaderboardUser Seed.alice None (Some 60%Z) (Some 4%Z)
        (Some 9%Z) 1%Z)
   < Leaderboard.rank
       (Leaderboard.mkLeaderboardUser Seed.bob None (Some 10%Z) (Some 1%Z)
          (Some 1%Z) 2%Z))%Z.
Proof.
  exact (@more_points_ranks_higher (tbl_profiles Seed.store_streak9) 0 1
           (Leaderboard.mkLeaderboardUser Seed.alice None (Some 60%Z) (Some 4%Z)
              (Some 9%Z) 1%Z)
           (Leaderboard.mkLeaderboardUser Seed.bob None (Some 10%Z) (Some 1%Z)
              (Some 1%Z) 2%Z)
           eq_refl eq_refl eq_refl).
Defined.

Lemma leaderboard_lists_caller_only_witness :
  Leaderboard.fetchLeaderboard
    (Policy.select_profiles (Some Seed.alice) Seed.bob_leads)
  = [Leaderboard.mkLeaderboardUser Seed.alice None (Some 10%Z) (Some 1%Z)
       (Some 1%Z) 1%Z].
Proof.
  destruct (@leaderboard_lists_caller_only (Some Seed.alice) Seed.bob_leads _
              two_users_unique
              (fetchLeaderboard_shown (Some Seed.alice) Seed.bob_leads))
    as (_ & _ & Hown & _).
  exact (Hown Seed.alice (Seed.profile_of Seed.alice 10 1 10 1 1)%Z
           eq_refl eq_refl).
Defined.

Lemma icons_follow_position_witness :
  Stats.getRankIcon
    (Leaderboard.rank
       (Leaderboard.mkLeaderboardUser Seed.alice None (Some 100%Z) (Some 7%Z)
          (Some 1%Z) 2%Z))
  = Stats.Medal.
Proof.
  exact (@icons_follow_position Seed.tied_profiles 1
           (Leaderboard.mkLeaderboardUser Seed.alice None (Some 100%Z) (Some 7%Z)
              (Some 1%Z) 2%Z) eq_refl).
Defined.

Section Counting.

Import Leaderboard Stats.

Local Open Scope Z_scope.

Lemma assign_keys_iff (k k' : jsstring) (v : Z) (m : Counts) :
  In k' (map fst (assign k v m)) <-> k' = k \/ In k' (map fst m).
Proof.
  rewrite assign_keys.
  destruct (existsb _ _) eqn:E.
  - apply existsb_streq in E. split; [now right|]. intros [->|H]; assumption.
  - rewrite in_app_iff. simpl. split.
    + intros [H|[<-|[]]]; [now right|now left].
    + intros [->|H]; [right; now left|now left].
Qed.

Lemma total_assign (k : jsstring) (v : Z) (m : Counts) :
  total (assign k v m) = total m - lookup0 k m + v.
Proof.
  induction m as [|[k0 v0] m IH]; simpl; [lia|].
  destruct (streq k0 k); simpl; [lia|]. rewrite IH. lia.
Qed.

Lemma total_bump (k : jsstring) (m : Counts) : total (bump k m) = total m + 1.
Proof. unfold bump. rewrite total_assign. lia. Qed.

Lemma total_app (a b : list (jsstring * Z)) : total (a ++ b) = total a + total b.
Proof.
  induction a as [|[k v] a IH]; simpl; [reflexivity|]. rewrite IH. lia.
Qed.

Lemma total_perm (a b : list (jsstring * Z)) :
  Permutation a b -> total a = total b.
Proof.
  induction 1 as [|[k v] a b _ IH|[k v] [k' v'] a|a b c _ IH1 _ IH2]; simpl;
    lia.
Qed.

Lemma occurrences_cons (k k0 : jsstring) (keys : list jsstring) :
  occurrences k (k0 :: keys) = (if streq k0 k then 1 else 0) + occurrences k keys.
Proof.
  unfold occurrences. simpl. destruct (streq k0 k); simpl List.length; lia.
Qed.

Lemma occurrences_pos (k : jsstring) (keys : list jsstring) :
  In k keys -> 1 <= occurrences k keys.
Proof.
  induction keys as [|k0 keys IH]; intros Hin; [destruct Hin|].
  rewrite occurrences_cons.
  assert (0 <= occurrences k keys) by (unfold occurrences; lia).
  destruct Hin as [->|Hin].
  - rewrite streq_refl. lia.
  - specialize (IH Hin). destruct (streq k0 k); lia.
Qed.

(** The loop [m[k] = (m[k] || 0) + 1] over a list of keys, from any table. *)
Lemma bump_all (keys : list jsstring) (acc : Counts) :
  NoDup (map fst acc) ->
  NoDup (map fst (fold_left (fun m k => bump k m) keys acc))
  /\ (forall k, lookup0 k (fold_left (fun m k => bump k m) keys acc)
                = lookup0 k acc + occurrences k keys)
  /\ (forall k, In k (map fst (fold_left (fun m k => bump k m) keys acc))
                <-> In k (map fst acc) \/ In k keys)
  /\ total (fold_left (fun m k => bump k m) keys acc)
     = total acc + Z.of_nat (List.length keys).
Proof.
  revert acc. induction keys as [|k0 keys IH]; intros acc Hn.
  - simpl. split; [exact Hn|]. split; [|split].
    + intros k. unfold occurrences. simpl. lia.
    + intros k. tauto.
    + lia.
  - simpl fold_left.
    destruct (IH (bump k0 acc)) as (H1 & H2 & H3 & H4).
    { now apply assign_keys_nodup. }
    split; [exact H1|]. split; [|split].
    + intros k. rewrite H2, occurrences_cons. unfold bump.
      rewrite lookup0_assign. destruct (streq k0 k) eqn:E; [|lia].
      apply streq_eq in E. subst k. lia.
    + intros k. rewrite H3. unfold bump. rewrite assign_keys_iff.
      simpl. split.
      * intros [[->|H]|H]; [right; left; reflexivity|now left|right; now right].
      * intros [H|[->|H]]; [left; now right|left; now left|now right].
    + rewrite H4, total_bump. simpl List.length. lia.
Qed.

Lemma filter_twice (p q : jsstring -> bool) (keys : list jsstring) :
  filter p (filter q keys) = filter (fun k => q k && p k) keys.
Proof.
  induction keys as [|k keys IH]; simpl; [reflexivity|].
  destruct (q k); simpl; [destruct (p k)|]; now rewrite IH.
Qed.

Lemma filter_all_kept (keys : list jsstring) :
  filter (fun _ => true) keys = keys.
Proof. induction keys as [|k keys IH]; simpl; [|rewrite IH]; reflexivity. Qed.

Lemma filter_same (p q : jsstring -> bool) (keys : list jsstring) :
  (forall k, p k = q k) -> filter p keys = filter q keys.
Proof.
  intros H. induction keys as [|k keys IH]; simpl; [reflexivity|].
  now rewrite H, IH.
Qed.

(** The table lists its keys in the order in which the loop met them
    first: those it started with, then the new ones. *)
Lemma bump_keys_in_order (keys : list jsstring) (acc : Counts) :
  map fst (fold_left (fun m k => bump k m) keys acc)
  = map fst acc
    ++ filter (fun k => negb (existsb (fun k0 => streq k0 k) (map fst acc)))
         (first_occurrences keys).
Proof.
  revert acc. induction keys as [|k keys IH]; intros acc.
  - simpl. now rewrite app_nil_r.
  - simpl fold_left. rewrite IH. unfold bump at 1 2. rewrite assign_keys.
    cbn [first_occurrences filter].
    destruct (existsb (fun k0 => streq k0 k) (map fst acc)) eqn:E.
    + cbn [negb]. f_equal. rewrite filter_twice. apply filter_same.
      intros x. destruct (streq k x) eqn:Ex; [|reflexivity].
      apply streq_eq in Ex. subst x. now rewrite E.
    + cbn [negb]. rewrite <- app_assoc. cbn [app]. do 2 f_equal.
      rewrite filter_twice. apply filter_same.
      intros x. rewrite existsb_app. cbn [existsb].
      rewrite orb_false_r, negb_orb. apply andb_comm.
Qed.

Lemma tally_of_fold (keys : list jsstring) :
  tally_of (fold_left (fun m k => bump k m) keys []) keys.
Proof.
  destruct (@bump_all keys []) as (H1 & H2 & H3 & H4); [constructor|].
  assert (Hk : forall k, In k (map fst (fold_left (fun m k => bump k m) keys []))
                         <-> In k keys).
  { intros k. rewrite H3. simpl. tauto. }
  split; [exact H1|]. split; [|split; [exact Hk|exact H4]].
  intros k n Hin.
  assert (E : n = occurrences k keys).
  { rewrite <- (@lookup0_in _ k n H1 Hin), H2. simpl. lia. }
  split; [exact E|]. rewrite E. apply occurrences_pos, Hk.
  apply in_map_iff. now exists (k, n).
Qed.

End Counting.

Section Tallies.

Import Leaderboard Stats.

Variable toLocaleDateString : timestamptz -> jsstring.
Variable getTime : jsstring -> option Z.

Local Open Scope Z_scope.

(** The accumulators of the loop, one by one. *)
Lemma tallies_fold (data : list Progress) (acc : Tallies) :
  languageCounts (fold_left (tally_one toLocaleDateString) data acc)
  = fold_left (fun m k => bump k m) (languages_of data) (languageCounts acc)
  /\ difficultyCounts (fold_left (tally_one toLocaleDateString) data acc)
     = fold_left (fun m k => bump k m) (difficulties_of data) (difficultyCounts acc)
  /\ dateMap (fold_left (tally_one toLocaleDateString) data acc)
     = fold_left (count_day toLocaleDateString) (map row data) (dateMap acc)
  /\ totalAttempts (fold_left (tally_one toLocaleDateString) data acc)
     = totalAttempts acc + sum_or0 user_progress.attempts data
  /\ totalHints (fold_left (tally_one toLocaleDateString) data acc)
     = totalHints acc + sum_or0 user_progress.hints_used data.
Proof.
  revert acc. induction data as [|p data IH]; intros acc.
  - simpl. repeat split; lia.
  - simpl fold_left. destruct (IH (tally_one toLocaleDateString acc p))
      as (H1 & H2 & H3 & H4 & H5).
    rewrite H1, H2, H3, H4, H5. unfold tally_one. simpl.
    destruct (lessons p) as [[language difficulty]|]; simpl; repeat split; lia.
Qed.

Lemma dateMap_of_bumps (rows : list user_progress.Row) (acc : Counts) :
  fold_left (count_day toLocaleDateString) rows acc
  = fold_left (fun m k => bump k m)
      (map (fun r => toLocaleDateString (user_progress.completed_at r)) rows) acc.
Proof.
  revert acc. induction rows as [|r rows IH]; intros acc; simpl; [reflexivity|].
  apply IH.
Qed.

(** X21.  The statistics count, per language and per difficulty, the rows
    that have a lesson: every language and difficulty with a completion is
    listed once with its number of completions, one without a completion is
    not listed, and the counts add up to the number of rows with a lesson.
    The days are tallied over all rows, as in the series of the chart, and
    the two totals add up the attempts and the hints, null read as 0. *)
Theorem tallies_count_completions (progressData : list Progress) :
  tally_of (languageCounts (tallies toLocaleDateString progressData))
    (languages_of progressData)
  /\ tally_of (difficultyCounts (tallies toLocaleDateString progressData))
       (difficulties_of progressData)
  /\ dateMap (tallies toLocaleDateString progressData)
     = dateMap_of toLocaleDateString (map row progressData)
  /\ total (dateMap (tallies toLocaleDateString progressData))
     = Z.of_nat (List.length progressData)
  /\ totalAttempts (tallies toLocaleDateString progressData)
     = sum_or0 user_progress.attempts progressData
  /\ totalHints (tallies toLocaleDateString progressData)
     = sum_or0 user_progress.hints_used progressData.
Proof.
  unfold tallies.
  destruct (tallies_fold progressData (mkTallies [] [] [] 0 0))
    as (H1 & H2 & H3 & H4 & H5).
  rewrite H1, H2, H3, H4, H5. simpl.
  split; [apply tally_of_fold|]. split; [apply tally_of_fold|].
  split; [reflexivity|]. split; [|split; lia].
  rewrite dateMap_of_bumps.
  destruct (@bump_all
              (map (fun r => toLocaleDateString (user_progress.completed_at r))
                 (map row progressData)) []) as (_ & _ & _ & Ht); [constructor|].
  rewrite Ht. simpl. now rewrite !length_map.
Qed.

(** X22.  The counts of the series of the chart never add up to more than
    the number of completions, and they add up to exactly that number when
    the history has at most 7 distinct days. *)
Theorem chart_counts_completions (rows : list user_progress.Row) :
  total (progressOverTime toLocaleDateString getTime rows)
  <= Z.of_nat (List.length rows)
  /\ ((List.length (dateMap_of toLocaleDateString rows) <= 7)%nat ->
      total (progressOverTime toLocaleDateString getTime rows)
      = Z.of_nat (List.length rows)).
Proof.
  assert (Htotal : total (dateMap_of toLocaleDateString rows)
                   = Z.of_nat (List.length rows)).
  { unfold dateMap_of. rewrite dateMap_of_bumps.
    destruct (@bump_all
                (map (fun r => toLocaleDateString (user_progress.completed_at r))
                   rows) []) as (_ & _ & _ & Ht); [constructor|].
    rewrite Ht. simpl. now rewrite length_map. }
  pose proof (sort_by_date_perm getTime (dateMap_of toLocaleDateString rows))
    as Hperm.
  unfold progressOverTime, slice_last.
  remember (sort_by_date getTime (dateMap_of toLocaleDateString rows)) as sorted.
  assert (Hsplit : total sorted
                   = total (firstn (List.length sorted - 7) sorted)
                     + total (skipn (List.length sorted - 7) sorted)).
  { now rewrite <- total_app, firstn_skipn. }
  rewrite (total_perm Hperm), Htotal in Hsplit.
  assert (Hpos : forall l : list (jsstring * Z),
             (forall k v, In (k, v) l -> 1 <= v) -> 0 <= total l).
  { induction l as [|[k v] l IHl]; intros Hl; simpl; [lia|].
    assert (1 <= v) by (apply (Hl k); now left).
    assert (0 <= total l) by (apply IHl; intros k' v' H'; apply (Hl k'); now right).
    lia. }
  split.
  - assert (0 <= total (firstn (List.length sorted - 7) sorted)); [|lia].
    apply Hpos. intros k v Hin.
    assert (Hs : In (k, v) sorted).
    { rewrite <- (firstn_skipn (List.length sorted - 7) sorted).
      apply in_or_app. now left. }
    apply (Permutation_in _ Hperm) in Hs.
    destruct (dateMap_entries toLocaleDateString getTime rows) as (_ & Hcount & _).
    now apply (Hcount k v).
  - intros Hfew. rewrite (Permutation_length Hperm) in Hsplit |- *.
    replace (List.length (dateMap_of toLocaleDateString rows) - 7)%nat with 0%nat
      in Hsplit |- * by lia.
    simpl in Hsplit |- *. lia.
Qed.

End Tallies.

(* ================================================================= *)
(** * Properties of the Profile page *)

Section LanguageProgress.

Import Leaderboard ProfilePage.

Local Open Scope Z_scope.

Lemma fold_bump_map (A : Type) (f : A -> jsstring) (l : list A) (acc : Counts) :
  fold_left (fun m x => Stats.bump (f x) m) l acc
  = fold_left (fun m k => Stats.bump k m) (map f l) acc.
Proof.
  revert acc. induction l as [|x l IH]; intros acc; simpl; [reflexivity|apply IH].
Qed.

Lemma languageCompleted_keys (data : list Stats.Progress) (acc : Counts) :
  fold_left count_completed data acc
  = fold_left (fun m k => Stats.bump k m) (completed_keys data) acc.
Proof.
  revert acc. induction data as [|p data IH]; intros acc; simpl; [reflexivity|].
  unfold count_completed at 2.
  destruct (lang_of p) as [[|c lang]|]; simpl; apply IH.
Qed.

Lemma occurrences_languages (lang : jsstring) (catalogue : list lessons.Row) :
  Stats.occurrences lang (map lessons.language catalogue) = lessons_in lang catalogue.
Proof.
  unfold Stats.occurrences, lessons_in. f_equal.
  induction catalogue as [|l c IH]; simpl; [reflexivity|].
  destruct (streq _ _); simpl; now rewrite IH.
Qed.

Lemma occurrences_completed (catalogue : list lessons.Row) (lang : jsstring)
    (rows : list user_progress.Row) :
  Stats.occurrences lang (completed_keys (map (Stats.join_lessons catalogue) rows))
  = match lang with
    | [] => 0
    | _ :: _ =>
      Z.of_nat (List.length
        (filter (fun r => match lang_of (Stats.join_lessons catalogue r) with
                          | Some k => streq k lang
                          | None => false
                          end) rows))
    end.
Proof.
  induction rows as [|r rows IH].
  - destruct lang; reflexivity.
  - simpl map. simpl completed_keys. simpl filter.
    destruct (lang_of (Stats.join_lessons catalogue r)) as [[|c k]|].
    + simpl app. rewrite IH. destruct lang; [reflexivity|]. reflexivity.
    + simpl app. rewrite occurrences_cons, IH.
      destruct lang as [|c' k']; [reflexivity|].
      destruct (streq (c :: k) (c' :: k')); simpl List.length; lia.
    + simpl app. rewrite IH. destruct lang; reflexivity.
Qed.

(** Rows of distinct lessons stay of distinct lessons when some are left
    out. *)
Lemma distinct_lessons_kept (keep : user_progress.Row -> bool)
    (rows : list user_progress.Row) :
  NoDup (map user_progress.lesson_id rows) ->
  NoDup (map user_progress.lesson_id (filter keep rows)).
Proof.
  induction rows as [|r rows IH]; simpl; intros H; [constructor|].
  apply NoDup_cons_iff in H as [Hr Hrows].
  destruct (keep r); simpl; [|now apply IH].
  constructor; [|now apply IH].
  intros Hin. apply Hr. apply in_map_iff in Hin as [r' [E Hr']].
  apply filter_In in Hr' as [Hr' _]. apply in_map_iff. now exists r'.
Qed.

(** Under [UNIQUE(user_id, lesson_id)] the rows of a user are of distinct
    lessons. *)
Lemma user_rows_distinct (u : uuid) (t : list user_progress.Row) :
  Scoring.unique_progress t ->
  NoDup (map user_progress.lesson_id (Session.progress_eq_user_id u t)).
Proof.
  unfold Session.progress_eq_user_id.
  induction t as [|r t IH]; intros Hu; [constructor|].
  assert (Ht : Scoring.unique_progress t).
  { intros u' l'. pose proof (Hu u' l') as H. simpl in H.
    destruct (Query.same_pair u' l' r); simpl in H; lia. }
  simpl. destruct (streq (user_progress.user_id r) u) eqn:E; [|now apply IH].
  simpl. constructor; [|now apply IH].
  intros Hin. apply in_map_iff in Hin as [r' [El Hr']].
  apply filter_In in Hr' as [Hr' Eu].
  pose proof (Hu u (user_progress.lesson_id r)) as H. simpl in H.
  assert (Hr : Query.same_pair u (user_progress.lesson_id r) r = true).
  { unfold Query.same_pair. now rewrite E, streq_refl. }
  rewrite Hr in H. simpl in H.
  assert (Hone : (1 <= List.length
                         (filter (Query.same_pair u (user_progress.lesson_id r)) t))%nat).
  { apply existsb_filter_length. apply existsb_exists. exists r'.
    split; [exact Hr'|]. unfold Query.same_pair. rewrite Eu, El. apply streq_refl. }
  lia.
Qed.

Lemma completed_in_bound (catalogue : list lessons.Row) (lang : jsstring) (u : uuid)
    (t : list user_progress.Row) :
  Scoring.unique_progress t ->
  Z.of_nat (List.length (completed_in catalogue lang u t))
  <= lessons_in lang catalogue.
Proof.
  intros Hu. unfold lessons_in.
  rewrite <- (length_map user_progress.lesson_id (completed_in catalogue lang u t)).
  rewrite <- (length_map lessons.id (filter _ catalogue)).
  apply inj_le. apply NoDup_incl_length.
  - unfold completed_in. apply distinct_lessons_kept. now apply user_rows_distinct.
  - intros i Hi. apply in_map_iff in Hi as [r [<- Hr]].
    unfold completed_in in Hr. apply filter_In in Hr as [_ Hr].
    unfold lang_of, Stats.join_lessons in Hr. simpl in Hr.
    destruct (find _ catalogue) as [l|] eqn:Ef; simpl in Hr; [|discriminate].
    apply find_some in Ef as [Hl Hid]. apply streq_eq in Hid.
    apply in_map_iff. exists l. split; [exact Hid|].
    apply filter_In. now split.
Qed.

Lemma totals_lookup (allLessons : list lessons.Row) (lang : jsstring) :
  lookup0 lang (languageTotals allLessons) = lessons_in lang allLessons.
Proof.
  unfold languageTotals. rewrite fold_bump_map.
  destruct (@bump_all (map lessons.language allLessons) []) as (_ & H & _);
    [constructor|].
  rewrite H. simpl. apply occurrences_languages.
Qed.

(** X23.  The progress per language has one entry for every language that
    has a lesson and for no other, in the order in which the languages
    first occur in the list of lessons; each entry carries the number of
    lessons of its language, which is at least 1; and the entries of
    [fetchLanguageProgress] are these in the same order, labelled with the
    capitalized languages. *)
Theorem language_progress_entries (toUpperCase : jsstring -> jsstring)
    (allLessons : list lessons.Row) (completedLessons : list Stats.Progress) :
  map language (progress_per_language allLessons completedLessons)
  = Stats.first_occurrences (map lessons.language allLessons)
  /\ NoDup (map language (progress_per_language allLessons completedLessons))
  /\ (forall lang,
        In lang (map language (progress_per_language allLessons completedLessons))
        <-> exists l, In l allLessons /\ lessons.language l = lang)
  /\ (forall e, In e (progress_per_language allLessons completedLessons) ->
                total e = lessons_in (language e) allLessons /\ 1 <= total e)
  /\ map language (fetchLanguageProgress toUpperCase allLessons completedLessons)
     = map (capitalize toUpperCase)
         (map language (progress_per_language allLessons completedLessons))
  /\ map total (fetchLanguageProgress toUpperCase allLessons completedLessons)
     = map total (progress_per_language allLessons completedLessons).
Proof.
  assert (Hkeys : map language (progress_per_language allLessons completedLessons)
                  = map fst (languageTotals allLessons)).
  { unfold progress_per_language. rewrite map_map. simpl. now rewrite map_id. }
  pose proof (tally_of_fold (map lessons.language allLessons)) as (Hn & Hc & Hk & _).
  rewrite <- fold_bump_map in Hn, Hc, Hk.
  fold (languageTotals allLessons) in Hn, Hc, Hk.
  split.
  { rewrite Hkeys. unfold languageTotals.
    rewrite fold_bump_map, bump_keys_in_order. simpl.
    apply filter_all_kept. }
  split; [now rewrite Hkeys|]. split; [|split; [|split]].
  - intros lang. rewrite Hkeys, Hk, in_map_iff.
    split; intros [l [H1 H2]]; exists l; now split.
  - intros e He. unfold progress_per_language in He.
    apply in_map_iff in He as [lang [<- Hl]]. simpl.
    rewrite totals_lookup. split; [reflexivity|].
    rewrite <- occurrences_languages. apply occurrences_pos. now apply Hk.
  - unfold fetchLanguageProgress. now rewrite !map_map.
  - unfold fetchLanguageProgress. now rewrite !map_map.
Qed.

(** X24.  For the rows of a user joined to the catalogue, the completed
    count of a language is the number of the user's rows whose lesson is
    of that language, and, with at most one row per user and lesson, it is
    never more than the number of lessons of the language. *)
Theorem completed_within_total (catalogue : list lessons.Row) (u : uuid)
    (t : list user_progress.Row) (e : LanguageProgress) :
  Scoring.unique_progress t ->
  In e (progress_per_language catalogue (completed_by catalogue u t)) ->
  completed e
  = match language e with
    | [] => 0
    | _ :: _ => Z.of_nat (List.length (completed_in catalogue (language e) u t))
    end
  /\ 0 <= completed e <= total e.
Proof.
  intros Hu He. unfold progress_per_language in He.
  apply in_map_iff in He as [lang [<- Hl]]. simpl.
  assert (Hc : lookup0 lang (languageCompleted (completed_by catalogue u t))
               = match lang with
                 | [] => 0
                 | _ :: _ => Z.of_nat (List.length (completed_in catalogue lang u t))
                 end).
  { unfold languageCompleted. rewrite languageCompleted_keys.
    destruct (@bump_all (completed_keys (completed_by catalogue u t)) [])
      as (_ & H & _); [constructor|].
    rewrite H. simpl. unfold completed_by. apply occurrences_completed. }
  split; [exact Hc|]. rewrite Hc, totals_lookup.
  pose proof (completed_in_bound catalogue lang u Hu) as Hb.
  destruct lang; [|lia].
  unfold lessons_in. lia.
Qed.

End LanguageProgress.

Lemma completed_within_total_witness :
  (0 <= ProfilePage.completed (ProfilePage.mkLanguageProgress (lit "python") 1 2)
   <= ProfilePage.total (ProfilePage.mkLanguageProgress (lit "python") 1 2))%Z.
Proof.
  apply (@completed_within_total Cases.catalogue Seed.alice
           (tbl_user_progress Seed.store_completed)
           (ProfilePage.mkLanguageProgress (lit "python") 1 2)).
  - intros u l. etransitivity; [apply filter_length_le|]. simpl. lia.
  - right. left. reflexivity.
Defined.

Section UserName.

Import ProfilePage Scoring.

Local Open Scope Z_scope.

Local Abbreviation named name :=
  (fun r : profiles.Row => match profiles.username r with
                           | Some n => streq n name
                           | None => false
                           end).

Local Abbreviation renamed d name u :=
  (fun r : profiles.Row =>
     if streq (profiles.user_id r) u
     then profiles.mkRow (profiles.avatar_url r) (profiles.best_streak r)
            (profiles.created_at r) (profiles.current_streak r)
            (profiles.id r) (profiles.total_lessons_completed r)
            (profiles.total_points r) (now d) (profiles.user_id r) (Some name)
     else r).

Lemma no_row_no_change (d : Defaults) (u : uuid) (name : jsstring)
    (t : list profiles.Row) :
  existsb (fun r => streq (profiles.user_id r) u) t = false ->
  map (renamed d name u) t = t.
Proof.
  induction t as [|r t IH]; simpl; [reflexivity|].
  destruct (streq (profiles.user_id r) u); simpl; [discriminate|].
  intros H. now rewrite IH.
Qed.

Lemma renamed_users (d : Defaults) (u : uuid) (name : jsstring)
    (t : list profiles.Row) :
  map profiles.user_id (map (renamed d name u) t) = map profiles.user_id t.
Proof.
  rewrite map_map. apply map_ext. intros r. destruct (streq _ _); reflexivity.
Qed.

(** The rows that hold a name after the update: for the new name the rows
    of the user and the rows of others that held it, for any other name
    the rows of others that held it. *)
Lemma renamed_count (d : Defaults) (u : uuid) (name name' : jsstring)
    (t : list profiles.Row) :
  List.length (filter (named name') (map (renamed d name u) t))
  = ((if streq name name'
      then List.length (Query.profiles_eq_user_id u t) else 0)
     + List.length
         (filter (fun r => negb (streq (profiles.user_id r) u) && named name' r) t))%nat.
Proof.
  unfold Query.profiles_eq_user_id.
  induction t as [|r t IH]; simpl; [now destruct (streq name name')|].
  destruct (streq (profiles.user_id r) u) eqn:E; simpl.
  - destruct (streq name name'); simpl; rewrite IH; reflexivity.
  - destruct (named name' r); simpl; rewrite IH; destruct (streq name name'); lia.
Qed.

Lemma others_named_le (u : uuid) (name : jsstring) (t : list profiles.Row) :
  (List.length
     (filter (fun r => negb (streq (profiles.user_id r) u) && named name r) t)
   <= List.length (filter (named name) t))%nat.
Proof.
  induction t as [|r t IH]; simpl; [lia|].
  destruct (streq (profiles.user_id r) u), (named name r); simpl; lia.
Qed.

(** X25.  Saving a user name keeps the names and the users of the table
    unique.  It fails, with the table and the editing flag as before,
    exactly when the user has a row and another row holds the name;
    otherwise it reports success and ends editing, also when the user has
    no row, in which case nothing is stored; and it never changes the
    counters of a row or any column of another user's row. *)
Theorem saveProfile_keeps_names_unique (u : uuid) (name : jsstring)
    (editing : bool) (d : Defaults) (t : list profiles.Row) :
  unique_users t ->
  unique_usernames t ->
  exists r,
    saveProfile (Some u) name editing d t = Some r
    /\ unique_usernames (profiles_after r)
    /\ unique_users (profiles_after r)
    /\ (toast r = toastFailed
        <-> existsb (fun x => streq (profiles.user_id x) u) t = true
            /\ taken_by_other u name t = true)
    /\ (toast r = toastFailed -> profiles_after r = t /\ editing_after r = editing)
    /\ (toast r = toastUpdated -> editing_after r = false)
    /\ (existsb (fun x => streq (profiles.user_id x) u) t = false ->
        toast r = toastUpdated /\ profiles_after r = t)
    /\ map (fun x => (profiles.user_id x, profiles.total_points x,
                      profiles.total_lessons_completed x,
                      profiles.current_streak x, profiles.best_streak x))
           (profiles_after r)
       = map (fun x => (profiles.user_id x, profiles.total_points x,
                        profiles.total_lessons_completed x,
                        profiles.current_streak x, profiles.best_streak x)) t
    /\ (forall x, In x t -> profiles.user_id x <> u -> In x (profiles_after r)).
Proof.
  intros Hu Hn. unfold saveProfile, update_username.
  destruct (existsb (fun x => streq (profiles.user_id x) u) t) eqn:Ehas;
    destruct (taken_by_other u name t) eqn:Etaken; simpl.
  - (* refused *)
    eexists. split; [reflexivity|]. simpl.
    repeat split; try assumption; try reflexivity; try discriminate; auto.
  - (* the user's row is renamed *)
    eexists. split; [reflexivity|]. simpl.
    split.
    { intros name'. rewrite renamed_count.
      pose proof (others_named_le u name' t) as Hle. pose proof (Hn name') as Hn'.
      destruct (streq name name') eqn:E; [|lia].
      apply streq_eq in E. subst name'.
      unfold taken_by_other in Etaken.
      rewrite (existsb_false_filter _ _ Etaken). simpl.
      pose proof (Hu u). lia. }
    split.
    { intros u'. rewrite eq_user_by_ids, renamed_users, <- eq_user_by_ids. apply Hu. }
    split; [split; [discriminate|intros [_ H]; discriminate]|].
    split; [discriminate|]. split; [reflexivity|]. split; [discriminate|].
    split.
    { rewrite map_map. apply map_ext. intros x. destruct (streq _ _); reflexivity. }
    intros x Hx Hne. apply in_map_iff. exists x. split; [|exact Hx].
    apply streq_neq in Hne. now rewrite Hne.
  - (* no row of the user *)
    eexists. split; [reflexivity|]. simpl. rewrite (no_row_no_change d u name t Ehas).
    repeat split; try assumption; try reflexivity; try discriminate; auto.
    intros [H _]; discriminate.
  - eexists. split; [reflexivity|]. simpl. rewrite (no_row_no_change d u name t Ehas).
    repeat split; try assumption; try reflexivity; try discriminate; auto.
    intros [H _]; discriminate.
Qed.

End UserName.

Lemma saveProfile_keeps_names_unique_witness :
  exists r,
    ProfilePage.saveProfile (Some Seed.alice) (lit "alice") true Seed.today
      (tbl_profiles Seed.store_completed) = Some r
    /\ ProfilePage.toast r = ProfilePage.toastUpdated
    /\ ProfilePage.unique_usernames (ProfilePage.profiles_after r).
Proof.
  destruct (@saveProfile_keeps_names_unique Seed.alice (lit "alice") true Seed.today
              (tbl_profiles Seed.store_completed))
    as [r (Hr & Hnames & _)].
  - intros u. etransitivity; [apply filter_length_le|]. simpl. lia.
  - intros name. etransitivity; [apply filter_length_le|]. simpl. lia.
  - exists r. split; [exact Hr|]. split; [|exact Hnames].
    injection Hr as <-. reflexivity.
Defined.


Lemma chart_counts_completions_witness :
  Stats.total
    (Leaderboard.progressOverTime Cases.day_string Cases.day_start Cases.history)
  = 3%Z.
Proof.
  apply (@chart_counts_completions Cases.day_string Cases.day_start Cases.history).
  vm_compute. lia.
Defined.

(** The rows of [Cases.history] on the chart: one completion on day 0, two
    on day 1, in this order. *)
Example chart_of_history :
  Leaderboard.progressOverTime Cases.day_string Cases.day_start Cases.history
  = [([0%N], 1%Z); ([1%N], 2%Z)].
Proof. reflexivity. Qed.

(** After a change of language with a lesson open, a passed check moves on
    to the first lesson of the new language. *)
Example pass_after_language_change :
  Session.moveOn false
    (Session.fetchLessons (lit "cpp") Cases.catalogue (Seed.opened Seed.off_by_one))
    (Session.fetchLessons (lit "cpp") Cases.catalogue (Seed.opened Seed.off_by_one))
  = (Challenge.openLesson (Session.as_lesson (Cases.row_of Seed.memory_leak 6))
       (Session.fetchLessons (lit "cpp") Cases.catalogue
          (Seed.opened Seed.off_by_one)),
     Some (Session.moved_to (Session.as_lesson (Cases.row_of Seed.memory_leak 6)))).
Proof. reflexivity. Qed.

Section Resetting.

Import Challenge Session.

(** X26.  'Reset' puts the page in the state in which its lesson is opened:
    starter code, no output, no hint shown, no attempt, the lesson and the
    list as they are; resetting again changes nothing, and the first check
    after a reset is attempt 1, which reveals no hint by itself. *)
Theorem reset_reopens_lesson (st : State) (l : Lesson) :
  currentLesson st = Some l ->
  resetCode st = openLesson l st
  /\ resetCode (resetCode st) = resetCode st
  /\ attempts (fst (checkSolution (resetCode st))) = 1%Z
  /\ auto_revealed (checkSolution (resetCode st)) = false.
Proof.
  intros H.
  assert (E : resetCode st = openLesson l st).
  { unfold resetCode, openLesson, setShowHints, setAttempts, setOutput, setCode.
    rewrite H. simpl. reflexivity. }
  split; [exact E|]. split.
  - rewrite E. unfold resetCode. simpl. reflexivity.
  - rewrite E. unfold auto_revealed, checkSolution. simpl.
    destruct (trim (expected_output l)); simpl.
    + split; [reflexivity|]. destruct (isFirstChallenge st); reflexivity.
    + split; reflexivity.
Qed.

End Resetting.

Lemma reset_reopens_lesson_witness :
  Challenge.resetCode
    (fst (Session.run [Session.Run; Session.Check; Session.Hint 1; Session.Check]
            (Seed.opened Seed.off_by_one)))
  = Seed.opened Seed.off_by_one.
Proof.
  rewrite (proj1 (@reset_reopens_lesson
                    (fst (Session.run
                            [Session.Run; Session.Check; Session.Hint 1; Session.Check]
                            (Seed.opened Seed.off_by_one)))
                    Seed.off_by_one eq_refl)).
  reflexivity.
Defined.
